(** * PixArtM: capture reservation, gallery archive and cleanup services

    A shallow embedding of the serverless functions of the PixArtM backend
    (the Supabase edge functions [reserve-capture], [auto-cleanup],
    [generate-album-zip] and the Firebase cloud functions [reserveCapture],
    [reserveCaptureWithBuffer], [confirmCapture], [generateAlbumZip],
    [autoCleanup], [manualCleanup] with the validation utilities they share)
    and of the parts of the web runtime that call them (the service helpers,
    the capture guard of the camera page, the gallery page and its lightbox),
    followed by the properties of the platform specification that concern
    them and by further properties of the code: what a run can change, what
    an archive holds, what a cleanup reports and leaves, and how the pages
    and the functions fit together.

    Conventions.
    - An instant is a [Z]: milliseconds since the epoch, which is what a
      JavaScript [Date] compares by and what an ISO-8601 string round-trips.
    - A table (Postgres) or a collection (Firestore) is a [gmap] from the
      row's primary key or document id to the row.
    - The handlers run on a UTC runtime: [getHours] and [setDate] are
      computed on the UTC calendar. *)

From Stdlib Require Import ZArith Bool Lia.
From stdpp Require Import gmap strings list fin_maps sorting.

Local Open Scope Z_scope.

(** ** Shared data model (shared/types/index.ts, schema) *)

Inductive EventStatus : Type := draft | active | expired | cleaned.

#[global] Instance EventStatus_eq_dec : EqDecision EventStatus.
Proof. solve_decision. Defined.

(** [a === b] / [a !== b] on two status strings. *)
Definition status_eqb (a b : EventStatus) : bool := bool_decide (a = b).

Record Analytics : Type := mkAnalytics {
  totalCaptures : Z;
  peakHour : option Z;
  lastCaptureAt : option Z
}.

(** The summary every reservation response carries under the key [event]. *)
Record EventInfo : Type := mkEventInfo {
  captureCount_ : Z;
  photoLimit_ : Z;
  status_ : EventStatus
}.

Definition ms_per_hour : Z := 1000 * 60 * 60.
Definition ms_per_day : Z := 24 * 60 * 60 * 1000.

(** [15 * 24 * 60 * 60 * 1000] *)
Definition fifteen_days : Z := 15 * 24 * 60 * 60 * 1000.

(** [Date.prototype.getHours] *)
Definition getHours (t : Z) : Z := (t / ms_per_hour) mod 24.

(** [d.setDate(d.getDate() + n)] *)
Definition addDays (t n : Z) : Z := t + n * ms_per_day.

(** JavaScript [x || d] on a number: [0] is falsy. *)
Definition num_or (x d : Z) : Z := if x =? 0 then d else x.

(** JavaScript [!s] on a string: only the empty string is falsy. *)
Definition is_empty (s : string) : bool := bool_decide (s = EmptyString).

(** ** Supabase edge functions *)

Module Supabase.

(** A row of the [events] table, restricted to the columns the edge functions
    read or write.  The primary key [id] is the key of the table. *)
Record Event : Type := mkEvent {
  name : string;
  photo_limit : Z;
  has_cloud_album : bool;
  start_date : Z;
  end_date : Z;
  status : EventStatus;
  capture_count : Z;
  reserved_count : Z;
  gallery_token : string;
  gallery_expires_at : option Z;
  analytics : option Analytics
}.

(** A row of the [captures] table.  [storage_path] is the object's folder and
    file name in the [photos] bucket, [None] when the column is null or
    empty. *)
Record Capture : Type := mkCapture {
  event_id : string;
  capture_number : Z;
  storage_path : option (string * string);
  uploaded_to_cloud : bool
}.

(** [update({ status: s })] on one row. *)
Definition apply_update_status (s : EventStatus) (r : Event) : Event :=
  {| name := name r;
     photo_limit := photo_limit r;
     has_cloud_album := has_cloud_album r;
     start_date := start_date r;
     end_date := end_date r;
     status := s;
     capture_count := capture_count r;
     reserved_count := reserved_count r;
     gallery_token := gallery_token r;
     gallery_expires_at := gallery_expires_at r;
     analytics := analytics r |}.

(** *** reserve-capture/index.ts *)

Module ReserveCapture.

(** The JSON body of a response of [reserve-capture]. *)
Record Body : Type := mkBody {
  success : bool;
  captureNumber : option Z;
  message : option string;
  event : option EventInfo
}.

Record Response : Type := mkResponse {
  http_status : Z;
  body : Body
}.

(** [updateData: Record<string, unknown>]: the columns an UPDATE sets. *)
Record UpdateData : Type := mkUpdateData {
  set_capture_count : option Z;
  set_analytics : option Analytics;
  set_status : option EventStatus;
  set_gallery_expires_at : option Z
}.

Definition apply_update (u : UpdateData) (r : Event) : Event :=
  {| name := name r;
     photo_limit := photo_limit r;
     has_cloud_album := has_cloud_album r;
     start_date := start_date r;
     end_date := end_date r;
     status := default (status r) (set_status u);
     capture_count := default (capture_count r) (set_capture_count u);
     reserved_count := reserved_count r;
     gallery_token := gallery_token r;
     gallery_expires_at :=
       match set_gallery_expires_at u with
       | Some t => Some t
       | None => gallery_expires_at r
       end;
     analytics :=
       match set_analytics u with
       | Some a => Some a
       | None => analytics r
       end |}.

(** Whether each of the three requests the handler sends to the database is
    carried out ([true]) or fails in transit or in the database ([false]). *)
Record Net : Type := mkNet {
  fetch_ok : bool;
  expire_ok : bool;
  update_ok : bool
}.

Definition reliable : Net := mkNet true true true.

(** [from('events').select('*').eq('id', id).single()]: [data] is the row, or
    null together with [error] when the request failed or no row has the id. *)
Definition select_single (ok : bool) (id : string) (db : gmap string Event)
  : option Event :=
  if ok then db !! id else None.

(** [from('events').update(u).eq('id', id)].  The result is the new table and
    the [error] flag.  [error] is set when the request failed and only then. *)
Definition update_eq_id (ok : bool) (u : UpdateData) (id : string)
    (db : gmap string Event) : gmap string Event * bool :=
  if ok then (alter (apply_update u) id db, false) else (db, true).

(** [from('events').update(u).eq('id', id).eq('capture_count', c)]: an UPDATE
    whose WHERE clause has two conjuncts.  A request that was carried out and
    whose filters selected no row changes nothing and is not an error: the
    database answers it like any other UPDATE, and the client sets [error]
    for a request that failed, not for one that found no row to change.  The
    handler asks for no count and no returned rows ([select], [single]), so
    [error] is all it learns. *)
Definition update_eq_id_capture_count (ok : bool) (u : UpdateData) (id : string)
    (c : Z) (db : gmap string Event) : gmap string Event * bool :=
  if ok
  then (alter (fun r => if capture_count r =? c then apply_update u r else r) id db,
        false)
  else (db, true).

Definition info_of (e : Event) : EventInfo :=
  mkEventInfo (capture_count e) (photo_limit e) (status e).

Definition failure (code : Z) (msg : string) (ev : option EventInfo) : Response :=
  mkResponse code (mkBody false None (Some msg) ev).

(** What the handler has decided once its checks are done: a response, or to
    go on to the counter update with the row it fetched. *)
Inductive Checked : Type :=
| Respond (r : Response)
| Proceed (event : Event).

(** reserve-capture/index.ts, lines 24-99: the fetch and the validation chain,
    with the auto-expire write of the [now > endDate] branch. *)
Definition check_phase (net : Net) (now : Z) (eventId : string)
    (db : gmap string Event) : Checked * gmap string Event :=
  if is_empty eventId then
    (Respond (failure 400 "Event ID is required" None), db)
  else
    match select_single (fetch_ok net) eventId db with
    | None => (Respond (failure 404 "Event not found" None), db)
    | Some event =>
      let startDate := start_date event in
      let endDate := end_date event in
      if negb (status_eqb (status event) active) then
        (Respond (failure 200 "Event is not active" (Some (info_of event))), db)
      else if now <? startDate then
        (Respond (failure 200 "Event has not started yet" None), db)
      else if endDate <? now then
        let '(db', _) :=
          update_eq_id (expire_ok net)
            (mkUpdateData None None (Some expired) (Some (now + fifteen_days)))
            eventId db in
        (Respond (failure 200 "Event has ended" None), db')
      else if photo_limit event <=? capture_count event then
        (Respond (failure 200 "Photo limit reached" (Some (info_of event))), db)
      else (Proceed event, db)
    end.

(** reserve-capture/index.ts, lines 101-147: the increment, written with the
    conditional update keyed on the [capture_count] that was fetched. *)
Definition write_phase (net : Net) (now : Z) (eventId : string)
    (event : Event) (db : gmap string Event) : Response * gmap string Event :=
  let newCaptureCount := capture_count event + 1 in
  let currentHour := getHours now in
  let analytics0 :=
    default (mkAnalytics 0 (Some currentHour) (Some now)) (analytics event) in
  let analytics1 :=
    mkAnalytics (totalCaptures analytics0 + 1) (Some currentHour) (Some now) in
  let shouldExpire := photo_limit event <=? newCaptureCount in
  let updateData := mkUpdateData (Some newCaptureCount) (Some analytics1) None None in
  let updateData :=
    if shouldExpire
    then mkUpdateData (set_capture_count updateData) (set_analytics updateData)
           (Some expired) (Some (now + fifteen_days))
    else updateData in
  let '(db', updateError) :=
    update_eq_id_capture_count (update_ok net) updateData eventId
      (capture_count event) db in
  if updateError then
    (failure 409 "Concurrent update conflict, please retry" None, db')
  else
    (mkResponse 200
       (mkBody true (Some newCaptureCount) None
          (Some (mkEventInfo newCaptureCount (photo_limit event)
                   (if shouldExpire then expired else status event)))),
     db').

(** The handler passed to [serve]. *)
Definition reserve_capture (net : Net) (now : Z) (eventId : string)
    (db : gmap string Event) : Response * gmap string Event :=
  match check_phase net now eventId db with
  | (Respond r, db') => (r, db')
  | (Proceed event, db') => write_phase net now eventId event db'
  end.

(** **** Invocations in flight

    The handler awaits the database between its checks and its update, and
    other invocations run in between.  A [Task] is an invocation at one of
    its suspension points; [step] takes it from one to the next (the two
    requests of the [now > endDate] branch are taken together). *)
Inductive Task : Type :=
| Arrived (net : Net) (now : Z) (eventId : string)
| Fetched (net : Net) (now : Z) (eventId : string) (event : Event)
| Done (r : Response).

Definition step (t : Task) (db : gmap string Event) : Task * gmap string Event :=
  match t with
  | Arrived net now eventId =>
    match check_phase net now eventId db with
    | (Respond r, db') => (Done r, db')
    | (Proceed event, db') => (Fetched net now eventId event, db')
    end
  | Fetched net now eventId event =>
    let '(r, db') := write_phase net now eventId event db in (Done r, db')
  | Done r => (Done r, db)
  end.

(** Two invocations under a schedule: [true] lets the first one take its next
    step, [false] the second. *)
Fixpoint run (schedule : list bool) (a b : Task) (db : gmap string Event)
  : Task * Task * gmap string Event :=
  match schedule with
  | [] => (a, b, db)
  | true :: rest => let '(a', db') := step a db in run rest a' b db'
  | false :: rest => let '(b', db') := step b db in run rest a b' db'
  end.

End ReserveCapture.

(** *** Storage and the whole backend *)

(** An archive in the [zips] bucket, at [<event id>/album.zip]: when it was
    stored and the capture numbers of the photos it holds (the entry of
    capture [n] is named [photo_<n, zero-padded to four digits>.jpg]). *)
Record ZipObject : Type := mkZip {
  timeCreated : Z;
  entries : list Z
}.

Record Summary : Type := mkSummary {
  events_processed : nat;
  events_cleaned_success : nat;
  events_cleaned_failed : nat;
  total_photos_deleted : nat;
  total_zips_deleted : nat
}.

(** The tables and buckets the edge functions work on.  [photos] maps a
    folder (an event id) to the names of the objects under it, in the order
    a listing returns them; [zips] maps an event id to its archive.  Every
    request to them is carried out. *)
Record Backend : Type := mkBackend {
  events : gmap string Event;
  captures : list Capture;
  photos : gmap string (list string);
  zips : gmap string ZipObject;
  cleanup_logs : list Summary
}.

(** *** auto-cleanup/index.ts *)

Module AutoCleanup.

(** The WHERE clause of the query: [status = 'expired' AND
    gallery_expires_at < now].  A null [gallery_expires_at] satisfies no
    comparison. *)
Definition is_due (now : Z) (e : Event) : bool :=
  status_eqb (status e) expired
  && match gallery_expires_at e with
     | Some t => t <? now
     | None => false
     end.

(** [from('events').select('*').eq('status', 'expired')
      .lt('gallery_expires_at', now.toISOString())] *)
Definition select_expired (now : Z) (tbl : gmap string Event)
  : list (string * Event) :=
  filter (fun row => Is_true (is_due now row.2)) (map_to_list tbl).

(** [storage.from('photos').list(folder)]: the objects under the folder, one
    hundred of them at most (the default limit of the call). *)
Definition list_folder (folder : string) (bucket : gmap string (list string))
  : list string :=
  take 100 (default [] (bucket !! folder)).

(** [storage.from('photos').remove(paths)] for paths of one folder. *)
Definition remove_files (folder : string) (files : list string)
    (bucket : gmap string (list string)) : gmap string (list string) :=
  alter (fun present => filter (fun f => f ∉ files) present) folder bucket.

Definition mark_cleaned (e : Event) : Event :=
  apply_update_status cleaned e.

(** The body of the [for] loop, for one event of the query's result.  The
    running totals are the five counters of the handler. *)
Definition clean_event (acc : Backend * Summary) (row : string * Event)
  : Backend * Summary :=
  let '(st, s) := acc in
  let id := row.1 in
  let files := list_folder id (photos st) in
  let photos' :=
    if bool_decide (files = []) then photos st
    else remove_files id files (photos st) in
  let deleted := if bool_decide (files = []) then 0%nat else length files in
  let zips' := delete id (zips st) in
  let captures' := filter (fun c => event_id c ≠ id) (captures st) in
  let events' := alter mark_cleaned id (events st) in
  (mkBackend events' captures' photos' zips' (cleanup_logs st),
   mkSummary (S (events_processed s)) (S (events_cleaned_success s))
     (events_cleaned_failed s)
     (total_photos_deleted s + deleted)%nat
     (S (total_zips_deleted s))).

Definition no_work : Summary := mkSummary 0 0 0 0 0.

(** The handler passed to [serve]: the query, the loop over its result, the
    summary row, and the summary in the response. *)
Definition auto_cleanup (now : Z) (st : Backend) : Summary * Backend :=
  let expiredEvents := select_expired now (events st) in
  let '(st', summary) := foldl clean_event (st, no_work) expiredEvents in
  (summary,
   mkBackend (events st') (captures st') (photos st') (zips st')
     (cleanup_logs st' ++ [summary])).

End AutoCleanup.

(** *** generate-album-zip (edge function) *)

Module GenerateAlbumZip.

(** [storage.from('zips').createSignedUrl(path, seconds)]: a link to the
    archive of the event, valid for that many seconds from its signing. *)
Record SignedUrl : Type := mkSignedUrl {
  archive_of : string;
  valid_seconds : Z
}.

Inductive Message : Type :=
| Text (s : string)
| UsingCachedZip
| ZipCreatedWith (photoCount : nat).

Record Response : Type := mkResponse {
  http_status : Z;
  success : bool;
  downloadUrl : option SignedUrl;
  expiresAt : option Z;
  message : Message
}.

Definition failure (code : Z) (msg : string) : Response :=
  mkResponse code false None None (Text msg).

(** [createSignedUrl] answers with a link when the object exists and with an
    error, and no data, when it does not. *)
Definition createSignedUrl (eventId : string) (seconds : Z)
    (bucket : gmap string ZipObject) : option SignedUrl :=
  match bucket !! eventId with
  | Some _ => Some (mkSignedUrl eventId seconds)
  | None => None
  end.

(** [capture_number] ascending. *)
Definition by_capture_number (a b : Capture) : Prop :=
  capture_number a <= capture_number b.

#[global] Instance by_capture_number_dec a b : Decision (by_capture_number a b).
Proof. unfold by_capture_number. apply _. Defined.

(** [from('captures').select('*').eq('event_id', id)
      .eq('uploaded_to_cloud', true).order('capture_number')] *)
Definition cloud_captures (eventId : string) (tbl : list Capture) : list Capture :=
  merge_sort by_capture_number
    (filter (fun c => event_id c = eventId ∧ Is_true (uploaded_to_cloud c)) tbl).

(** [storage.from('photos').download(path)] succeeds when the object is
    there. *)
Definition downloads (path : string * string) (bucket : gmap string (list string))
  : bool :=
  bool_decide (path.2 ∈ default [] (bucket !! path.1)).

(** The [for] loop: the capture numbers under which it calls [zip.file], in
    order, one for each photo it could download; [photoCount] is their
    number. *)
Definition add_photos (cs : list Capture) (bucket : gmap string (list string))
  : list Z :=
  omap (fun c =>
          match storage_path c with
          | Some path => if downloads path bucket then Some (capture_number c) else None
          | None => None
          end) cs.

(** [zip.file(fileName, data)].  A JSZip object holds one entry per name:
    adding under a name it already has replaces the data of that entry where
    it stands.  The name is [photo_<capture number, zero-padded>.jpg], one
    name per capture number. *)
Definition zip_file (n : Z) (zip : list Z) : list Z :=
  if bool_decide (n ∈ zip) then zip else zip ++ [n].

(** The entries of [new JSZip()] after the calls of the loop. *)
Definition zip_entries (added : list Z) : list Z :=
  foldl (fun zip n => zip_file n zip) [] added.

(** The handler passed to [serve]. *)
Definition generate_album_zip (now : Z) (eventId galleryToken : string)
    (st : Backend) : Response * Backend :=
  if is_empty eventId || is_empty galleryToken then
    (failure 400 "Event ID and gallery token are required", st)
  else
    match events st !! eventId with
    | None => (failure 404 "Event not found", st)
    | Some event =>
      if negb (bool_decide (gallery_token event = galleryToken)) then
        (failure 403 "Invalid gallery token", st)
      else if negb (has_cloud_album event) then
        (failure 400 "This event does not have cloud album feature", st)
      else if status_eqb (status event) cleaned then
        (failure 400 "Gallery has been cleaned up", st)
      else if match gallery_expires_at event with
              | Some t => t <? now
              | None => false
              end then
        (failure 400 "Gallery has expired", st)
      else
        match createSignedUrl eventId 86400 (zips st) with
        | Some existingZip =>
          (mkResponse 200 true (Some existingZip) (Some (now + 86400000))
             UsingCachedZip, st)
        | None =>
          let captures := cloud_captures eventId (captures st) in
          if bool_decide (captures = []) then
            (failure 404 "No photos found in cloud album", st)
          else
            let added := add_photos captures (photos st) in
            let photoCount := length added in
            if bool_decide (photoCount = 0%nat) then
              (failure 404 "No accessible photos found", st)
            else
              let zips' := <[eventId := mkZip now (zip_entries added)]> (zips st) in
              (mkResponse 200 true (createSignedUrl eventId 86400 zips')
                 (Some (now + 86400000)) (ZipCreatedWith photoCount),
               mkBackend (events st) (Supabase.captures st) (photos st) zips'
                 (cleanup_logs st))
        end
    end.

End GenerateAlbumZip.

End Supabase.

(** ** Firebase cloud functions *)

Module Firebase.

(** A document of the [events] collection ([Event] of shared/types),
    restricted to the fields the cloud functions read or write.  The document
    id is the key of the collection. *)
Record Event : Type := mkEvent {
  name : string;
  photoLimit : Z;
  hasCloudAlbum : bool;
  startDate : Z;
  endDate : Z;
  status : EventStatus;
  captureCount : Z;
  reservedCount : Z;
  galleryToken : string;
  galleryExpiresAt : option Z;
  analytics : option Analytics;
  updatedAt : Z
}.

(** *** The clock

    The cloud functions read the clock with a fresh [new Date()] at every
    use.  A [Clock] is the sequence of instants the successive reads return;
    a computation in [M] consumes a prefix of it. *)
Definition Clock : Type := nat -> Z.

Definition M (A : Type) : Type := Clock -> A * Clock.

Definition ret {A} (a : A) : M A := fun c => (a, c).

Definition bind {A B} (m : M A) (k : A -> M B) : M B :=
  fun c => let '(a, c') := m c in k a c'.

Notation "x <- m ;; k" := (bind m (fun x => k))
  (at level 100, m at next level, right associativity).

(** [new Date()] *)
Definition new_Date : M Z := fun c => (c 0%nat, fun n => c (S n)).

(** A clock that never runs backwards. *)
Definition monotone (c : Clock) : Prop := forall n, c n <= c (S n).

(** *** utils/validation.ts *)

Definition isEventActive (event : Event) : M bool :=
  now <- new_Date ;;
  ret (status_eqb (status event) active
       && (startDate event <=? now)
       && (now <=? endDate event)).

Definition hasReachedLimit (event : Event) : bool :=
  photoLimit event <=? captureCount event.

Definition hasAvailableSlots (event : Event) : bool :=
  let totalUsed := captureCount event + num_or (reservedCount event) 0 in
  totalUsed <? photoLimit event.

Record CaptureValidationResult : Type := mkValidation {
  canCapture : bool;
  reason : option string;
  v_event : option EventInfo
}.

Definition info_of (e : Event) : EventInfo :=
  mkEventInfo (captureCount e) (photoLimit e) (status e).

Definition refuse (why : string) (e : Event) : CaptureValidationResult :=
  mkValidation false (Some why) (Some (info_of e)).

Definition validateCapture (event : option Event) : M CaptureValidationResult :=
  match event with
  | None => ret (mkValidation false (Some "Event not found") None)
  | Some event =>
    if status_eqb (status event) cleaned then
      ret (refuse "Event has been cleaned up" event)
    else if status_eqb (status event) expired then
      ret (refuse "Event has expired" event)
    else
      isActive <- isEventActive event ;;
      if negb isActive then
        now <- new_Date ;;
        if now <? startDate event
        then ret (refuse "Event has not started yet" event)
        else ret (refuse "Event has ended" event)
      else if hasReachedLimit event then
        ret (refuse "Photo limit reached" event)
      else if negb (hasAvailableSlots event) then
        ret (refuse "No available slots (some are reserved)" event)
      else ret (mkValidation true None (Some (info_of event)))
  end.

(** [getHourFromTimestamp(new Date().toISOString())] *)
Definition getHourFromTimestamp (timestamp : Z) : Z := getHours timestamp.

Definition shouldExpireEvent (event : Event) : M bool :=
  if negb (status_eqb (status event) active) then ret false
  else
    now <- new_Date ;;
    ret ((endDate event <? now) || hasReachedLimit event).

(** [new Date(event.galleryExpiresAt)] is an invalid date when the field is
    missing, and every comparison with an invalid date is false. *)
Definition shouldCleanGallery (event : Event) : M bool :=
  if negb (status_eqb (status event) expired) then ret false
  else
    now <- new_Date ;;
    ret (match galleryExpiresAt event with
         | Some galleryExpiresAt => galleryExpiresAt <? now
         | None => false
         end).

(** *** reserveCapture.ts *)

(** [ReserveCaptureResponse] *)
Record Response : Type := mkResponse {
  success : bool;
  captureNumber : option Z;
  message : option string;
  event : option EventInfo
}.

(** What a callable function ends with: the value it returns, or the
    [HttpsError] (code, message) it throws. *)
Inductive Outcome (A : Type) : Type :=
| Returns (a : A)
| Throws (code message : string).
Arguments Returns {A} a.
Arguments Throws {A} code message.

(** [updateData: Partial<Event>] *)
Record UpdateData : Type := mkUpdateData {
  set_captureCount : option Z;
  set_reservedCount : option Z;
  set_analytics : option Analytics;
  set_updatedAt : option Z;
  set_status : option EventStatus;
  set_galleryExpiresAt : option Z
}.

(** [{ ...event, ...updateData }], which is also what
    [transaction.update(eventRef, updateData)] leaves in the document. *)
Definition apply_update (u : UpdateData) (e : Event) : Event :=
  {| name := name e;
     photoLimit := photoLimit e;
     hasCloudAlbum := hasCloudAlbum e;
     startDate := startDate e;
     endDate := endDate e;
     status := default (status e) (set_status u);
     captureCount := default (captureCount e) (set_captureCount u);
     reservedCount := default (reservedCount e) (set_reservedCount u);
     galleryToken := galleryToken e;
     galleryExpiresAt :=
       match set_galleryExpiresAt u with
       | Some t => Some t
       | None => galleryExpiresAt e
       end;
     analytics :=
       match set_analytics u with
       | Some a => Some a
       | None => analytics e
       end;
     updatedAt := default (updatedAt e) (set_updatedAt u) |}.

(** The analytics object after [totalCaptures += 1] and the two
    assignments. *)
Definition bump_analytics (a : option Analytics) (currentHour now : Z) : Analytics :=
  let analytics := default (mkAnalytics 0 (Some currentHour) (Some now)) a in
  mkAnalytics (totalCaptures analytics + 1) (Some currentHour) (Some now).

(** The auto-expire step shared by [reserveCapture] and [confirmCapture]:
    [if (shouldExpireEvent(updatedEvent)) { updateData.status = 'expired';
    updateData.galleryExpiresAt = (now + 15 days) }]. *)
Definition expire_if_due (event : Event) (updateData : UpdateData) : M UpdateData :=
  let updatedEvent := apply_update updateData event in
  due <- shouldExpireEvent updatedEvent ;;
  if due then
    galleryExpiresAt <- new_Date ;;
    ret (mkUpdateData (set_captureCount updateData) (set_reservedCount updateData)
           (set_analytics updateData) (set_updatedAt updateData)
           (Some expired) (Some (addDays galleryExpiresAt 15)))
  else ret updateData.

Definition rejected (validation : CaptureValidationResult) : Response :=
  mkResponse false None (reason validation) (v_event validation).

(** The update function passed to [db.runTransaction] by [reserveCapture]. *)
Definition reserveCapture_tx (eventId : string) (db : gmap string Event)
  : M (Outcome Response * gmap string Event) :=
  match db !! eventId with
  | None => ret (Throws "not-found" "Event not found", db)
  | Some event =>
    validation <- validateCapture (Some event) ;;
    if negb (canCapture validation) then ret (Returns (rejected validation), db)
    else
      let newCaptureCount := captureCount event + 1 in
      hourStamp <- new_Date ;;
      let currentHour := getHourFromTimestamp hourStamp in
      now <- new_Date ;;
      let analytics := bump_analytics (analytics event) currentHour now in
      let updateData :=
        mkUpdateData (Some newCaptureCount) None (Some analytics) (Some now)
          None None in
      updateData <- expire_if_due event updateData ;;
      ret (Returns
             (mkResponse true (Some newCaptureCount) None
                (Some (mkEventInfo newCaptureCount (photoLimit event)
                         (default (status event) (set_status updateData))))),
           <[eventId := apply_update updateData event]> db)
  end.

(** The update function passed to [db.runTransaction] by
    [reserveCaptureWithBuffer]. *)
Definition reserveCaptureWithBuffer_tx (eventId : string) (db : gmap string Event)
  : M (Outcome Response * gmap string Event) :=
  match db !! eventId with
  | None => ret (Throws "not-found" "Event not found", db)
  | Some event =>
    validation <- validateCapture (Some event) ;;
    if negb (canCapture validation) then ret (Returns (rejected validation), db)
    else
      let newReservedCount := num_or (reservedCount event) 0 + 1 in
      now <- new_Date ;;
      let updateData :=
        mkUpdateData None (Some newReservedCount) None (Some now) None None in
      ret (Returns
             (mkResponse true (Some (captureCount event + newReservedCount)) None
                (Some (mkEventInfo (captureCount event) (photoLimit event)
                         (status event)))),
           <[eventId := apply_update updateData event]> db)
  end.

(** The update function passed to [db.runTransaction] by [confirmCapture]. *)
Definition confirmCapture_tx (eventId : string) (db : gmap string Event)
  : M (Outcome Response * gmap string Event) :=
  match db !! eventId with
  | None => ret (Throws "not-found" "Event not found", db)
  | Some event =>
    let newCaptureCount := captureCount event + 1 in
    let newReservedCount := Z.max 0 (num_or (reservedCount event) 0 - 1) in
    hourStamp <- new_Date ;;
    let currentHour := getHourFromTimestamp hourStamp in
    now <- new_Date ;;
    let analytics := bump_analytics (analytics event) currentHour now in
    let updateData :=
      mkUpdateData (Some newCaptureCount) (Some newReservedCount)
        (Some analytics) (Some now) None None in
    updateData <- expire_if_due event updateData ;;
    ret (Returns
           (mkResponse true (Some newCaptureCount) None
              (Some (mkEventInfo newCaptureCount (photoLimit event)
                       (default (status event) (set_status updateData))))),
         <[eventId := apply_update updateData event]> db)
  end.

(** The body shared by the three callables: the argument check, then
    [db.runTransaction(tx)] inside [try]/[catch].  [db_ok] tells whether the
    Firestore layer carries the transaction out; when it does not, the error
    it raises is not an [HttpsError] and the [catch] wraps it as [internal]. *)
Definition callable (failed : string)
    (tx : string -> gmap string Event -> M (Outcome Response * gmap string Event))
    (db_ok : bool) (eventId : string) (db : gmap string Event)
  : M (Outcome Response * gmap string Event) :=
  if is_empty eventId then ret (Throws "invalid-argument" "Event ID is required", db)
  else if db_ok then tx eventId db
  else ret (Throws "internal" failed, db).

Definition reserveCapture := callable "Failed to reserve capture slot" reserveCapture_tx.
Definition reserveCaptureWithBuffer :=
  callable "Failed to reserve capture slot" reserveCaptureWithBuffer_tx.
Definition confirmCapture := callable "Failed to confirm capture" confirmCapture_tx.

(** *** generateAlbumZip.ts *)

Module GenerateAlbumZip.

(** A document of the subcollection [events/<id>/captures]. *)
Record Capture : Type := mkCapture {
  captureNumber : Z;
  storagePath : option string;
  uploadedToCloud : bool
}.

(** The object [zips/<id>/album.zip] of the bucket: the [timeCreated] of its
    metadata and the capture numbers of the photos it holds. *)
Record ZipObject : Type := mkZip {
  timeCreated : option Z;
  entries : list Z
}.

(** Firestore and the storage bucket: [files] are the paths of the stored
    photos, [zips] maps an event id to its archive. *)
Record Backend : Type := mkBackend {
  events : gmap string Event;
  captures : gmap string (list Capture);
  files : gset string;
  zips : gmap string ZipObject
}.

(** [zipFile.getSignedUrl({ action: 'read', expires })] *)
Record SignedUrl : Type := mkSignedUrl {
  archive_of : string;
  expires : Z
}.

Inductive Message : Type :=
| UsingCachedZip
| ZipCreatedWith (photoCount : nat).

(** [GenerateZipResponse] *)
Record Response : Type := mkResponse {
  success : bool;
  downloadUrl : option SignedUrl;
  expiresAt : option Z;
  message : Message
}.

Definition by_captureNumber (a b : Capture) : Prop :=
  captureNumber a <= captureNumber b.

#[global] Instance by_captureNumber_dec a b : Decision (by_captureNumber a b).
Proof. unfold by_captureNumber. apply _. Defined.

(** [collection('captures').where('uploadedToCloud', '==', true)
      .orderBy('captureNumber', 'asc').get()] *)
Definition cloud_captures (eventId : string) (tbl : gmap string (list Capture))
  : list Capture :=
  merge_sort by_captureNumber
    (filter (fun c => Is_true (uploadedToCloud c)) (default [] (tbl !! eventId))).

(** The [for] loop over the snapshot: the entries appended to the archive. *)
Definition add_photos (cs : list Capture) (bucket : gset string) : list Z :=
  omap (fun c =>
          match storagePath c with
          | Some path =>
            if bool_decide (path ∈ bucket) then Some (captureNumber c) else None
          | None => None
          end) cs.

(** The signed link and the response that both exits of the function build:
    [Date.now() + 24h] twice, each with its own reading of the clock. *)
Definition signed_response (eventId : string) (msg : Message) : M Response :=
  signedAt <- new_Date ;;
  stampedAt <- new_Date ;;
  ret (mkResponse true (Some (mkSignedUrl eventId (signedAt + 24 * 60 * 60 * 1000)))
         (Some (stampedAt + 24 * 60 * 60 * 1000)) msg).

(** Lines 124-212: build the archive, store it, sign a link.  The archive is
    stored at the instant the upload finishes, which is a reading of the
    clock. *)
Definition build_zip (eventId : string) (st : Backend)
  : M (Outcome Response * Backend) :=
  let capturesSnapshot := cloud_captures eventId (captures st) in
  if bool_decide (capturesSnapshot = []) then
    ret (Throws "not-found" "No photos found in cloud album", st)
  else
    let added := add_photos capturesSnapshot (files st) in
    let photoCount := length added in
    if bool_decide (photoCount = 0%nat) then
      ret (Throws "not-found" "No accessible photos found", st)
    else
      finished <- new_Date ;;
      let st' :=
        mkBackend (events st) (captures st) (files st)
          (<[eventId := mkZip (Some finished) added]> (zips st)) in
      r <- signed_response eventId (ZipCreatedWith photoCount) ;;
      ret (Returns r, st').

(** [ageHours < 24], where [ageHours] is the age in milliseconds divided by
    [1000 * 60 * 60]: the quotient is below 24 exactly when the age is below
    24 hours of milliseconds. *)
Definition is_recent (now createdAt : Z) : bool :=
  now - createdAt <? 24 * ms_per_hour.

Definition generateAlbumZip (eventId token : string) (st : Backend)
  : M (Outcome Response * Backend) :=
  if is_empty eventId || is_empty token then
    ret (Throws "invalid-argument" "Event ID and gallery token are required", st)
  else
    match events st !! eventId with
    | None => ret (Throws "not-found" "Event not found", st)
    | Some event =>
      if negb (bool_decide (galleryToken event = token)) then
        ret (Throws "permission-denied" "Invalid gallery token", st)
      else if negb (hasCloudAlbum event) then
        ret (Throws "failed-precondition"
               "This event does not have cloud album feature", st)
      else if status_eqb (status event) cleaned then
        ret (Throws "failed-precondition" "Gallery has been cleaned up", st)
      else
        now <- new_Date ;;
        galleryExpiresAt <-
          match galleryExpiresAt event with
          | Some t => ret t
          | None => new_Date
          end ;;
        if galleryExpiresAt <? now then
          ret (Throws "failed-precondition" "Gallery has expired", st)
        else
          match zips st !! eventId with
          | Some zipFile =>
            createdAt <-
              match timeCreated zipFile with
              | Some t => ret t
              | None => new_Date
              end ;;
            if is_recent now createdAt then
              r <- signed_response eventId UsingCachedZip ;;
              ret (Returns r, st)
            else build_zip eventId st
          | None => build_zip eventId st
          end
    end.

End GenerateAlbumZip.

End Firebase.

(** ** Web runtime *)

Module Web.

(** *** hooks/useGallery.ts *)

(** A JavaScript number that holds an index: an integer, or [NaN]. *)
Inductive Index : Type :=
| Idx (i : Z)
| NaN.

(** [a % b] on integers: the remainder has the sign of the dividend, and the
    remainder by zero is [NaN]. *)
Definition js_rem (a b : Z) : Index :=
  if b =? 0 then NaN else Idx (Z.rem a b).

(** The state of [useGallery]: [selectedImage: number | null]. *)
Definition selectImage (index : Z) (prev : option Index) : option Index :=
  Some (Idx index).

Definition closeImage (prev : option Index) : option Index := None.

Definition nextImage (totalImages : Z) (prev : option Index) : option Index :=
  match prev with
  | None => None
  | Some (Idx prev) => Some (js_rem (prev + 1) totalImages)
  | Some NaN => Some NaN
  end.

Definition prevImage (totalImages : Z) (prev : option Index) : option Index :=
  match prev with
  | None => None
  | Some (Idx prev) => Some (Idx (if prev =? 0 then totalImages - 1 else prev - 1))
  | Some NaN => Some NaN
  end.

Inductive Key : Type :=
| Escape | ArrowRight | ArrowLeft | OtherKey.

(** [handleKeyDown] *)
Definition handleKeyDown (totalImages : Z) (key : Key)
    (selectedImage : option Index) : option Index :=
  match selectedImage with
  | None => selectedImage
  | Some _ =>
    match key with
    | Escape => closeImage selectedImage
    | ArrowRight => nextImage totalImages selectedImage
    | ArrowLeft => prevImage totalImages selectedImage
    | OtherKey => selectedImage
    end
  end.

(** [captures[gallery.selectedImage]], what the lightbox shows. *)
Definition shown {A} (captures : list A) (selectedImage : option Index) : option A :=
  match selectedImage with
  | Some (Idx i) => if i <? 0 then None else captures !! Z.to_nat i
  | _ => None
  end.

(** *** services/supabaseService.ts *)

(** [Event] of shared/types as the pages use it. *)
Record Event : Type := mkEvent {
  id : string;
  name : string;
  photoLimit : Z;
  hasCloudAlbum : bool;
  startDate : Z;
  endDate : Z;
  status : EventStatus;
  captureCount : Z;
  reservedCount : Z;
  galleryToken : string;
  galleryExpiresAt : option Z
}.

Definition mapEventFromDB (row_id : string) (row : Supabase.Event) : Event :=
  {| id := row_id;
     name := Supabase.name row;
     photoLimit := Supabase.photo_limit row;
     hasCloudAlbum := Supabase.has_cloud_album row;
     startDate := Supabase.start_date row;
     endDate := Supabase.end_date row;
     status := Supabase.status row;
     captureCount := Supabase.capture_count row;
     reservedCount := Supabase.reserved_count row;
     galleryToken := Supabase.gallery_token row;
     galleryExpiresAt := Supabase.gallery_expires_at row |}.

(** The policy of the schema under which the pages read the [events] table
    with the anon key: [USING (status IN ('active', 'expired'))]. *)
Definition publicly_readable (row : Supabase.Event) : bool :=
  status_eqb (Supabase.status row) active || status_eqb (Supabase.status row) expired.

(** [getEventById]: [select('*').eq('id', eventId).single()] through that
    policy; null when the request fails or shows no row. *)
Definition getEventById (ok : bool) (eventId : string)
    (tbl : gmap string Supabase.Event) : option Event :=
  if ok then
    match tbl !! eventId with
    | Some row =>
      if publicly_readable row then Some (mapEventFromDB eventId row) else None
    | None => None
    end
  else None.

(** [getEventCaptures]: the cloud captures of the event by capture number,
    through the policy that shows the captures of readable events. *)
Definition getEventCaptures (eventId : string) (st : Supabase.Backend)
  : list Supabase.Capture :=
  match Supabase.events st !! eventId with
  | Some row =>
    if publicly_readable row
    then Supabase.GenerateAlbumZip.cloud_captures eventId (Supabase.captures st)
    else []
  | None => []
  end.

(** The helpers, which services/firebaseService.ts has word for word; [now]
    is the [new Date()] each of them takes. *)
Definition isEventActive (now : Z) (event : Event) : bool :=
  status_eqb (status event) active
  && (startDate event <=? now)
  && (now <=? endDate event).

Definition hasReachedLimit (event : Event) : bool :=
  photoLimit event <=? captureCount event.




(** [supabase.functions.invoke]: the body of a 2xx response, an error for any
    other status. *)
Definition invoke {A} (http_status : Z) (data : A) : option A :=
  if (200 <=? http_status) && (http_status <? 300) then Some data else None.

(** *** pages/CameraPage.tsx *)



(** [disabled] on the capture button. *)
Definition capture_disabled (now : Z) (event : option Event)
    (isStreaming capturing : bool) : bool :=
  match event with
  | None => true
  | Some e =>
    capturing || negb isStreaming || negb (isEventActive now e) || hasReachedLimit e
  end.

(** The camera page takes its event and its reservation from
    services/firebaseService.ts.

    [{ id: eventDoc.id, ...eventDoc.data() }], the event as [getEventBySlug]
    of that service returns it. *)
Definition eventFromDoc (doc_id : string) (doc : Firebase.Event) : Event :=
  {| id := doc_id;
     name := Firebase.name doc;
     photoLimit := Firebase.photoLimit doc;
     hasCloudAlbum := Firebase.hasCloudAlbum doc;
     startDate := Firebase.startDate doc;
     endDate := Firebase.endDate doc;
     status := Firebase.status doc;
     captureCount := Firebase.captureCount doc;
     reservedCount := Firebase.reservedCount doc;
     galleryToken := Firebase.galleryToken doc;
     galleryExpiresAt := Firebase.galleryExpiresAt doc |}.

(** JavaScript [s || d] on a string. *)
Definition str_or (s d : string) : string := if is_empty s then d else s.

(** [reserveCapture] of the service: the data of the callable's result, or
    the [Error] it throws with the message of what the callable threw. *)
Definition reserveCapture (outcome : Firebase.Outcome Firebase.Response)
  : string + Firebase.Response :=
  match outcome with
  | Firebase.Returns data => inr data
  | Firebase.Throws _ message => inl (str_or message "Failed to reserve capture slot")
  end.

(** Whether [handleCapture] called [uploadPhoto], under which capture number,
    and whether the call went through. *)
Inductive Upload : Type :=
| NotAttempted
| Uploaded (captureNumber : Z)
| UploadFailed (captureNumber : Z).

(** The state of the page when [handleCapture] is done: the error it shows,
    what became of the upload, and its event. *)
Record AfterCapture : Type := mkAfterCapture {
  error_shown : option string;
  upload : Upload;
  event_kept : Event
}.

(** [setEvent(prev => ({ ...prev, captureCount, status }))] *)
Definition setEvent (info : EventInfo) (event : Event) : Event :=
  {| id := id event; name := name event; photoLimit := photoLimit event;
     hasCloudAlbum := hasCloudAlbum event; startDate := startDate event;
     endDate := endDate event; status := status_ info;
     captureCount := captureCount_ info;
     reservedCount := reservedCount event;
     galleryToken := galleryToken event;
     galleryExpiresAt := galleryExpiresAt event |}.

(** [handleCapture] from the reservation on (App.tsx, lines 156-189), inside
    its [try]: an error thrown anywhere skips what follows and is shown by
    the [catch] ([err.message || 'Error al capturar la foto']).
    [upload_error] is the message of the error [uploadPhoto] throws, [None]
    when it does not throw. *)
Definition after_reservation (outcome : Firebase.Outcome Firebase.Response)
    (upload_error : option string) (event : Event) : AfterCapture :=
  let caught (message : string) (u : Upload) :=
    mkAfterCapture (Some (str_or message "Error al capturar la foto")) u event in
  match reserveCapture outcome with
  | inl message => caught message NotAttempted
  | inr reservation =>
    if negb (Firebase.success reservation) then
      caught (match Firebase.message reservation with
              | Some m => str_or m "No se pudo reservar el espacio"
              | None => "No se pudo reservar el espacio"
              end) NotAttempted
    else
      let updated :=
        match Firebase.event reservation with
        | Some info => setEvent info event
        | None => event
        end in
      match Firebase.captureNumber reservation with
      | Some n =>
        if hasCloudAlbum event && negb (n =? 0) then
          match upload_error with
          | Some message => caught message (UploadFailed n)
          | None => mkAfterCapture None (Uploaded n) updated
          end
        else mkAfterCapture None NotAttempted updated
      | None => mkAfterCapture None NotAttempted updated
      end
  end.

(** *** pages/GalleryPage.tsx *)

Inductive GalleryView : Type :=
| GalleryError (message : string)
| GalleryLoaded (event : Event) (captures : list Supabase.Capture).

(** [loadGallery]; the token of the route is used as the event id. *)
Definition loadGallery (ok : bool) (now : Z) (token : string) (st : Supabase.Backend)
  : GalleryView :=
  if is_empty token then GalleryError "Token inválido"
  else
    match getEventById ok token (Supabase.events st) with
    | None => GalleryError "Galería no encontrada"
    | Some eventData =>
      if status_eqb (status eventData) cleaned then
        GalleryError "Esta galería ha sido archivada"
      else if match galleryExpiresAt eventData with
              | Some t => t <? now
              | None => false
              end then
        GalleryError "Esta galería ha expirado"
      else GalleryLoaded eventData (getEventCaptures (id eventData) st)
    end.

(** [handleDownloadZip]: the request it sends for the event of the page, and
    the link it opens or the message of the error it shows. *)
Definition handleDownloadZip (now : Z) (event : Event) (st : Supabase.Backend)
  : (Supabase.GenerateAlbumZip.Message + Supabase.GenerateAlbumZip.SignedUrl)
    * Supabase.Backend :=
  let '(response, st') :=
    Supabase.GenerateAlbumZip.generate_album_zip now (id event) (galleryToken event)
      st in
  match invoke (Supabase.GenerateAlbumZip.http_status response) response with
  | None =>
    (inl (Supabase.GenerateAlbumZip.Text
            "Edge Function returned a non-2xx status code"), st')
  | Some result =>
    match Supabase.GenerateAlbumZip.downloadUrl result with
    | Some url =>
      if Supabase.GenerateAlbumZip.success result then (inr url, st')
      else (inl (Supabase.GenerateAlbumZip.message result), st')
    | None => (inl (Supabase.GenerateAlbumZip.message result), st')
    end
  end.

End Web.

(** ** Firebase scheduled cleanup (autoCleanup.ts) *)

Module FirebaseCleanup.
Import Firebase.

(** A document of [cleanup_errors]. *)
Record CleanupError : Type := mkCleanupError {
  error_eventId : string;
  error_eventName : string;
  error_timestamp : Z
}.

(** The summary [autoCleanup] returns and stores in [cleanup_logs]. *)
Record Summary : Type := mkSummary {
  timestamp : Z;
  eventsProcessed : nat;
  eventsCleanedSuccess : nat;
  eventsCleanedFailed : nat;
  totalPhotosDeleted : nat;
  totalZipsDeleted : nat
}.

(** Firestore and the bucket, with the two collections the job writes its
    records to.  The [id] field of an event document is its document id. *)
Record Backend : Type := mkBackend {
  store : GenerateAlbumZip.Backend;
  cleanup_errors : list CleanupError;
  cleanup_logs : list Summary
}.

(** [`events/${event.id}/`] *)
Definition photosPath (eventId : string) : string :=
  String.append "events/" (String.append eventId "/").

(** [bucket.getFiles({ prefix })] *)
Definition getFiles (prefix : string) (bucket : gset string) : gset string :=
  filter (fun f => Is_true (String.prefix prefix f)) bucket.

(** [update({ status: 'cleaned', updatedAt: now })] *)
Definition mark_cleaned (now : Z) (e : Event) : Event :=
  apply_update (mkUpdateData None None None (Some now) (Some cleaned) None) e.

(** The loop that queues the capture documents for deletion in one
    [WriteBatch], committing it when 500 are queued.  The state is the number
    queued since the last commit, whether the batch has been committed, and
    how many documents the commits have deleted.  A batch that has been
    committed accepts no further operation: [batch.delete] throws, which is
    the [true] of the result. *)
Fixpoint queue_deletes (docs : list GenerateAlbumZip.Capture) (batchCount : nat)
    (committed : bool) (deleted : nat) : bool * nat * nat :=
  match docs with
  | [] => (false, batchCount, deleted)
  | _ :: rest =>
    if committed then (true, batchCount, deleted)
    else
      let batchCount := S batchCount in
      if (500 <=? batchCount)%nat
      then queue_deletes rest 0 true (deleted + batchCount)
      else queue_deletes rest batchCount false deleted
  end.

(** The deletion of the subcollection: what is left of it, and whether it
    threw.  A commit deletes the documents queued, which are the first ones
    of the snapshot still there. *)
Definition delete_captures (docs : list GenerateAlbumZip.Capture)
  : list GenerateAlbumZip.Capture * bool :=
  let '(threw, batchCount, deleted) := queue_deletes docs 0 false 0 in
  if threw then (drop deleted docs, true)
  else if (0 <? batchCount)%nat then (drop (deleted + batchCount) docs, false)
  else (drop deleted docs, false).

(** The body of the loop of [autoCleanup] for one expired document. *)
Definition clean_event (now : Z) (acc : Backend * Summary)
    (doc : string * Event) : M (Backend * Summary) :=
  let '(st, s) := acc in
  let '(eventId, event) := doc in
  let s :=
    mkSummary (timestamp s) (S (eventsProcessed s)) (eventsCleanedSuccess s)
      (eventsCleanedFailed s) (totalPhotosDeleted s) (totalZipsDeleted s) in
  due <- shouldCleanGallery event ;;
  if negb due then ret (st, s)
  else
    let files := getFiles (photosPath eventId) (GenerateAlbumZip.files (store st)) in
    let photosDeleted := size files in
    let zipExists := bool_decide (is_Some (GenerateAlbumZip.zips (store st) !! eventId)) in
    let '(captures_left, threw) :=
      delete_captures (default [] (GenerateAlbumZip.captures (store st) !! eventId)) in
    let store' :=
      GenerateAlbumZip.mkBackend
        (alter (mark_cleaned now) eventId (GenerateAlbumZip.events (store st)))
        (alter (fun _ => captures_left) eventId (GenerateAlbumZip.captures (store st)))
        (GenerateAlbumZip.files (store st) ∖ files)
        (delete eventId (GenerateAlbumZip.zips (store st))) in
    let s :=
      mkSummary (timestamp s) (eventsProcessed s)
        (if threw then eventsCleanedSuccess s else S (eventsCleanedSuccess s))
        (if threw then S (eventsCleanedFailed s) else eventsCleanedFailed s)
        (totalPhotosDeleted s + photosDeleted)
        (if zipExists then S (totalZipsDeleted s) else totalZipsDeleted s) in
    ret (mkBackend store'
           (if threw
            then cleanup_errors st ++ [mkCleanupError eventId (name event) now]
            else cleanup_errors st)
           (cleanup_logs st), s).

Fixpoint for_each (now : Z) (docs : list (string * Event)) (acc : Backend * Summary)
  : M (Backend * Summary) :=
  match docs with
  | [] => ret acc
  | doc :: rest => acc' <- clean_event now acc doc ;; for_each now rest acc'
  end.

(** [collection('events').where('status', '==', 'expired').get()] *)
Definition expired_events (tbl : gmap string Event) : list (string * Event) :=
  filter (fun doc => status doc.2 = expired) (map_to_list tbl).

(** [autoCleanup], the scheduled job. *)
Definition autoCleanup (st : Backend) : M (Summary * Backend) :=
  now <- new_Date ;;
  let docs := expired_events (GenerateAlbumZip.events (store st)) in
  r <- for_each now docs (st, mkSummary now 0 0 0 0 0) ;;
  let '(st', summary) := r in
  ret (summary, mkBackend (store st') (cleanup_errors st') (cleanup_logs st' ++ [summary])).

(** The answer of [manualCleanup]. *)
Record Cleaned : Type := mkCleaned {
  cleaned_eventId : string;
  photosDeleted : nat
}.

(** [manualCleanup].  [admin] tells whether the caller is authenticated with
    the admin claim, [commit_ok] whether Firestore carries out the commit of
    the batch that deletes the capture documents. *)
Definition manualCleanup (admin commit_ok : bool) (eventId : string) (st : Backend)
  : M (Outcome Cleaned * Backend) :=
  if negb admin then
    ret (Throws "permission-denied" "Only admins can manually trigger cleanup", st)
  else if is_empty eventId then
    ret (Throws "invalid-argument" "Event ID is required", st)
  else
    now <- new_Date ;;
    match GenerateAlbumZip.events (store st) !! eventId with
    | None => ret (Throws "not-found" "Event not found", st)
    | Some event =>
      let files := getFiles (photosPath eventId) (GenerateAlbumZip.files (store st)) in
      let cleaned_store (captures : gmap string (list GenerateAlbumZip.Capture)) :=
        GenerateAlbumZip.mkBackend
          (alter (mark_cleaned now) eventId (GenerateAlbumZip.events (store st)))
          captures
          (GenerateAlbumZip.files (store st) ∖ files)
          (delete eventId (GenerateAlbumZip.zips (store st))) in
      if commit_ok then
        ret (Returns (mkCleaned eventId (size files)),
             mkBackend
               (cleaned_store
                  (alter (fun _ => []) eventId (GenerateAlbumZip.captures (store st))))
               (cleanup_errors st) (cleanup_logs st))
      else
        ret (Throws "internal" "Failed to clean event",
             mkBackend (cleaned_store (GenerateAlbumZip.captures (store st)))
               (cleanup_errors st) (cleanup_logs st))
    end.

End FirebaseCleanup.

(** * Properties *)

(** ** Vocabulary of the statements *)

(** The five preconditions of a reservation, on the row the edge function
    fetched, at the instant [now] of the invocation. *)
Definition supabase_passes (now : Z) (e : Supabase.Event) : Prop :=
  Supabase.status e = active
  ∧ Supabase.start_date e <= now
  ∧ now <= Supabase.end_date e
  ∧ Supabase.capture_count e < Supabase.photo_limit e.

(** The preconditions [validateCapture] checks on a document, when the clock
    reads [now]: the five of the reservation, and a free slot once the
    reserved ones are counted. *)
Definition firebase_passes (now : Z) (e : Firebase.Event) : Prop :=
  Firebase.status e = active
  ∧ Firebase.startDate e <= now
  ∧ now <= Firebase.endDate e
  ∧ Firebase.captureCount e < Firebase.photoLimit e
  ∧ Firebase.captureCount e + num_or (Firebase.reservedCount e) 0
    < Firebase.photoLimit e.

(** *** The order of the checks, as the specification words it *)

(** The five results of a reservation that do not succeed. *)
Inductive Refusal : Type :=
| NotFound | NotActive | NotStarted | Ended | LimitReached.

(** The first check that fails, the checks being taken in the order: the
    event exists, its status is active, now >= start date, now <= end date,
    capture count < photo limit.  [None] when all five hold. *)
Definition first_refusal (now : Z) (fetched : option Supabase.Event)
  : option Refusal :=
  match fetched with
  | None => Some NotFound
  | Some e =>
    if negb (status_eqb (Supabase.status e) active) then Some NotActive
    else if negb (Supabase.start_date e <=? now) then Some NotStarted
    else if negb (now <=? Supabase.end_date e) then Some Ended
    else if negb (Supabase.capture_count e <? Supabase.photo_limit e)
    then Some LimitReached
    else None
  end.

(** The message by which the edge function reports each of them. *)
Definition refusal_message (why : Refusal) : string :=
  match why with
  | NotFound => "Event not found"
  | NotActive => "Event is not active"
  | NotStarted => "Event has not started yet"
  | Ended => "Event has ended"
  | LimitReached => "Photo limit reached"
  end.

(** The checks of [validateCapture] on a document that is not a draft, in
    their order, with the reason each gives when it is the first to fail. *)
Definition firebase_first_refusal (now : Z) (e : Firebase.Event) : option string :=
  if status_eqb (Firebase.status e) cleaned then Some "Event has been cleaned up"
  else if status_eqb (Firebase.status e) expired then Some "Event has expired"
  else if negb (Firebase.startDate e <=? now) then Some "Event has not started yet"
  else if negb (now <=? Firebase.endDate e) then Some "Event has ended"
  else if negb (Firebase.captureCount e <? Firebase.photoLimit e)
  then Some "Photo limit reached"
  else if negb (Firebase.captureCount e + Firebase.reservedCount e
                <? Firebase.photoLimit e)
  then Some "No available slots (some are reserved)"
  else None.

(** A draft whose window is open at 5000. *)
Definition sample_draft : Firebase.Event :=
  Firebase.mkEvent "Boda" 10 false 1000 9000 draft 0 0 "tok" None None 0.

(** *** The slot invariant *)

(** capture count + reserved count <= photo limit *)
Definition supabase_within_limit (e : Supabase.Event) : Prop :=
  Supabase.capture_count e + Supabase.reserved_count e <= Supabase.photo_limit e.

Definition firebase_within_limit (e : Firebase.Event) : Prop :=
  Firebase.captureCount e + Firebase.reservedCount e <= Firebase.photoLimit e.

(** An expired event whose ten photos are taken and none reserved. *)
Definition sample_full_doc : Firebase.Event :=
  Firebase.mkEvent "Boda" 10 false 1000 9000 expired 10 0 "tok" (Some 99000) None 0.

Definition sample_full_collection : gmap string Firebase.Event :=
  {[ "ev1" := sample_full_doc ]}.

(** An active event with eight captures and two reserved slots. *)
Definition sample_reserved_doc : Firebase.Event :=
  Firebase.mkEvent "Boda" 10 false 1000 9000 active 8 2 "tok" None None 0.

Definition sample_reserved_collection : gmap string Firebase.Event :=
  {[ "ev1" := sample_reserved_doc ]}.

(** *** What belongs to an event *)

(** Two states of the Supabase backend hold the same for the event [id]: its
    row, the photos in its folder, its archive and its capture rows. *)
Definition same_for (id : string) (st st' : Supabase.Backend) : Prop :=
  Supabase.events st' !! id = Supabase.events st !! id
  ∧ Supabase.photos st' !! id = Supabase.photos st !! id
  ∧ Supabase.zips st' !! id = Supabase.zips st !! id
  ∧ filter (fun c => Supabase.event_id c = id) (Supabase.captures st')
    = filter (fun c => Supabase.event_id c = id) (Supabase.captures st).

(** The events the cleanup is for: expired, with a gallery expiry strictly
    before now. *)
Definition cleanup_due (now : Z) (e : Supabase.Event) : Prop :=
  Supabase.status e = expired
  ∧ exists t, Supabase.gallery_expires_at e = Some t ∧ t < now.

(** A backend with three events: [old] expired with its gallery expiry (100)
    in the past, [fresh] expired with its gallery expiry (99000) ahead,
    [gone] already cleaned. *)
Definition sample_backend : Supabase.Backend :=
  Supabase.mkBackend
    {[ "old" := Supabase.mkEvent "A" 10 true 10 20 expired 10 0 "ta" (Some 100) None;
       "fresh" := Supabase.mkEvent "B" 10 true 10 20 expired 10 0 "tb" (Some 99000) None;
       "gone" := Supabase.mkEvent "C" 10 true 10 20 cleaned 10 0 "tc" (Some 50) None ]}
    [ Supabase.mkCapture "old" 1 (Some ("old", "1_15.jpg")) true;
      Supabase.mkCapture "fresh" 1 (Some ("fresh", "1_16.jpg")) true ]
    {[ "old" := [ "1_15.jpg" ]; "fresh" := [ "1_16.jpg" ] ]}
    {[ "old" := Supabase.mkZip 30 [1]; "fresh" := Supabase.mkZip 31 [1] ]}
    [].

(** *** Requests for the album archive *)

(** A request that passes the validation of the Supabase function at the
    instant [now]: both arguments given, the event found, the token its
    gallery token, the cloud album included in its plan, not cleaned, and the
    gallery not expired. *)
Definition supabase_zip_request_ok (now : Z) (eventId token : string)
    (st : Supabase.Backend) : Prop :=
  eventId <> EmptyString ∧ token <> EmptyString
  ∧ exists e,
      Supabase.events st !! eventId = Some e
      ∧ Supabase.gallery_token e = token
      ∧ Supabase.has_cloud_album e = true
      ∧ Supabase.status e <> cleaned
      ∧ forall t, Supabase.gallery_expires_at e = Some t -> now <= t.

(** The same for the Firebase function and the document [e] of the event;
    its "now" is the first reading of the clock, and an event without gallery
    expiry is given the next reading. *)
Definition firebase_zip_request_ok (c : Firebase.Clock) (eventId token : string)
    (st : Firebase.GenerateAlbumZip.Backend) (e : Firebase.Event) : Prop :=
  eventId <> EmptyString ∧ token <> EmptyString
  ∧ Firebase.GenerateAlbumZip.events st !! eventId = Some e
  ∧ Firebase.galleryToken e = token
  ∧ Firebase.hasCloudAlbum e = true
  ∧ Firebase.status e <> cleaned
  ∧ match Firebase.galleryExpiresAt e with
    | Some t => c 0%nat <= t
    | None => c 0%nat <= c 1%nat
    end.

(** The readings of the clock that are left once the Firebase function has
    validated the request. *)
Definition clock_after_validation (c : Firebase.Clock)
    (e : Firebase.Event) : Firebase.Clock :=
  match Firebase.galleryExpiresAt e with
  | Some _ => fun n => c (S n)
  | None => fun n => c (S (S n))
  end.

(** A Firebase backend whose event [ev1] has an archive stored at 4000,
    and the event itself with an open gallery. *)
Definition sample_album_event : Firebase.Event :=
  Firebase.mkEvent "Boda" 500 true 1000 9000 expired 3 0 "tok" (Some 900000000)
    None 0.

Definition sample_album_backend : Firebase.GenerateAlbumZip.Backend :=
  Firebase.GenerateAlbumZip.mkBackend
    {[ "ev1" := sample_album_event ]}
    {[ "ev1" := [ Firebase.GenerateAlbumZip.mkCapture 1 (Some "events/ev1/1.jpg") true ] ]}
    {[ "events/ev1/1.jpg" ]}
    {[ "ev1" := Firebase.GenerateAlbumZip.mkZip (Some 4000) [1] ]}.

(** The sample Supabase backend with no archive stored. *)
Definition sample_backend_without_zips : Supabase.Backend :=
  Supabase.mkBackend (Supabase.events sample_backend)
    (Supabase.captures sample_backend) (Supabase.photos sample_backend) ∅ [].

(** A clock that reads 100000000 first, more than a day after 4000. *)
Definition sample_late_clock : Firebase.Clock := fun n => 100000000 + Z.of_nat n.

(** An active row with nine captures and one reserved slot. *)
Definition sample_reserved_row : Supabase.Event :=
  Supabase.mkEvent "Boda" 10 false 1000 9000 active 9 1 "tok" None None.

Definition sample_reserved_table : gmap string Supabase.Event :=
  {[ "ev1" := sample_reserved_row ]}.

(** *** Vocabulary of the further properties *)

(** What no function of the backend writes in a row of [events]. *)
Definition same_settings (e e' : Supabase.Event) : Prop :=
  Supabase.name e' = Supabase.name e
  ∧ Supabase.photo_limit e' = Supabase.photo_limit e
  ∧ Supabase.has_cloud_album e' = Supabase.has_cloud_album e
  ∧ Supabase.start_date e' = Supabase.start_date e
  ∧ Supabase.end_date e' = Supabase.end_date e
  ∧ Supabase.gallery_token e' = Supabase.gallery_token e
  ∧ Supabase.reserved_count e' = Supabase.reserved_count e.

(** One invocation of [reserve-capture] after the other for the same event,
    at the instants [nows], each with all its requests carried out: the
    responses in order, and the table at the end. *)
Fixpoint reserve_each (nows : list Z) (eventId : string)
    (db : gmap string Supabase.Event)
  : list Supabase.ReserveCapture.Response * gmap string Supabase.Event :=
  match nows with
  | [] => ([], db)
  | now :: rest =>
    let '(r, db') :=
      Supabase.ReserveCapture.reserve_capture Supabase.ReserveCapture.reliable
        now eventId db in
    let '(rs, db'') := reserve_each rest eventId db' in
    (r :: rs, db'')
  end.

(** The capture number of a response, when it reports a success. *)
Definition issued (r : Supabase.ReserveCapture.Response) : option Z :=
  if Supabase.ReserveCapture.success (Supabase.ReserveCapture.body r)
  then Supabase.ReserveCapture.captureNumber (Supabase.ReserveCapture.body r)
  else None.

(** The three callables of reserveCapture.ts. *)
Inductive Callable : Type :=
| ReserveCapture | ReserveCaptureWithBuffer | ConfirmCapture.

Definition call (f : Callable)
  : bool -> string -> gmap string Firebase.Event
    -> Firebase.M (Firebase.Outcome Firebase.Response * gmap string Firebase.Event) :=
  match f with
  | ReserveCapture => Firebase.reserveCapture
  | ReserveCaptureWithBuffer => Firebase.reserveCaptureWithBuffer
  | ConfirmCapture => Firebase.confirmCapture
  end.

(** What no callable writes in a document of [events]. *)
Definition firebase_same_settings (e e' : Firebase.Event) : Prop :=
  Firebase.name e' = Firebase.name e
  ∧ Firebase.photoLimit e' = Firebase.photoLimit e
  ∧ Firebase.hasCloudAlbum e' = Firebase.hasCloudAlbum e
  ∧ Firebase.startDate e' = Firebase.startDate e
  ∧ Firebase.endDate e' = Firebase.endDate e
  ∧ Firebase.galleryToken e' = Firebase.galleryToken e.

(** The analytics of an event are in step with its counter: they are there,
    their total is the capture count, and the hour they hold is an hour of
    the day. *)
Definition analytics_in_step (count : Z) (a : option Analytics) : Prop :=
  exists x,
    a = Some x ∧ totalCaptures x = count
    ∧ forall h, peakHour x = Some h -> 0 <= h < 24.

(** An event of a new deployment: nothing captured, the analytics the
    schema gives a new row. *)
Definition sample_new_row : Supabase.Event :=
  Supabase.mkEvent "Boda" 10 false 1000 9000 active 0 0 "tok" None
    (Some (mkAnalytics 0 None None)).

Definition sample_new_doc : Firebase.Event :=
  Firebase.mkEvent "Boda" 10 false 1000 9000 active 0 0 "tok" None
    (Some (mkAnalytics 0 None None)) 0.

(** A collection with the sample draft. *)
Definition sample_draft_collection : gmap string Firebase.Event :=
  {[ "ev1" := sample_draft ]}.

(** An active event with three captures and two reserved slots of ten. *)
Definition sample_buffered_doc : Firebase.Event :=
  Firebase.mkEvent "Boda" 10 false 1000 9000 active 3 2 "tok" None None 0.

Definition sample_buffered_collection : gmap string Firebase.Event :=
  {[ "ev1" := sample_buffered_doc ]}.

(** What a cleanup leaves of a folder of the photos bucket: the objects that
    were not among the hundred the listing returned. *)
Definition left_in_folder (l : list string) : list string :=
  filter (fun f => f ∉ take 100 l) l.

(** The state of the lightbox is closed, or an index into [n] images. *)
Definition lightbox_ok (n : Z) (selectedImage : option Web.Index) : Prop :=
  match selectedImage with
  | None => True
  | Some (Web.Idx i) => 0 <= i < n
  | Some Web.NaN => False
  end.

(** The keys of a session, one after the other. *)
Definition press_all (totalImages : Z) (keys : list Web.Key)
    (selectedImage : option Web.Index) : option Web.Index :=
  foldl (fun s key => Web.handleKeyDown totalImages key s) selectedImage keys.

(** The gallery of the sample event [fresh], with no archive stored, and
    the event as the page holds it. *)
Definition sample_gallery_event : Web.Event :=
  Web.mkEvent "fresh" "B" 10 true 10 20 expired 10 0 "tb" (Some 99000).

(** [c'] is the clock [c] after some readings. *)
Definition later (c c' : Firebase.Clock) : Prop :=
  exists k, forall n, c' n = c (n + k)%nat.

(** [n] presses of a key in the lightbox. *)
Definition press (totalImages : Z) (key : Web.Key) (n : nat)
    (selectedImage : option Web.Index) : option Web.Index :=
  Nat.iter n (Web.handleKeyDown totalImages key) selectedImage.

(** *** Sample data *)

(** An active event of the free plan (ten photos) with nine captures taken,
    open from instant 1000 to instant 9000. *)
Definition sample_row : Supabase.Event :=
  Supabase.mkEvent "Boda" 10 false 1000 9000 active 9 0 "tok" None None.

Definition sample_table : gmap string Supabase.Event := {[ "ev1" := sample_row ]}.

Definition sample_doc : Firebase.Event :=
  Firebase.mkEvent "Boda" 10 false 1000 9000 active 9 0 "tok" None None 0.

Definition sample_collection : gmap string Firebase.Event := {[ "ev1" := sample_doc ]}.

(** A clock that reads 5000 first and advances by one between readings. *)
Definition sample_clock : Firebase.Clock := fun n => 5000 + Z.of_nat n.



(** An active event with three of its ten photos taken. *)
Definition sample_open_row : Supabase.Event :=
  Supabase.mkEvent "Boda" 10 false 1000 9000 active 3 0 "tok" None None.

Definition sample_open_table : gmap string Supabase.Event :=
  {[ "ev1" := sample_open_row ]}.

(** A Firebase store for the scheduled cleanup: the sample album event,
    expired with its gallery expiry at 100, its capture, photo and archive;
    and a clock that reads after that expiry. *)
Definition sample_due_event : Firebase.Event :=
  Firebase.mkEvent "Boda" 500 true 1000 9000 expired 3 0 "tok" (Some 100) None 0.

Definition sample_cleanup_backend : FirebaseCleanup.Backend :=
  FirebaseCleanup.mkBackend
    (Firebase.GenerateAlbumZip.mkBackend
       {[ "ev1" := sample_due_event; "ev2" := sample_doc ]}
       {[ "ev1" := [ Firebase.GenerateAlbumZip.mkCapture 1 (Some "events/ev1/1.jpg") true ];
          "ev2" := [ Firebase.GenerateAlbumZip.mkCapture 1 (Some "events/ev2/1.jpg") true ] ]}
       {[ "events/ev1/1.jpg"; "events/ev2/1.jpg" ]}
       {[ "ev1" := Firebase.GenerateAlbumZip.mkZip (Some 4000) [1] ]})
    [] [].

(** An event of which two capture rows carry the number 4, each with its
    photo in the bucket. *)
Definition sample_twice_backend : Supabase.Backend :=
  Supabase.mkBackend
    {[ "ev1" := Supabase.mkEvent "Boda" 500 true 1000 9000 active 4 0 "tok" None None ]}
    [ Supabase.mkCapture "ev1" 4 (Some ("ev1", "4_15.jpg")) true;
      Supabase.mkCapture "ev1" 4 (Some ("ev1", "4_16.jpg")) true ]
    {[ "ev1" := [ "4_15.jpg"; "4_16.jpg" ] ]}
    ∅ [].

(** An active event with the cloud album whose archive was stored at 1000,
    when capture 1 was its only photo; capture 2 has been uploaded since. *)
Definition sample_stale_backend : Supabase.Backend :=
  Supabase.mkBackend
    {[ "ev1" := Supabase.mkEvent "Boda" 500 true 1000 9000000000 active 2 0 "tok" None
                  None ]}
    [ Supabase.mkCapture "ev1" 1 (Some ("ev1", "1_15.jpg")) true;
      Supabase.mkCapture "ev1" 2 (Some ("ev1", "2_16.jpg")) true ]
    {[ "ev1" := [ "1_15.jpg"; "2_16.jpg" ] ]}
    {[ "ev1" := Supabase.mkZip 1000 [1] ]}
    [].

(** The sample document with the cloud album: nine of ten captures taken. *)
Definition sample_album_last_doc : Firebase.Event :=
  Firebase.mkEvent "Boda" 10 true 1000 9000 active 9 0 "tok" None None 0.

(** ** Basic facts *)

Lemma status_eqb_true a b : status_eqb a b = true <-> a = b.
Proof. unfold status_eqb. apply bool_decide_eq_true. Qed.

Lemma status_eqb_false a b : status_eqb a b = false <-> a <> b.
Proof. unfold status_eqb. apply bool_decide_eq_false. Qed.

Lemma status_eqb_refl a : status_eqb a a = true.
Proof. by apply status_eqb_true. Qed.

Lemma is_empty_false s : s <> EmptyString -> is_empty s = false.
Proof. intros H. unfold is_empty. by apply bool_decide_eq_false. Qed.

Lemma addDays_15 t : addDays t 15 = t + fifteen_days.
Proof. unfold addDays, fifteen_days, ms_per_day. lia. Qed.

Lemma num_or_0 x : num_or x 0 = x.
Proof. unfold num_or. destruct (Z.eqb_spec x 0); congruence. Qed.

(** ** Worked examples *)

(** The example of the specification: photo limit 10, capture count 9; the
    reservation succeeds with capture number 10, the response and the row
    say expired, the gallery expiry is now + 15 days. *)
Example last_slot_example :
  Supabase.ReserveCapture.reserve_capture Supabase.ReserveCapture.reliable 5000
    "ev1" sample_table
  = (Supabase.ReserveCapture.mkResponse 200
       (Supabase.ReserveCapture.mkBody true (Some 10) None
          (Some (mkEventInfo 10 10 expired))),
     {[ "ev1" :=
          Supabase.mkEvent "Boda" 10 false 1000 9000 expired 10 0 "tok"
            (Some 1296005000) (Some (mkAnalytics 1 (Some 0) (Some 5000))) ]}).
Proof. vm_compute. reflexivity. Qed.

(** Two invocations one after the other take the slots 4 and 5. *)
Example serial_reservations_example :
  let '(a, b, db') :=
    Supabase.ReserveCapture.run [true; true; false; false]
      (Supabase.ReserveCapture.Arrived Supabase.ReserveCapture.reliable 5000 "ev1")
      (Supabase.ReserveCapture.Arrived Supabase.ReserveCapture.reliable 5001 "ev1")
      sample_open_table in
  Supabase.capture_count <$> db' !! "ev1" = Some 5
  ∧ match a, b with
    | Supabase.ReserveCapture.Done rA, Supabase.ReserveCapture.Done rB =>
      Supabase.ReserveCapture.captureNumber (Supabase.ReserveCapture.body rA) = Some 4
      ∧ Supabase.ReserveCapture.captureNumber (Supabase.ReserveCapture.body rB) = Some 5
    | _, _ => False
    end.
Proof. vm_compute. repeat split; reflexivity. Qed.

(** A cleanup run at 5000 over the sample backend cleans the one event that
    is due, with its photo, its archive and its capture row. *)
Example cleanup_example :
  (Supabase.AutoCleanup.auto_cleanup 5000 sample_backend).1
  = Supabase.mkSummary 1 1 0 1 1
  ∧ Supabase.captures (Supabase.AutoCleanup.auto_cleanup 5000 sample_backend).2
    = [ Supabase.mkCapture "fresh" 1 (Some ("fresh", "1_16.jpg")) true ]
  ∧ Supabase.zips (Supabase.AutoCleanup.auto_cleanup 5000 sample_backend).2 !! "old"
    = None.
Proof. vm_compute. repeat split; reflexivity. Qed.

(** Without a stored archive the album of [fresh] is built from its one
    photo and stored. *)
Example build_archive_example :
  let out := Supabase.GenerateAlbumZip.generate_album_zip 5000 "fresh" "tb"
               sample_backend_without_zips in
  Supabase.GenerateAlbumZip.message out.1 = Supabase.GenerateAlbumZip.ZipCreatedWith 1
  ∧ Supabase.zips out.2 !! "fresh" = Some (Supabase.mkZip 5000 [1]).
Proof. vm_compute. split; reflexivity. Qed.

(** ** The Supabase reservation handler, one invocation at a time *)

Section SupabaseReserve.
Import Supabase Supabase.ReserveCapture.

Lemma check_phase_proceed net now id (db : gmap string Event) e :
  id <> EmptyString -> fetch_ok net = true -> db !! id = Some e ->
  supabase_passes now e ->
  check_phase net now id db = (Proceed e, db).
Proof.
  intros Hid Hnet Hdb (Hst & Hs & He & Hc).
  unfold check_phase, select_single.
  rewrite (is_empty_false _ Hid), Hnet, Hdb, Hst, status_eqb_refl. simpl.
  destruct (Z.ltb_spec now (start_date e)); [lia|].
  destruct (Z.ltb_spec (end_date e) now); [lia|].
  destruct (Z.leb_spec (photo_limit e) (capture_count e)); [lia|].
  reflexivity.
Qed.

(** The row a carried-out conditional update leaves behind when the counter
    still has the value that was fetched. *)
Lemma write_phase_carried_out net now id (db : gmap string Event) e :
  update_ok net = true -> db !! id = Some e ->
  exists r e',
    write_phase net now id e db = (r, <[id := e']> db)
    ∧ http_status r = 200
    ∧ success (body r) = true
    ∧ captureNumber (body r) = Some (capture_count e + 1)
    ∧ event (body r) = Some (info_of e')
    ∧ capture_count e' = capture_count e + 1
    ∧ photo_limit e' = photo_limit e
    ∧ reserved_count e' = reserved_count e
    ∧ (photo_limit e <= capture_count e + 1 ->
       status e' = expired ∧ gallery_expires_at e' = Some (now + fifteen_days))
    ∧ (capture_count e + 1 < photo_limit e ->
       status e' = status e ∧ gallery_expires_at e' = gallery_expires_at e).
Proof.
  intros Hnet Hdb.
  unfold write_phase, update_eq_id_capture_count. rewrite Hnet.
  destruct (Z.leb_spec (photo_limit e) (capture_count e + 1)) as [Hle|Hlt].
  - eexists _, _. split.
    + f_equal. apply map_eq. intros k. rewrite lookup_alter.
      destruct (decide (id = k)) as [<-|Hne].
      * rewrite Hdb, lookup_insert_eq. simpl. rewrite Z.eqb_refl. reflexivity.
      * by rewrite lookup_insert_ne.
    + simpl. repeat split; try reflexivity; lia.
  - eexists _, _. split.
    + f_equal. apply map_eq. intros k. rewrite lookup_alter.
      destruct (decide (id = k)) as [<-|Hne].
      * rewrite Hdb, lookup_insert_eq. simpl. rewrite Z.eqb_refl. reflexivity.
      * by rewrite lookup_insert_ne.
    + simpl. repeat split; try reflexivity; lia.
Qed.

End SupabaseReserve.

(** ** The Firebase callables, one transaction at a time *)

Section FirebaseReserve.
Import Firebase.

Lemma validateCapture_passes (c : Clock) e :
  firebase_passes (c 0%nat) e ->
  validateCapture (Some e) c
  = (mkValidation true None (Some (info_of e)), fun n => c (S n)).
Proof.
  intros (Hst & Hs & He & Hc & Hr).
  unfold validateCapture, isEventActive, bind, new_Date, ret.
  rewrite Hst. simpl.
  destruct (Z.leb_spec (startDate e) (c 0%nat)); [|lia].
  destruct (Z.leb_spec (c 0%nat) (endDate e)); [|lia].
  simpl. unfold hasReachedLimit, hasAvailableSlots.
  destruct (Z.leb_spec (photoLimit e) (captureCount e)); [lia|].
  destruct (Z.ltb_spec (captureCount e + num_or (reservedCount e) 0) (photoLimit e));
    [|lia].
  reflexivity.
Qed.

Lemma reserveCapture_carried_out (c : Clock) id (db : gmap string Event) e :
  id <> EmptyString -> db !! id = Some e -> firebase_passes (c 0%nat) e ->
  exists r e' c',
    reserveCapture true id db c = ((Returns r, <[id := e']> db), c')
    ∧ success r = true
    ∧ captureNumber r = Some (captureCount e + 1)
    ∧ event r = Some (info_of e')
    ∧ captureCount e' = captureCount e + 1
    ∧ reservedCount e' = reservedCount e
    ∧ photoLimit e' = photoLimit e
    ∧ (photoLimit e <= captureCount e + 1 ->
       status e' = expired
       ∧ galleryExpiresAt e' = Some (c 4%nat + fifteen_days))
    ∧ (captureCount e + 1 < photoLimit e -> c 3%nat <= endDate e ->
       status e' = status e ∧ galleryExpiresAt e' = galleryExpiresAt e).
Proof.
  intros Hid Hdb Hp.
  unfold reserveCapture, callable. rewrite (is_empty_false _ Hid).
  unfold reserveCapture_tx. rewrite Hdb.
  unfold bind at 1. rewrite (validateCapture_passes c e Hp). simpl.
  destruct Hp as (Hst & _).
  unfold bind, new_Date, ret, expire_if_due, shouldExpireEvent; simpl.
  rewrite Hst, status_eqb_refl; simpl.
  unfold bind, new_Date, ret, hasReachedLimit; simpl.
  destruct (Z.ltb_spec (endDate e) (c 3%nat)) as [Hend|Hend];
    destruct (Z.leb_spec (photoLimit e) (captureCount e + 1)) as [Hlim|Hlim];
    simpl; eexists _, _, _; (split; [reflexivity|]); simpl;
    repeat split; unfold info_of; simpl; rewrite ?addDays_15, ?Hst;
    try reflexivity; try lia.
Qed.

End FirebaseReserve.

(** ** Successful reservations *)

Section ReservationSuccess.

Lemma supabase_success_needs_requests net now id (db : gmap string Supabase.Event) e :
  id <> EmptyString -> db !! id = Some e -> supabase_passes now e ->
  Supabase.ReserveCapture.success
    (Supabase.ReserveCapture.body
       (Supabase.ReserveCapture.reserve_capture net now id db).1) = true ->
  Supabase.ReserveCapture.fetch_ok net = true
  ∧ Supabase.ReserveCapture.update_ok net = true.
Proof.
  intros Hid Hdb Hp.
  destruct net as [f x u]; simpl. destruct f.
  - unfold Supabase.ReserveCapture.reserve_capture.
    rewrite (check_phase_proceed (Supabase.ReserveCapture.mkNet true x u)
               now id db e Hid eq_refl Hdb Hp).
    destruct u; [tauto|].
    unfold Supabase.ReserveCapture.write_phase; simpl. discriminate.
  - unfold Supabase.ReserveCapture.reserve_capture,
      Supabase.ReserveCapture.check_phase, Supabase.ReserveCapture.select_single.
    rewrite (is_empty_false _ Hid). simpl. discriminate.
Qed.

(** C1. For every event that passes all reservation preconditions, a
    successful reservation increments the capture count by exactly one, the
    capture number it returns is the new capture count, and when the new
    count equals the photo limit the same update sets the status to expired
    and the gallery expiry to now + 15 days, the response reporting the
    resulting status.  The invocation is taken on its own, no other one
    writing the event between its fetch and its update.  First conjunct:
    the Supabase edge function, which succeeds whenever its requests are
    carried out.  Second conjunct: the Firebase callable, which succeeds
    whenever its transaction is carried out, and whose "now" is the clock's
    fifth reading of the call. *)
Theorem reservation_success :
  (forall net now id (db : gmap string Supabase.Event) e,
     id <> EmptyString -> db !! id = Some e -> supabase_passes now e ->
     let out := Supabase.ReserveCapture.reserve_capture net now id db in
     let answer := Supabase.ReserveCapture.body out.1 in
     (Supabase.ReserveCapture.fetch_ok net = true ->
      Supabase.ReserveCapture.update_ok net = true ->
      Supabase.ReserveCapture.success answer = true)
     ∧ (Supabase.ReserveCapture.success answer = true ->
        exists e',
          out.2 !! id = Some e'
          ∧ Supabase.capture_count e' = Supabase.capture_count e + 1
          ∧ Supabase.ReserveCapture.captureNumber answer
            = Some (Supabase.capture_count e')
          ∧ (Supabase.capture_count e' = Supabase.photo_limit e ->
             Supabase.status e' = expired
             ∧ Supabase.gallery_expires_at e' = Some (now + fifteen_days))
          ∧ status_ <$> Supabase.ReserveCapture.event answer
            = Some (Supabase.status e')))
  ∧ (forall db_ok (c : Firebase.Clock) id (db : gmap string Firebase.Event) e,
       id <> EmptyString -> db !! id = Some e -> firebase_passes (c 0%nat) e ->
       let out := (Firebase.reserveCapture db_ok id db c).1 in
       (db_ok = true -> exists r, out.1 = Firebase.Returns r)
       ∧ (forall r, out.1 = Firebase.Returns r ->
          Firebase.success r = true
          ∧ exists e',
              out.2 !! id = Some e'
              ∧ Firebase.captureCount e' = Firebase.captureCount e + 1
              ∧ Firebase.captureNumber r = Some (Firebase.captureCount e')
              ∧ (Firebase.captureCount e' = Firebase.photoLimit e ->
                 Firebase.status e' = expired
                 ∧ Firebase.galleryExpiresAt e' = Some (c 4%nat + fifteen_days))
              ∧ status_ <$> Firebase.event r = Some (Firebase.status e'))).
Proof.
  split.
  - intros net now id db e Hid Hdb Hp out answer.
    assert (Hok : Supabase.ReserveCapture.fetch_ok net = true ->
                  Supabase.ReserveCapture.update_ok net = true ->
                  Supabase.ReserveCapture.success answer = true
                  ∧ exists e',
                      out.2 !! id = Some e'
                      ∧ Supabase.capture_count e' = Supabase.capture_count e + 1
                      ∧ Supabase.ReserveCapture.captureNumber answer
                        = Some (Supabase.capture_count e')
                      ∧ (Supabase.capture_count e' = Supabase.photo_limit e ->
                         Supabase.status e' = expired
                         ∧ Supabase.gallery_expires_at e' = Some (now + fifteen_days))
                      ∧ status_ <$> Supabase.ReserveCapture.event answer
                        = Some (Supabase.status e')).
    { intros Hf Hu. subst answer out.
      unfold Supabase.ReserveCapture.reserve_capture.
      rewrite (check_phase_proceed net now id db e Hid Hf Hdb Hp).
      destruct (write_phase_carried_out net now id db e Hu Hdb)
        as (r & e' & -> & _ & Hs & Hn & Hev & Hc & _ & _ & Hexp & _).
      simpl. split; [exact Hs|]. exists e'.
      rewrite lookup_insert_eq, Hn, Hev, Hc. simpl.
      repeat split; try reflexivity; apply Hexp; lia. }
    split.
    + intros Hf Hu. apply (Hok Hf Hu).
    + intros Hs.
      destruct (supabase_success_needs_requests net now id db e Hid Hdb Hp Hs)
        as [Hf Hu].
      apply (Hok Hf Hu).
  - intros db_ok c id db e Hid Hdb Hp out.
    destruct db_ok.
    + destruct (reserveCapture_carried_out c id db e Hid Hdb Hp)
        as (r & e' & c' & Heq & Hs & Hn & Hev & Hc & _ & _ & Hexp & _).
      subst out. rewrite Heq. simpl. split; [eauto|].
      intros r0 [= <-]. split; [exact Hs|]. exists e'.
      rewrite lookup_insert_eq, Hn, Hev, Hc. simpl.
      repeat split; try reflexivity; apply Hexp; lia.
    + subst out. unfold Firebase.reserveCapture, Firebase.callable.
      rewrite (is_empty_false _ Hid). simpl.
      split; [discriminate|]. intros r [=].
Qed.

(** The two sample events hold nine of their ten photos and are open at the
    instant of the call. *)
Lemma reservation_success_witness :
  (exists e',
     (Supabase.ReserveCapture.reserve_capture Supabase.ReserveCapture.reliable
        5000 "ev1" sample_table).2 !! "ev1" = Some e'
     ∧ Supabase.capture_count e' = 10
     ∧ Supabase.status e' = expired
     ∧ Supabase.gallery_expires_at e' = Some (5000 + fifteen_days))
  ∧ (exists r, (Firebase.reserveCapture true "ev1" sample_collection sample_clock).1.1
               = Firebase.Returns r).
Proof.
  destruct reservation_success as [HS HF]. split.
  - assert (Hid : "ev1" <> EmptyString) by discriminate.
    assert (Hdb : sample_table !! "ev1" = Some sample_row) by (vm_compute; reflexivity).
    assert (Hp : supabase_passes 5000 sample_row)
      by (repeat split; vm_compute; congruence).
    destruct (HS Supabase.ReserveCapture.reliable 5000 "ev1" sample_table sample_row
                Hid Hdb Hp) as [Hsucc Hpost].
    destruct (Hpost (Hsucc eq_refl eq_refl)) as (e' & Hl & Hc & _ & Hexp & _).
    exists e'. simpl in Hc.
    destruct (Hexp Hc) as [Hst Hg]. repeat split; assumption.
  - assert (Hid : "ev1" <> EmptyString) by discriminate.
    assert (Hdb : sample_collection !! "ev1" = Some sample_doc)
      by (vm_compute; reflexivity).
    assert (Hp : firebase_passes (sample_clock 0%nat) sample_doc)
      by (repeat split; vm_compute; congruence).
    destruct (HF true sample_clock "ev1" sample_collection sample_doc Hid Hdb Hp)
      as [Hret _].
    exact (Hret eq_refl).
Defined.

End ReservationSuccess.

(** ** The order of the checks *)

Section CheckOrder.

Lemma refusal_message_inj a b : refusal_message a = refusal_message b -> a = b.
Proof. destruct a, b; simpl; intros H; try reflexivity; discriminate H. Qed.

Lemma supabase_refusal net now id (db : gmap string Supabase.Event) why :
  id <> EmptyString ->
  first_refusal now
    (Supabase.ReserveCapture.select_single
       (Supabase.ReserveCapture.fetch_ok net) id db) = Some why ->
  let r := (Supabase.ReserveCapture.reserve_capture net now id db).1 in
  Supabase.ReserveCapture.success (Supabase.ReserveCapture.body r) = false
  ∧ Supabase.ReserveCapture.message (Supabase.ReserveCapture.body r)
    = Some (refusal_message why).
Proof.
  intros Hid Hwhy.
  unfold Supabase.ReserveCapture.reserve_capture, Supabase.ReserveCapture.check_phase.
  rewrite (is_empty_false _ Hid).
  destruct (Supabase.ReserveCapture.select_single _ id db) as [e|]; simpl in Hwhy.
  - destruct (status_eqb (Supabase.status e) active); simpl in *;
      [|injection Hwhy as <-; split; reflexivity].
    rewrite Z.leb_antisym, negb_involutive in Hwhy.
    destruct (now <? Supabase.start_date e); simpl in *;
      [injection Hwhy as <-; split; reflexivity|].
    rewrite Z.leb_antisym, negb_involutive in Hwhy.
    destruct (Supabase.end_date e <? now); simpl in *.
    { injection Hwhy as <-.
      destruct (Supabase.ReserveCapture.update_eq_id _ _ id db). split; reflexivity. }
    rewrite Z.ltb_antisym, negb_involutive in Hwhy.
    destruct (Supabase.photo_limit e <=? Supabase.capture_count e); simpl in *;
      [injection Hwhy as <-; split; reflexivity|discriminate].
  - injection Hwhy as <-. split; reflexivity.
Qed.

Lemma supabase_no_refusal net now id (db : gmap string Supabase.Event) :
  id <> EmptyString ->
  first_refusal now
    (Supabase.ReserveCapture.select_single
       (Supabase.ReserveCapture.fetch_ok net) id db) = None ->
  exists e,
    db !! id = Some e ∧ supabase_passes now e
    ∧ Supabase.ReserveCapture.check_phase net now id db
      = (Supabase.ReserveCapture.Proceed e, db).
Proof.
  intros Hid Hnone.
  unfold Supabase.ReserveCapture.select_single in Hnone.
  destruct (Supabase.ReserveCapture.fetch_ok net) eqn:Hf; [|discriminate].
  destruct (db !! id) as [e|] eqn:Hdb; [|discriminate]. simpl in Hnone.
  destruct (status_eqb (Supabase.status e) active) eqn:Hst; [|discriminate].
  apply status_eqb_true in Hst. simpl in Hnone.
  destruct (Z.leb_spec (Supabase.start_date e) now); [|discriminate].
  destruct (Z.leb_spec now (Supabase.end_date e)); [|discriminate].
  destruct (Z.ltb_spec (Supabase.capture_count e) (Supabase.photo_limit e));
    [|discriminate].
  assert (Hp : supabase_passes now e) by (repeat split; assumption).
  exists e. repeat split; try assumption.
  apply check_phase_proceed; assumption.
Qed.

Lemma validateCapture_refusal (c : Firebase.Clock) e :
  Firebase.status e <> draft -> c 1%nat = c 0%nat ->
  let v := (Firebase.validateCapture (Some e) c).1 in
  Firebase.reason v = firebase_first_refusal (c 0%nat) e
  ∧ Firebase.canCapture v = bool_decide (firebase_first_refusal (c 0%nat) e = None).
Proof.
  intros Hnd Hc.
  unfold Firebase.validateCapture, firebase_first_refusal.
  destruct (Firebase.status e) eqn:Hst; try congruence; simpl.
  2,3: split; reflexivity.
  unfold Firebase.isEventActive, Firebase.bind, Firebase.new_Date, Firebase.ret.
  rewrite Hst; simpl.
  unfold Firebase.hasReachedLimit, Firebase.hasAvailableSlots. rewrite num_or_0.
  destruct (Z.leb_spec (Firebase.startDate e) (c 0%nat));
    destruct (Z.leb_spec (c 0%nat) (Firebase.endDate e)); simpl; rewrite ?Hc;
    try (destruct (Z.ltb_spec (c 0%nat) (Firebase.startDate e)); try lia;
         split; reflexivity).
  rewrite (Z.leb_antisym (Firebase.captureCount e) (Firebase.photoLimit e)).
  destruct (Firebase.captureCount e <? Firebase.photoLimit e); simpl;
    [|split; reflexivity].
  destruct (Firebase.captureCount e + Firebase.reservedCount e
            <? Firebase.photoLimit e); simpl; split; reflexivity.
Qed.

Lemma validateCapture_event (c : Firebase.Clock) e :
  Firebase.canCapture (Firebase.validateCapture (Some e) c).1 = false ->
  Firebase.v_event (Firebase.validateCapture (Some e) c).1
  = Some (Firebase.info_of e).
Proof.
  unfold Firebase.validateCapture, Firebase.isEventActive, Firebase.bind,
    Firebase.new_Date, Firebase.ret.
  repeat (match goal with
          | |- context [if ?b then _ else _] => destruct b
          end; simpl; try reflexivity; try discriminate).
Qed.

Lemma reserveCapture_rejected (c : Firebase.Clock) id (db : gmap string Firebase.Event) e :
  id <> EmptyString -> db !! id = Some e ->
  Firebase.canCapture (Firebase.validateCapture (Some e) c).1 = false ->
  (Firebase.reserveCapture true id db c).1
  = (Firebase.Returns
       (Firebase.rejected (Firebase.validateCapture (Some e) c).1), db).
Proof.
  intros Hid Hdb Hv.
  unfold Firebase.reserveCapture, Firebase.callable. rewrite (is_empty_false _ Hid).
  unfold Firebase.reserveCapture_tx. rewrite Hdb. unfold Firebase.bind at 1.
  destruct (Firebase.validateCapture (Some e) c) as [v c']. simpl in *.
  rewrite Hv. reflexivity.
Qed.

(** C3, as amended.  The Supabase edge function checks, in this order, that
    the event exists, that its status is active, that now >= start date,
    that now <= end date and that capture count < photo limit; the first
    check that fails decides the response, which is returned with
    [success = false] and a message of its own ('Event not found', 'Event is
    not active', 'Event has not started yet', 'Event has ended', 'Photo
    limit reached'), and when none fails the handler goes on to the
    increment.  The Firebase callable throws a not-found error for a missing
    event; for a document that is not a draft it returns the result of
    [validateCapture], whose checks are, in order and on one reading of the
    clock: not cleaned, not expired, now >= start date, now <= end date,
    capture count < photo limit, capture count + reserved count < photo
    limit. *)
Theorem check_order :
  (forall net now id (db : gmap string Supabase.Event),
     id <> EmptyString ->
     let fetched :=
       Supabase.ReserveCapture.select_single
         (Supabase.ReserveCapture.fetch_ok net) id db in
     let r := (Supabase.ReserveCapture.reserve_capture net now id db).1 in
     match first_refusal now fetched with
     | Some why =>
       Supabase.ReserveCapture.success (Supabase.ReserveCapture.body r) = false
       ∧ Supabase.ReserveCapture.message (Supabase.ReserveCapture.body r)
         = Some (refusal_message why)
     | None =>
       exists e,
         db !! id = Some e ∧ supabase_passes now e
         ∧ Supabase.ReserveCapture.check_phase net now id db
           = (Supabase.ReserveCapture.Proceed e, db)
     end)
  ∧ (forall a b, refusal_message a = refusal_message b -> a = b)
  ∧ (forall (c : Firebase.Clock) id (db : gmap string Firebase.Event),
       id <> EmptyString -> db !! id = None ->
       (Firebase.reserveCapture true id db c).1
       = (Firebase.Throws "not-found" "Event not found", db))
  ∧ (forall (c : Firebase.Clock) id (db : gmap string Firebase.Event) e,
       id <> EmptyString -> db !! id = Some e ->
       Firebase.status e <> draft -> c 1%nat = c 0%nat ->
       match firebase_first_refusal (c 0%nat) e with
       | Some why =>
         (Firebase.reserveCapture true id db c).1
         = (Firebase.Returns
              (Firebase.mkResponse false None (Some why)
                 (Some (Firebase.info_of e))), db)
       | None => firebase_passes (c 0%nat) e
       end).
Proof.
  repeat split.
  - intros net now id db Hid fetched r.
    destruct (first_refusal now fetched) as [why|] eqn:Hw.
    + apply (supabase_refusal net now id db why Hid Hw).
    + apply (supabase_no_refusal net now id db Hid Hw).
  - apply refusal_message_inj.
  - intros c id db Hid Hdb.
    unfold Firebase.reserveCapture, Firebase.callable. rewrite (is_empty_false _ Hid).
    unfold Firebase.reserveCapture_tx. rewrite Hdb. reflexivity.
  - intros c id db e Hid Hdb Hnd Hc.
    destruct (validateCapture_refusal c e Hnd Hc) as [Hr Hcan].
    destruct (firebase_first_refusal (c 0%nat) e) as [why|] eqn:Hw.
    + rewrite bool_decide_eq_false_2 in Hcan by discriminate.
      rewrite (reserveCapture_rejected c id db e Hid Hdb Hcan).
      unfold Firebase.rejected.
      rewrite Hr, (validateCapture_event c e Hcan). reflexivity.
    + unfold firebase_first_refusal in Hw.
      destruct (Firebase.status e) eqn:Hst; try congruence; simpl in Hw;
        try discriminate.
      destruct (Z.leb_spec (Firebase.startDate e) (c 0%nat)); [|discriminate].
      destruct (Z.leb_spec (c 0%nat) (Firebase.endDate e)); [|discriminate].
      destruct (Z.ltb_spec (Firebase.captureCount e) (Firebase.photoLimit e));
        [|discriminate].
      destruct (Z.ltb_spec (Firebase.captureCount e + Firebase.reservedCount e)
                  (Firebase.photoLimit e)); [|discriminate].
      unfold firebase_passes. rewrite num_or_0, Hst. repeat split; assumption.
Qed.

(** The sample row at instant 500, before its window opens, and the sample
    document under a clock that stands at 500. *)
Lemma check_order_witness :
  Supabase.ReserveCapture.message
    (Supabase.ReserveCapture.body
       (Supabase.ReserveCapture.reserve_capture Supabase.ReserveCapture.reliable
          500 "ev1" sample_table).1) = Some "Event has not started yet"
  ∧ (Firebase.reserveCapture true "ev2" sample_collection sample_clock).1
    = (Firebase.Throws "not-found" "Event not found", sample_collection)
  ∧ (Firebase.reserveCapture true "ev1" sample_collection (fun _ => 500)).1
    = (Firebase.Returns
         (Firebase.mkResponse false None (Some "Event has not started yet")
            (Some (Firebase.info_of sample_doc))), sample_collection).
Proof.
  destruct check_order as (HS & _ & HF1 & HF2).
  assert (Hid : "ev1" <> EmptyString) by discriminate.
  assert (Hid2 : "ev2" <> EmptyString) by discriminate.
  split; [|split].
  - exact (proj2 (HS Supabase.ReserveCapture.reliable 500 "ev1" sample_table Hid)).
  - apply (HF1 sample_clock "ev2" sample_collection Hid2). vm_compute. reflexivity.
  - assert (Hdb : sample_collection !! "ev1" = Some sample_doc)
      by (vm_compute; reflexivity).
    assert (Hnd : Firebase.status sample_doc <> draft) by discriminate.
    exact (HF2 (fun _ => 500) "ev1" sample_collection sample_doc Hid Hdb Hnd eq_refl).
Defined.

(** C3 fails on the Firebase callable: a missing event is reported by a
    thrown not-found error, not by a returned value, and a draft whose window
    is open is not reported as not active. *)
Lemma check_order_counterexample :
  (Firebase.reserveCapture true "ev2" sample_collection sample_clock).1.1
  = Firebase.Throws "not-found" "Event not found"
  ∧ Firebase.reason
      (Firebase.validateCapture (Some sample_draft) (fun _ => 5000)).1
    = Some "Event has ended".
Proof. split; vm_compute; reflexivity. Qed.

End CheckOrder.

(** ** Reservations after the end date *)

Section AfterEndDate.

(** On the Supabase edge function the first reservation after the end date
    expires the event, and no later one touches the row again. *)
Lemma supabase_ended_expires_once net now id (db : gmap string Supabase.Event) e :
  id <> EmptyString -> db !! id = Some e ->
  Supabase.ReserveCapture.fetch_ok net = true ->
  Supabase.ReserveCapture.expire_ok net = true ->
  Supabase.status e = active -> Supabase.start_date e <= now ->
  Supabase.end_date e < now ->
  let out := Supabase.ReserveCapture.reserve_capture net now id db in
  Supabase.ReserveCapture.message (Supabase.ReserveCapture.body out.1)
  = Some "Event has ended"
  ∧ Supabase.ReserveCapture.success (Supabase.ReserveCapture.body out.1) = false
  ∧ (exists e1,
       out.2 = <[id := e1]> db
       ∧ Supabase.status e1 = expired
       ∧ Supabase.gallery_expires_at e1 = Some (now + fifteen_days)
       ∧ Supabase.capture_count e1 = Supabase.capture_count e)
  ∧ (forall net2 now2,
       let again := Supabase.ReserveCapture.reserve_capture net2 now2 id out.2 in
       Supabase.ReserveCapture.success (Supabase.ReserveCapture.body again.1) = false
       ∧ again.2 = out.2).
Proof.
  intros Hid Hdb Hf Hx Hst Hs He out.
  assert (Hout : out = (Supabase.ReserveCapture.failure 200 "Event has ended" None,
                        <[id := Supabase.ReserveCapture.apply_update
                                  (Supabase.ReserveCapture.mkUpdateData None None (Some expired)
                                     (Some (now + fifteen_days))) e]> db)).
  { subst out.
    unfold Supabase.ReserveCapture.reserve_capture, Supabase.ReserveCapture.check_phase,
      Supabase.ReserveCapture.select_single, Supabase.ReserveCapture.update_eq_id.
    rewrite (is_empty_false _ Hid), Hf, Hx, Hdb, Hst. simpl.
    destruct (Z.ltb_spec now (Supabase.start_date e)); [lia|].
    destruct (Z.ltb_spec (Supabase.end_date e) now); [|lia].
    f_equal. apply map_eq. intros k. rewrite lookup_alter.
    destruct (decide (id = k)) as [<-|Hne].
    - by rewrite Hdb, lookup_insert_eq.
    - by rewrite lookup_insert_ne. }
  rewrite Hout. simpl. repeat split.
  - eexists. repeat split; reflexivity.
  - unfold Supabase.ReserveCapture.reserve_capture, Supabase.ReserveCapture.check_phase,
      Supabase.ReserveCapture.select_single.
    rewrite (is_empty_false _ Hid).
    destruct (Supabase.ReserveCapture.fetch_ok net2); [|reflexivity].
    rewrite lookup_insert_eq. reflexivity.
  - unfold Supabase.ReserveCapture.reserve_capture, Supabase.ReserveCapture.check_phase,
      Supabase.ReserveCapture.select_single.
    rewrite (is_empty_false _ Hid).
    destruct (Supabase.ReserveCapture.fetch_ok net2); [|reflexivity].
    rewrite lookup_insert_eq. reflexivity.
Qed.

(** On the Firebase callable a refused reservation writes nothing, whatever
    the reason of the refusal. *)
Lemma firebase_refusal_writes_nothing (c : Firebase.Clock) id
    (db : gmap string Firebase.Event) e :
  id <> EmptyString -> db !! id = Some e ->
  Firebase.canCapture (Firebase.validateCapture (Some e) c).1 = false ->
  ((Firebase.reserveCapture true id db c).1).2 = db.
Proof.
  intros Hid Hdb Hv. by rewrite (reserveCapture_rejected c id db e Hid Hdb Hv).
Qed.

Lemma validateCapture_after_end (c : Firebase.Clock) e :
  Firebase.status e = active -> Firebase.endDate e < c 0%nat ->
  Firebase.startDate e <= c 1%nat ->
  (Firebase.validateCapture (Some e) c).1 = Firebase.refuse "Event has ended" e.
Proof.
  intros Hst He Hs.
  unfold Firebase.validateCapture, Firebase.isEventActive, Firebase.bind,
    Firebase.new_Date, Firebase.ret.
  rewrite Hst. simpl.
  destruct (Z.leb_spec (c 0%nat) (Firebase.endDate e)); [lia|].
  rewrite andb_false_r. simpl.
  destruct (Z.ltb_spec (c 1%nat) (Firebase.startDate e)); [lia|]. reflexivity.
Qed.

(** C4, on the Firebase callable [reserveCapture]: a reservation attempted
    on an active event after its end date has passed (and after its start
    date) is answered 'Event has ended', and the collection is what it was
    before the call: the event is still active and its gallery expiry is
    what it was, so nothing has expired it. *)
Theorem firebase_reservation_after_end_leaves_event_active (c : Firebase.Clock) id
    (db : gmap string Firebase.Event) e :
  id <> EmptyString -> db !! id = Some e ->
  Firebase.status e = active -> Firebase.endDate e < c 0%nat ->
  Firebase.startDate e <= c 1%nat ->
  let out := (Firebase.reserveCapture true id db c).1 in
  out.1 = Firebase.Returns
            (Firebase.mkResponse false None (Some "Event has ended")
               (Some (Firebase.info_of e)))
  ∧ out.2 = db
  ∧ Firebase.status <$> out.2 !! id = Some active
  ∧ Firebase.galleryExpiresAt <$> out.2 !! id = Some (Firebase.galleryExpiresAt e).
Proof.
  intros Hid Hdb Hst He Hs out. subst out.
  pose proof (validateCapture_after_end c e Hst He Hs) as Hv.
  rewrite (reserveCapture_rejected c id db e Hid Hdb) by (by rewrite Hv).
  rewrite Hv. simpl. rewrite Hdb. simpl. rewrite Hst. repeat split.
Qed.

(** The sample event (active, window closed at 9000) is asked for a slot
    when the clock reads 9500. *)
Lemma firebase_reservation_after_end_witness :
  let out := (Firebase.reserveCapture true "ev1" sample_collection
                (fun n => 9500 + Z.of_nat n)).1 in
  out.1 = Firebase.Returns
            (Firebase.mkResponse false None (Some "Event has ended")
               (Some (mkEventInfo 9 10 active)))
  ∧ out.2 = sample_collection
  ∧ Firebase.status <$> out.2 !! "ev1" = Some active
  ∧ Firebase.galleryExpiresAt <$> out.2 !! "ev1" = Some None.
Proof.
  apply (firebase_reservation_after_end_leaves_event_active
           (fun n => 9500 + Z.of_nat n) "ev1" sample_collection sample_doc).
  - discriminate.
  - vm_compute. reflexivity.
  - reflexivity.
  - vm_compute. reflexivity.
  - vm_compute. congruence.
Defined.

End AfterEndDate.

(** ** What each operation does to the counters *)

Section Counters.

Lemma validateCapture_can (c : Firebase.Clock) e :
  Firebase.canCapture (Firebase.validateCapture (Some e) c).1 = true ->
  Firebase.status e = active
  ∧ Firebase.hasReachedLimit e = false
  ∧ Firebase.hasAvailableSlots e = true.
Proof.
  unfold Firebase.validateCapture, Firebase.isEventActive, Firebase.bind,
    Firebase.new_Date, Firebase.ret.
  destruct (status_eqb (Firebase.status e) cleaned); [discriminate|].
  destruct (status_eqb (Firebase.status e) expired); [discriminate|].
  destruct (status_eqb (Firebase.status e) active) eqn:Hst; simpl.
  2: { destruct (_ <? _); discriminate. }
  apply status_eqb_true in Hst.
  destruct (_ && _); simpl; [|destruct (_ <? _); discriminate].
  destruct (Firebase.hasReachedLimit e); [discriminate|].
  destruct (Firebase.hasAvailableSlots e); [|discriminate].
  intros _. repeat split; assumption.
Qed.

Lemma expire_if_due_keeps (c : Firebase.Clock) e u :
  let u' := (Firebase.expire_if_due e u c).1 in
  Firebase.set_captureCount u' = Firebase.set_captureCount u
  ∧ Firebase.set_reservedCount u' = Firebase.set_reservedCount u
  ∧ Firebase.set_analytics u' = Firebase.set_analytics u
  ∧ Firebase.set_updatedAt u' = Firebase.set_updatedAt u.
Proof.
  unfold Firebase.expire_if_due, Firebase.bind.
  destruct (Firebase.shouldExpireEvent (Firebase.apply_update u e) c) as [[|] c'];
    simpl; repeat split; reflexivity.
Qed.

(** The document [reserveCapture] leaves: untouched, or one capture more,
    which happens only when a slot was free. *)
Lemma reserveCapture_effect db_ok (c : Firebase.Clock) id
    (db : gmap string Firebase.Event) e :
  db !! id = Some e ->
  let out := (Firebase.reserveCapture db_ok id db c).1 in
  (out.2 = db ∧ forall r, out.1 = Firebase.Returns r -> Firebase.success r = false)
  ∨ (Firebase.canCapture (Firebase.validateCapture (Some e) c).1 = true
     ∧ exists e',
         out.2 = <[id := e']> db
         ∧ Firebase.captureCount e' = Firebase.captureCount e + 1
         ∧ Firebase.reservedCount e' = Firebase.reservedCount e
         ∧ Firebase.photoLimit e' = Firebase.photoLimit e).
Proof.
  intros Hdb out; subst out. unfold Firebase.reserveCapture, Firebase.callable.
  destruct (is_empty id); [left; split; [reflexivity|discriminate]|].
  destruct db_ok; [|left; split; [reflexivity|discriminate]].
  unfold Firebase.reserveCapture_tx. rewrite Hdb. cbv beta iota.
  unfold Firebase.bind, Firebase.new_Date, Firebase.ret.
  destruct (Firebase.validateCapture (Some e) c) as [v c1] eqn:Hv. simpl.
  destruct (Firebase.canCapture v) eqn:Hcan; simpl.
  - right. split; [reflexivity|].
    match goal with
    | |- context [Firebase.expire_if_due e ?u ?c2] =>
      pose proof (expire_if_due_keeps c2 e u) as (H1 & H2 & _);
      destruct (Firebase.expire_if_due e u c2) as [u' c3]
    end.
    simpl in *. eexists. split; [reflexivity|]. simpl.
    rewrite H1, H2. repeat split; reflexivity.
  - left. split; [reflexivity|]. intros r [= <-]. reflexivity.
Qed.

(** The document [reserveCaptureWithBuffer] leaves: untouched, or one
    reserved slot more, which happens only when a slot was free. *)
Lemma reserveCaptureWithBuffer_effect db_ok (c : Firebase.Clock) id
    (db : gmap string Firebase.Event) e :
  db !! id = Some e ->
  let out := (Firebase.reserveCaptureWithBuffer db_ok id db c).1 in
  (out.2 = db ∧ forall r, out.1 = Firebase.Returns r -> Firebase.success r = false)
  ∨ (Firebase.canCapture (Firebase.validateCapture (Some e) c).1 = true
     ∧ exists e',
         out.1 = Firebase.Returns
                   (Firebase.mkResponse true
                      (Some (Firebase.captureCount e' + Firebase.reservedCount e'))
                      None (Some (Firebase.info_of e)))
         ∧ out.2 = <[id := e']> db
         ∧ Firebase.captureCount e' = Firebase.captureCount e
         ∧ Firebase.reservedCount e' = Firebase.reservedCount e + 1
         ∧ Firebase.photoLimit e' = Firebase.photoLimit e
         ∧ Firebase.status e' = Firebase.status e
         ∧ Firebase.galleryExpiresAt e' = Firebase.galleryExpiresAt e).
Proof.
  intros Hdb out; subst out.
  unfold Firebase.reserveCaptureWithBuffer, Firebase.callable.
  destruct (is_empty id); [left; split; [reflexivity|discriminate]|].
  destruct db_ok; [|left; split; [reflexivity|discriminate]].
  unfold Firebase.reserveCaptureWithBuffer_tx. rewrite Hdb. cbv beta iota.
  unfold Firebase.bind, Firebase.new_Date, Firebase.ret.
  destruct (Firebase.validateCapture (Some e) c) as [v c1] eqn:Hv. simpl.
  destruct (Firebase.canCapture v) eqn:Hcan; simpl.
  - right. split; [reflexivity|].
    eexists. split; [|split; [reflexivity|]]; simpl; rewrite ?num_or_0;
      repeat split; reflexivity.
  - left. split; [reflexivity|]. intros r [= <-]. reflexivity.
Qed.

(** What [confirmCapture] does to an existing document, whatever the
    document holds and whatever the clock reads. *)
Lemma confirmCapture_effect (c : Firebase.Clock) id
    (db : gmap string Firebase.Event) e :
  id <> EmptyString -> db !! id = Some e ->
  exists r e' c',
    Firebase.confirmCapture true id db c = ((Firebase.Returns r, <[id := e']> db), c')
    ∧ Firebase.success r = true
    ∧ Firebase.captureNumber r = Some (Firebase.captureCount e + 1)
    ∧ status_ <$> Firebase.event r = Some (Firebase.status e')
    ∧ Firebase.captureCount e' = Firebase.captureCount e + 1
    ∧ Firebase.reservedCount e' = Z.max 0 (Firebase.reservedCount e - 1)
    ∧ Firebase.photoLimit e' = Firebase.photoLimit e
    ∧ e' = Firebase.apply_update
             (Firebase.expire_if_due e
                (Firebase.mkUpdateData (Some (Firebase.captureCount e + 1))
                   (Some (Z.max 0 (Firebase.reservedCount e - 1)))
                   (Some (Firebase.bump_analytics (Firebase.analytics e)
                            (getHours (c 0%nat)) (c 1%nat)))
                   (Some (c 1%nat)) None None)
                (fun n => c (S (S n)))).1 e.
Proof.
  intros Hid Hdb. unfold Firebase.confirmCapture, Firebase.callable.
  rewrite (is_empty_false _ Hid). unfold Firebase.confirmCapture_tx. rewrite Hdb.
  unfold Firebase.bind, Firebase.new_Date, Firebase.ret,
    Firebase.getHourFromTimestamp. simpl. rewrite num_or_0.
  match goal with
  | |- context [Firebase.expire_if_due e ?u ?c2] =>
    pose proof (expire_if_due_keeps c2 e u) as (H1 & H2 & _);
    destruct (Firebase.expire_if_due e u c2) as [u' c3]
  end.
  simpl in *. eexists _, _, _. split; [reflexivity|]. simpl.
  rewrite H1, H2. repeat split; reflexivity.
Qed.

(** The row [reserve-capture] leaves: its counters and analytics untouched
    and no success, or one capture more, which happens only below the
    limit. *)
Lemma supabase_reserve_effect net now id (db : gmap string Supabase.Event) e :
  db !! id = Some e ->
  let out := Supabase.ReserveCapture.reserve_capture net now id db in
  exists e',
    out.2 !! id = Some e'
    ∧ Supabase.reserved_count e' = Supabase.reserved_count e
    ∧ Supabase.photo_limit e' = Supabase.photo_limit e
    ∧ ((Supabase.capture_count e' = Supabase.capture_count e
        ∧ Supabase.analytics e' = Supabase.analytics e
        ∧ Supabase.ReserveCapture.success (Supabase.ReserveCapture.body out.1) = false)
       ∨ (Supabase.capture_count e' = Supabase.capture_count e + 1
          ∧ Supabase.capture_count e < Supabase.photo_limit e)).
Proof.
  intros Hdb out. subst out.
  unfold Supabase.ReserveCapture.reserve_capture, Supabase.ReserveCapture.check_phase,
    Supabase.ReserveCapture.select_single.
  destruct (is_empty id); [exists e; simpl; tauto|].
  destruct (Supabase.ReserveCapture.fetch_ok net); [|exists e; simpl; tauto].
  rewrite Hdb. cbv beta iota zeta.
  destruct (negb _); [exists e; simpl; tauto|].
  destruct (now <? _); [exists e; simpl; tauto|].
  destruct (_ <? now).
  { unfold Supabase.ReserveCapture.update_eq_id.
    destruct (Supabase.ReserveCapture.expire_ok net); [|exists e; simpl; tauto].
    eexists. simpl. rewrite lookup_alter_eq, Hdb. simpl.
    split; [reflexivity|]. simpl. tauto. }
  destruct (Z.leb_spec (Supabase.photo_limit e) (Supabase.capture_count e));
    [exists e; simpl; tauto|].
  unfold Supabase.ReserveCapture.write_phase,
    Supabase.ReserveCapture.update_eq_id_capture_count.
  destruct (Supabase.ReserveCapture.update_ok net); [|exists e; simpl; tauto].
  eexists. simpl. rewrite lookup_alter_eq, Hdb. simpl. rewrite Z.eqb_refl.
  split; [reflexivity|].
  destruct (_ <=? _); simpl; (split; [reflexivity|split; [reflexivity|right; tauto]]).
Qed.

End Counters.

(** ** The slot invariant under the operations *)

Section SlotInvariant.

Lemma confirmCapture_unchanged_or_effect db_ok (c : Firebase.Clock) id
    (db : gmap string Firebase.Event) e :
  db !! id = Some e ->
  let out := (Firebase.confirmCapture db_ok id db c).1 in
  out.2 = db
  ∨ exists e',
      out.2 = <[id := e']> db
      ∧ Firebase.captureCount e' = Firebase.captureCount e + 1
      ∧ Firebase.reservedCount e' = Z.max 0 (Firebase.reservedCount e - 1)
      ∧ Firebase.photoLimit e' = Firebase.photoLimit e.
Proof.
  intros Hdb out. subst out.
  destruct (decide (id = EmptyString)) as [->|Hid]; [left; reflexivity|].
  destruct db_ok.
  - right.
    destruct (confirmCapture_effect c id db e Hid Hdb)
      as (r & e' & c' & -> & _ & _ & _ & Hc & Hr & Hl & _).
    exists e'. simpl. repeat split; assumption.
  - left. unfold Firebase.confirmCapture, Firebase.callable.
    rewrite (is_empty_false _ Hid). reflexivity.
Qed.

(** C5, as amended.  Capture count + reserved count <= photo limit is
    preserved by the Firebase [reserveCapture] and [reserveCaptureWithBuffer]
    on every event, and by [confirmCapture] on every event that has a
    reserved slot to convert (reserved count >= 1).  The Supabase edge
    function, which never reads the reserved count, preserves it on every
    event that has no reserved slot. *)
Theorem slot_invariant_preserved :
  (forall db_ok (c : Firebase.Clock) id (db : gmap string Firebase.Event) e e',
     db !! id = Some e -> firebase_within_limit e ->
     ((Firebase.reserveCapture db_ok id db c).1).2 !! id = Some e' ->
     firebase_within_limit e')
  ∧ (forall db_ok (c : Firebase.Clock) id (db : gmap string Firebase.Event) e e',
       db !! id = Some e -> firebase_within_limit e ->
       ((Firebase.reserveCaptureWithBuffer db_ok id db c).1).2 !! id = Some e' ->
       firebase_within_limit e')
  ∧ (forall db_ok (c : Firebase.Clock) id (db : gmap string Firebase.Event) e e',
       db !! id = Some e -> firebase_within_limit e ->
       1 <= Firebase.reservedCount e ->
       ((Firebase.confirmCapture db_ok id db c).1).2 !! id = Some e' ->
       firebase_within_limit e')
  ∧ (forall net now id (db : gmap string Supabase.Event) e e',
       db !! id = Some e -> supabase_within_limit e ->
       Supabase.reserved_count e = 0 ->
       (Supabase.ReserveCapture.reserve_capture net now id db).2 !! id = Some e' ->
       supabase_within_limit e').
Proof.
  unfold firebase_within_limit, supabase_within_limit. repeat split.
  - intros db_ok c id db e e' Hdb Hinv Hout.
    destruct (reserveCapture_effect db_ok c id db e Hdb)
      as [[Heq _]|(Hcan & e1 & Heq & Hc & Hr & Hl)];
      rewrite Heq in Hout.
    + rewrite Hdb in Hout. injection Hout as <-. exact Hinv.
    + rewrite lookup_insert_eq in Hout. injection Hout as <-.
      destruct (validateCapture_can c e Hcan) as (_ & _ & Hfree).
      unfold Firebase.hasAvailableSlots in Hfree. rewrite num_or_0 in Hfree.
      apply Z.ltb_lt in Hfree. lia.
  - intros db_ok c id db e e' Hdb Hinv Hout.
    destruct (reserveCaptureWithBuffer_effect db_ok c id db e Hdb)
      as [[Heq _]|(Hcan & e1 & _ & Heq & Hc & Hr & Hl & _)];
      rewrite Heq in Hout.
    + rewrite Hdb in Hout. injection Hout as <-. exact Hinv.
    + rewrite lookup_insert_eq in Hout. injection Hout as <-.
      destruct (validateCapture_can c e Hcan) as (_ & _ & Hfree).
      unfold Firebase.hasAvailableSlots in Hfree. rewrite num_or_0 in Hfree.
      apply Z.ltb_lt in Hfree. lia.
  - intros db_ok c id db e e' Hdb Hinv Hres Hout.
    destruct (confirmCapture_unchanged_or_effect db_ok c id db e Hdb)
      as [Heq|(e1 & Heq & Hc & Hr & Hl)];
      rewrite Heq in Hout.
    + rewrite Hdb in Hout. injection Hout as <-. exact Hinv.
    + rewrite lookup_insert_eq in Hout. injection Hout as <-. lia.
  - intros net now id db e e' Hdb Hinv Hres Hout.
    destruct (supabase_reserve_effect net now id db e Hdb)
      as (e1 & Hl & Hr & Hp & Hcases).
    rewrite Hl in Hout. injection Hout as <-.
    destruct Hcases as [(Hc & _)|(Hc & Hlt)]; lia.
Qed.

(** The sample documents and the sample row satisfy the invariant; the one
    with two reserved slots is confirmed. *)
Lemma slot_invariant_preserved_witness :
  (forall e', ((Firebase.reserveCapture true "ev1" sample_collection sample_clock).1).2
              !! "ev1" = Some e' -> firebase_within_limit e')
  ∧ (forall e', ((Firebase.reserveCaptureWithBuffer true "ev1" sample_collection
                    sample_clock).1).2 !! "ev1" = Some e' -> firebase_within_limit e')
  ∧ (forall e', ((Firebase.confirmCapture true "ev1" sample_reserved_collection
                    sample_clock).1).2 !! "ev1" = Some e' -> firebase_within_limit e')
  ∧ (forall e', (Supabase.ReserveCapture.reserve_capture
                   Supabase.ReserveCapture.reliable 5000 "ev1" sample_table).2
                !! "ev1" = Some e' -> supabase_within_limit e').
Proof.
  destruct slot_invariant_preserved as (H1 & H2 & H3 & H4).
  repeat split; intros e'.
  - apply (H1 true sample_clock "ev1" sample_collection sample_doc);
      [vm_compute; reflexivity | vm_compute; congruence].
  - apply (H2 true sample_clock "ev1" sample_collection sample_doc);
      [vm_compute; reflexivity | vm_compute; congruence].
  - apply (H3 true sample_clock "ev1" sample_reserved_collection sample_reserved_doc);
      [vm_compute; reflexivity | vm_compute; congruence | vm_compute; congruence].
  - apply (H4 Supabase.ReserveCapture.reliable 5000 "ev1" sample_table sample_row);
      [vm_compute; reflexivity | vm_compute; congruence | reflexivity].
Defined.

(** C5 fails on [confirmCapture]: with all ten photos taken and no slot
    reserved, a confirmation records an eleventh capture.  It also fails on
    the Supabase edge function for a row that has a reserved slot: nine
    captures and one reserved slot become ten captures and one reserved
    slot. *)
Lemma slot_invariant_counterexample :
  (firebase_within_limit sample_full_doc
   ∧ Firebase.status sample_full_doc <> draft
   ∧ exists e',
       ((Firebase.confirmCapture true "ev1" sample_full_collection sample_clock).1).2
       !! "ev1" = Some e'
       ∧ Firebase.captureCount e' = 11
       ∧ Firebase.reservedCount e' = 0
       ∧ Firebase.photoLimit e' = 10
       ∧ ~ firebase_within_limit e')
  ∧ (supabase_within_limit sample_reserved_row
     ∧ Supabase.status sample_reserved_row <> draft
     ∧ exists e',
         (Supabase.ReserveCapture.reserve_capture Supabase.ReserveCapture.reliable
            5000 "ev1" sample_reserved_table).2 !! "ev1" = Some e'
         ∧ Supabase.capture_count e' = 10
         ∧ Supabase.reserved_count e' = 1
         ∧ Supabase.photo_limit e' = 10
         ∧ ~ supabase_within_limit e').
Proof.
  split.
  - split; [vm_compute; congruence|]. split; [discriminate|].
    eexists. split; [vm_compute; reflexivity|].
    repeat split; try reflexivity. vm_compute. intros H. apply H. reflexivity.
  - split; [vm_compute; congruence|]. split; [discriminate|].
    eexists. split; [vm_compute; reflexivity|].
    repeat split; try reflexivity. vm_compute. intros H. apply H. reflexivity.
Qed.

End SlotInvariant.

(** ** Reservations at the limit *)

Section AtTheLimit.






End AtTheLimit.

(** ** The buffered variant and its confirmation *)

Section BufferAndConfirm.

Lemma expire_if_due_inactive (c : Firebase.Clock) e u :
  Firebase.status (Firebase.apply_update u e) <> active ->
  Firebase.expire_if_due e u c = (u, c).
Proof.
  intros Hst. unfold Firebase.expire_if_due, Firebase.shouldExpireEvent, Firebase.bind.
  apply status_eqb_false in Hst. rewrite Hst. reflexivity.
Qed.

Lemma expire_if_due_active (c : Firebase.Clock) e u :
  Firebase.status (Firebase.apply_update u e) = active ->
  (Firebase.expire_if_due e u c).1
  = if (Firebase.endDate e <? c 0%nat)
       || Firebase.hasReachedLimit (Firebase.apply_update u e)
    then Firebase.mkUpdateData (Firebase.set_captureCount u)
           (Firebase.set_reservedCount u) (Firebase.set_analytics u)
           (Firebase.set_updatedAt u) (Some expired)
           (Some (c 1%nat + fifteen_days))
    else u.
Proof.
  intros Hst. unfold Firebase.expire_if_due, Firebase.shouldExpireEvent,
    Firebase.bind, Firebase.new_Date, Firebase.ret.
  rewrite Hst. simpl.
  destruct (_ || _); simpl; rewrite ?addDays_15; reflexivity.
Qed.

(** C9. The reserve-with-buffer variant, on an event that passes the checks,
    increments the reserved count and not the capture count, and returns as
    provisional slot number the capture count plus the (new) reserved count.
    The confirm operation decrements the reserved count (never below zero),
    increments the capture count, and settles expiry with the step
    [expire_if_due] that the direct reservation runs: on an active event,
    past the end date or with the new capture count at the limit, it sets
    the status to expired and the gallery expiry 15 days ahead; otherwise it
    leaves both. *)
Theorem buffer_and_confirm :
  (forall (c : Firebase.Clock) id (db : gmap string Firebase.Event) e,
     id <> EmptyString -> db !! id = Some e -> firebase_passes (c 0%nat) e ->
     exists e',
       (Firebase.reserveCaptureWithBuffer true id db c).1
       = (Firebase.Returns
            (Firebase.mkResponse true
               (Some (Firebase.captureCount e' + Firebase.reservedCount e'))
               None (Some (Firebase.info_of e))),
          <[id := e']> db)
       ∧ Firebase.reservedCount e' = Firebase.reservedCount e + 1
       ∧ Firebase.captureCount e' = Firebase.captureCount e)
  ∧ (forall (c : Firebase.Clock) id (db : gmap string Firebase.Event) e,
       id <> EmptyString -> db !! id = Some e ->
       exists r e',
         (Firebase.confirmCapture true id db c).1
         = (Firebase.Returns r, <[id := e']> db)
         ∧ Firebase.reservedCount e' = Z.max 0 (Firebase.reservedCount e - 1)
         ∧ (1 <= Firebase.reservedCount e ->
            Firebase.reservedCount e' = Firebase.reservedCount e - 1)
         ∧ Firebase.captureCount e' = Firebase.captureCount e + 1
         ∧ (Firebase.status e = active ->
            Firebase.endDate e < c 2%nat
            ∨ Firebase.photoLimit e <= Firebase.captureCount e + 1 ->
            Firebase.status e' = expired
            ∧ Firebase.galleryExpiresAt e' = Some (c 3%nat + fifteen_days))
         ∧ (Firebase.status e <> active
            ∨ (c 2%nat <= Firebase.endDate e
               ∧ Firebase.captureCount e + 1 < Firebase.photoLimit e) ->
            Firebase.status e' = Firebase.status e
            ∧ Firebase.galleryExpiresAt e' = Firebase.galleryExpiresAt e))
  ∧ (forall (c : Firebase.Clock) id (db : gmap string Firebase.Event) e,
       id <> EmptyString -> db !! id = Some e -> firebase_passes (c 0%nat) e ->
       exists r e',
         (Firebase.reserveCapture true id db c).1
         = (Firebase.Returns r, <[id := e']> db)
         ∧ (Firebase.endDate e < c 3%nat
            ∨ Firebase.photoLimit e <= Firebase.captureCount e + 1 ->
            Firebase.status e' = expired
            ∧ Firebase.galleryExpiresAt e' = Some (c 4%nat + fifteen_days))
         ∧ (c 3%nat <= Firebase.endDate e
            ∧ Firebase.captureCount e + 1 < Firebase.photoLimit e ->
            Firebase.status e' = Firebase.status e
            ∧ Firebase.galleryExpiresAt e' = Firebase.galleryExpiresAt e)).
Proof.
  repeat split.
  - intros c id db e Hid Hdb Hp.
    assert (Hcan : Firebase.canCapture (Firebase.validateCapture (Some e) c).1 = true)
      by (by rewrite (validateCapture_passes c e Hp)).
    destruct (reserveCaptureWithBuffer_effect true c id db e Hdb)
      as [[_ Hs]|(_ & e' & Hr & Hd & Hc & Hres & _)].
    + exfalso.
      unfold Firebase.reserveCaptureWithBuffer, Firebase.callable in Hs.
      rewrite (is_empty_false _ Hid) in Hs.
      unfold Firebase.reserveCaptureWithBuffer_tx in Hs. rewrite Hdb in Hs.
      unfold Firebase.bind at 1 in Hs.
      rewrite (validateCapture_passes c e Hp) in Hs. simpl in Hs.
      unfold Firebase.bind, Firebase.new_Date, Firebase.ret in Hs. simpl in Hs.
      specialize (Hs _ eq_refl). discriminate Hs.
    + exists e'. split; [|split; assumption].
      apply injective_projections; assumption.
  - intros c id db e Hid Hdb.
    destruct (confirmCapture_effect c id db e Hid Hdb)
      as (r & e' & c' & Heq & _ & _ & _ & Hc & Hr & _ & He').
    exists r, e'. rewrite Heq. simpl.
    split; [reflexivity|]. split; [exact Hr|]. split; [lia|]. split; [exact Hc|].
    split.
    + intros Hst Hdue.
      rewrite expire_if_due_active in He' by exact Hst.
      unfold Firebase.hasReachedLimit in He'. simpl in He'.
      assert (Hb : (Firebase.endDate e <? c 2%nat)
                   || (Firebase.photoLimit e <=? Firebase.captureCount e + 1) = true).
      { apply orb_true_iff. destruct Hdue; [left; by apply Z.ltb_lt|right; by apply Z.leb_le]. }
      rewrite Hb in He'. subst e'. split; reflexivity.
    + intros [Hst|[Hend Hlim]].
      * rewrite expire_if_due_inactive in He' by exact Hst.
        subst e'. split; reflexivity.
      * destruct (decide (Firebase.status e = active)) as [Hst|Hst].
        -- rewrite expire_if_due_active in He' by exact Hst.
           unfold Firebase.hasReachedLimit in He'. simpl in He'.
           assert (Hb : (Firebase.endDate e <? c 2%nat)
                        || (Firebase.photoLimit e <=? Firebase.captureCount e + 1)
                        = false).
           { apply orb_false_iff. split; [by apply Z.ltb_ge|by apply Z.leb_gt]. }
           rewrite Hb in He'. subst e'. split; reflexivity.
        -- rewrite expire_if_due_inactive in He' by exact Hst.
           subst e'. split; reflexivity.
  - intros c id db e Hid Hdb Hp.
    unfold Firebase.reserveCapture, Firebase.callable. rewrite (is_empty_false _ Hid).
    unfold Firebase.reserveCapture_tx. rewrite Hdb.
    unfold Firebase.bind at 1. rewrite (validateCapture_passes c e Hp). simpl.
    destruct Hp as (Hst & _).
    unfold Firebase.bind, Firebase.new_Date, Firebase.ret. simpl.
    match goal with
    | |- context [Firebase.expire_if_due e ?u ?c2] =>
      pose proof (expire_if_due_active c2 e u Hst) as Hu;
      destruct (Firebase.expire_if_due e u c2) as [u' c3]
    end.
    simpl in Hu. subst u'. unfold Firebase.hasReachedLimit. simpl.
    eexists _, _. split; [reflexivity|]. split.
    + intros Hdue.
      assert (Hb : (Firebase.endDate e <? c 3%nat)
                   || (Firebase.photoLimit e <=? Firebase.captureCount e + 1) = true).
      { apply orb_true_iff. destruct Hdue; [left; by apply Z.ltb_lt|right; by apply Z.leb_le]. }
      rewrite Hb. split; reflexivity.
    + intros [Hend Hlim].
      assert (Hb : (Firebase.endDate e <? c 3%nat)
                   || (Firebase.photoLimit e <=? Firebase.captureCount e + 1) = false).
      { apply orb_false_iff. split; [by apply Z.ltb_ge|by apply Z.leb_gt]. }
      rewrite Hb. split; reflexivity.
Qed.

(** The sample event (nine captures, none reserved) takes a buffered
    reservation; the one with eight captures and two reserved slots is
    confirmed; the sample event takes a direct reservation. *)
Lemma buffer_and_confirm_witness :
  (exists e',
     (Firebase.reserveCaptureWithBuffer true "ev1" sample_collection sample_clock).1
     = (Firebase.Returns
          (Firebase.mkResponse true (Some 10) None (Some (mkEventInfo 9 10 active))),
        <[ "ev1" := e' ]> sample_collection)
     ∧ Firebase.reservedCount e' = 1 ∧ Firebase.captureCount e' = 9)
  ∧ (exists r e',
       (Firebase.confirmCapture true "ev1" sample_reserved_collection sample_clock).1
       = (Firebase.Returns r, <[ "ev1" := e' ]> sample_reserved_collection)
       ∧ Firebase.reservedCount e' = 1 ∧ Firebase.captureCount e' = 9
       ∧ Firebase.status e' = active)
  ∧ (exists r e',
       (Firebase.reserveCapture true "ev1" sample_collection sample_clock).1
       = (Firebase.Returns r, <[ "ev1" := e' ]> sample_collection)
       ∧ Firebase.status e' = expired
       ∧ Firebase.galleryExpiresAt e' = Some (5004 + fifteen_days)).
Proof.
  destruct buffer_and_confirm as (HB & HC & HR).
  assert (Hid : "ev1" <> EmptyString) by discriminate.
  assert (Hdb : sample_collection !! "ev1" = Some sample_doc)
    by (vm_compute; reflexivity).
  assert (Hdb2 : sample_reserved_collection !! "ev1" = Some sample_reserved_doc)
    by (vm_compute; reflexivity).
  assert (Hp : firebase_passes (sample_clock 0%nat) sample_doc)
    by (repeat split; vm_compute; congruence).
  split; [|split].
  - destruct (HB sample_clock "ev1" sample_collection sample_doc Hid Hdb Hp)
      as (e' & Heq & Hr & Hc).
    exists e'. simpl in Hr, Hc. rewrite Heq, Hr, Hc. repeat split; reflexivity.
  - destruct (HC sample_clock "ev1" sample_reserved_collection sample_reserved_doc
                Hid Hdb2) as (r & e' & Heq & _ & Hr & Hc & _ & Hkeep).
    exists r, e'. split; [exact Heq|].
    split; [apply Hr; vm_compute; congruence|]. split; [exact Hc|].
    apply Hkeep. right. split; vm_compute; congruence.
  - destruct (HR sample_clock "ev1" sample_collection sample_doc Hid Hdb Hp)
      as (r & e' & Heq & Hdue & _).
    exists r, e'. split; [exact Heq|].
    apply Hdue. right. vm_compute. congruence.
Defined.

End BufferAndConfirm.

(** ** Confirmation is unconditional *)

Section ConfirmUnconditional.

(** C10. For every existing event, [confirmCapture] returns success and
    increments the capture count by one, whatever the event's status, its
    date window and its capture count relative to the photo limit, and
    decrements the reserved count with a floor at zero; it ends otherwise
    only when the event does not exist or the database layer fails. *)
Theorem confirm_unconditional :
  (forall (c : Firebase.Clock) id (db : gmap string Firebase.Event) e,
     id <> EmptyString -> db !! id = Some e ->
     exists r e',
       (Firebase.confirmCapture true id db c).1
       = (Firebase.Returns r, <[id := e']> db)
       ∧ Firebase.success r = true
       ∧ Firebase.captureNumber r = Some (Firebase.captureCount e + 1)
       ∧ Firebase.captureCount e' = Firebase.captureCount e + 1
       ∧ Firebase.reservedCount e' = Z.max 0 (Firebase.reservedCount e - 1))
  ∧ (forall db_ok (c : Firebase.Clock) id (db : gmap string Firebase.Event),
       id <> EmptyString ->
       (forall r, ((Firebase.confirmCapture db_ok id db c).1).1 = Firebase.Returns r ->
                  Firebase.success r = false) ->
       db !! id = None ∨ db_ok = false).
Proof.
  split.
  - intros c id db e Hid Hdb.
    destruct (confirmCapture_effect c id db e Hid Hdb)
      as (r & e' & c' & Heq & Hs & Hn & _ & Hc & Hr & _).
    exists r, e'. rewrite Heq. repeat split; assumption.
  - intros db_ok c id db Hid Hfail.
    destruct db_ok; [|right; reflexivity]. left.
    destruct (db !! id) as [e|] eqn:Hdb; [|reflexivity].
    destruct (confirmCapture_effect c id db e Hid Hdb)
      as (r & e' & c' & Heq & Hs & _).
    rewrite Heq in Hfail. specialize (Hfail r eq_refl). congruence.
Qed.

(** The expired sample event, all ten photos taken, is confirmed. *)
Lemma confirm_unconditional_witness :
  (exists r e',
     (Firebase.confirmCapture true "ev1" sample_full_collection sample_clock).1
     = (Firebase.Returns r, <[ "ev1" := e' ]> sample_full_collection)
     ∧ Firebase.success r = true
     ∧ Firebase.captureNumber r = Some 11
     ∧ Firebase.captureCount e' = 11
     ∧ Firebase.reservedCount e' = 0)
  ∧ (sample_full_collection !! "ev2" = None ∨ true = false).
Proof.
  assert (Hid : "ev1" <> EmptyString) by discriminate.
  assert (Hdb : sample_full_collection !! "ev1" = Some sample_full_doc)
    by (vm_compute; reflexivity).
  destruct (proj1 confirm_unconditional sample_clock "ev1" sample_full_collection
              sample_full_doc Hid Hdb) as (r & e' & Heq & Hs & Hn & Hc & Hr).
  split; [exists r, e'; repeat split; assumption|].
  apply (proj2 confirm_unconditional true sample_clock "ev2" sample_full_collection);
    [discriminate|].
  intros r0 H. vm_compute in H. discriminate H.
Defined.

End ConfirmUnconditional.

(** ** Two reservations in flight *)

Section Race.
Import Supabase Supabase.ReserveCapture.

(** The response of the counter update is the 409 conflict exactly when the
    update request itself failed: what the row holds at that point does not
    enter it. *)
Lemma conflict_iff_request_failed net now id event (db : gmap string Event) :
  http_status (write_phase net now id event db).1 = 409
  <-> update_ok net = false.
Proof.
  unfold write_phase, update_eq_id_capture_count.
  destruct (update_ok net); simpl; split; intros H; try reflexivity; discriminate H.
Qed.

(** A counter update keyed on a count the row no longer has changes nothing
    and is answered as a success. *)
Lemma stale_write_succeeds net now id event (db : gmap string Event) e :
  update_ok net = true -> db !! id = Some e ->
  capture_count e <> capture_count event ->
  let out := write_phase net now id event db in
  out.2 = db
  ∧ success (body out.1) = true
  ∧ captureNumber (body out.1) = Some (capture_count event + 1).
Proof.
  intros Hnet Hdb Hne out. subst out.
  unfold write_phase, update_eq_id_capture_count. rewrite Hnet. simpl.
  repeat split.
  apply map_eq. intros k. rewrite lookup_alter.
  destruct (decide (id = k)) as [<-|Hk]; [|reflexivity].
  rewrite Hdb. simpl.
  destruct (Z.eqb_spec (capture_count e) (capture_count event)); [contradiction|].
  reflexivity.
Qed.

Lemma run_true rest a b (db : gmap string Event) :
  run (true :: rest) a b db = run rest (step a db).1 b (step a db).2.
Proof. simpl. by destruct (step a db). Qed.

Lemma run_false rest a b (db : gmap string Event) :
  run (false :: rest) a b db = run rest a (step b db).1 (step b db).2.
Proof. simpl. by destruct (step b db). Qed.

Lemma step_arrived_proceed net now id (db : gmap string Event) e :
  check_phase net now id db = (Proceed e, db) ->
  step (Arrived net now id) db = (Fetched net now id e, db).
Proof. intros H. simpl. by rewrite H. Qed.

Lemma step_fetched net now id e (db : gmap string Event) :
  step (Fetched net now id e) db
  = (Done (write_phase net now id e db).1, (write_phase net now id e db).2).
Proof. simpl. by destruct (write_phase net now id e db). Qed.

(** C2, on the Supabase edge function: two invocations for an event that
    passes the checks both fetch the row (capture count N) before either
    sends its conditional update, in either order of the updates, all
    requests being carried out.  Both are answered with success and capture
    number N + 1, neither with the conflict, and the row counts N + 1
    captures. *)
Theorem racing_reservations_both_succeed netA netB nowA nowB id
    (db : gmap string Event) e second :
  id <> EmptyString -> db !! id = Some e ->
  fetch_ok netA = true -> update_ok netA = true ->
  fetch_ok netB = true -> update_ok netB = true ->
  supabase_passes nowA e -> supabase_passes nowB e ->
  exists rA rB e',
    run (true :: false :: second :: negb second :: [])
      (Arrived netA nowA id) (Arrived netB nowB id) db
    = (Done rA, Done rB, <[id := e']> db)
    ∧ success (body rA) = true ∧ success (body rB) = true
    ∧ captureNumber (body rA) = Some (capture_count e + 1)
    ∧ captureNumber (body rB) = Some (capture_count e + 1)
    ∧ capture_count e' = capture_count e + 1.
Proof.
  intros Hid Hdb HfA HuA HfB HuB HpA HpB.
  rewrite run_true,
    (step_arrived_proceed _ _ _ _ _
       (check_phase_proceed netA nowA id db e Hid HfA Hdb HpA)).
  cbn [fst snd].
  rewrite run_false,
    (step_arrived_proceed _ _ _ _ _
       (check_phase_proceed netB nowB id db e Hid HfB Hdb HpB)).
  cbn [fst snd].
  destruct second; cbn [negb].
  - rewrite run_true, step_fetched. cbn [fst snd].
    destruct (write_phase_carried_out netA nowA id db e HuA Hdb)
      as (rA & eA & -> & _ & HsA & HnA & _ & HcA & _).
    cbn [fst snd]. rewrite run_false, step_fetched. cbn [fst snd].
    assert (Hne : capture_count eA <> capture_count e) by lia.
    destruct (stale_write_succeeds netB nowB id e (<[id := eA]> db) eA HuB
                (lookup_insert_eq _ _ _) Hne) as (Hdb' & HsB & HnB).
    rewrite Hdb'. exists rA, (write_phase netB nowB id e (<[id:=eA]> db)).1, eA.
    repeat split; assumption.
  - rewrite run_false, step_fetched. cbn [fst snd].
    destruct (write_phase_carried_out netB nowB id db e HuB Hdb)
      as (rB & eB & -> & _ & HsB & HnB & _ & HcB & _).
    cbn [fst snd]. rewrite run_true, step_fetched. cbn [fst snd].
    assert (Hne : capture_count eB <> capture_count e) by lia.
    destruct (stale_write_succeeds netA nowA id e (<[id := eB]> db) eB HuA
                (lookup_insert_eq _ _ _) Hne) as (Hdb' & HsA & HnA).
    rewrite Hdb'. exists (write_phase netA nowA id e (<[id:=eB]> db)).1, rB, eB.
    repeat split; assumption.
Qed.

(** The sample event with three captures: both invocations are answered
    with capture number 4 and the row counts four captures. *)
Lemma racing_reservations_witness :
  exists rA rB e',
    run [true; false; true; false]
      (Arrived reliable 5000 "ev1") (Arrived reliable 5001 "ev1") sample_open_table
    = (Done rA, Done rB, <[ "ev1" := e' ]> sample_open_table)
    ∧ success (body rA) = true ∧ success (body rB) = true
    ∧ captureNumber (body rA) = Some 4
    ∧ captureNumber (body rB) = Some 4
    ∧ capture_count e' = 4.
Proof.
  apply (racing_reservations_both_succeed reliable reliable 5000 5001 "ev1"
           sample_open_table sample_open_row true).
  - discriminate.
  - vm_compute. reflexivity.
  - reflexivity.
  - reflexivity.
  - reflexivity.
  - reflexivity.
  - repeat split; vm_compute; congruence.
  - repeat split; vm_compute; congruence.
Defined.

End Race.

(** ** The cleanup service *)

Section Cleanup.
Import Supabase Supabase.AutoCleanup.

Lemma is_due_spec now e :
  is_due now e = true
  <-> status e = expired ∧ exists t, gallery_expires_at e = Some t ∧ t < now.
Proof.
  unfold is_due. rewrite andb_true_iff, status_eqb_true. split.
  - intros [Hst Hg]. split; [exact Hst|].
    destruct (gallery_expires_at e) as [t|]; [|discriminate].
    exists t. split; [reflexivity|]. by apply Z.ltb_lt.
  - intros [Hst (t & -> & Hlt)]. split; [exact Hst|]. by apply Z.ltb_lt.
Qed.

Lemma select_expired_elem now (tbl : gmap string Event) id e :
  (id, e) ∈ select_expired now tbl <-> tbl !! id = Some e ∧ is_due now e = true.
Proof.
  unfold select_expired. rewrite list_elem_of_filter, elem_of_map_to_list. simpl.
  rewrite Is_true_true. tauto.
Qed.

Lemma clean_event_frame acc row id :
  id <> row.1 -> same_for id acc.1 (clean_event acc row).1.
Proof.
  intros Hne. destruct acc as [st s]. unfold clean_event, same_for. simpl.
  repeat split.
  - by rewrite lookup_alter_ne.
  - destruct (bool_decide _); [reflexivity|].
    unfold remove_files. by rewrite lookup_alter_ne.
  - by rewrite lookup_delete_ne.
  - rewrite list_filter_filter. apply list_filter_iff. intros c.
    split; [tauto|]. intros Hc. split; [exact Hc|congruence].
Qed.

Lemma clean_fold_frame l acc id :
  id ∉ l.*1 -> same_for id acc.1 (foldl clean_event acc l).1.
Proof.
  revert acc. induction l as [|row l IH]; intros acc Hid; simpl.
  - repeat split.
  - rewrite fmap_cons, not_elem_of_cons in Hid. destruct Hid as [Hne Hid].
    destruct (IH (clean_event acc row) Hid) as (H1 & H2 & H3 & H4).
    destruct (clean_event_frame acc row id Hne) as (G1 & G2 & G3 & G4).
    repeat split; congruence.
Qed.

Lemma clean_fold_cleaned l acc id e' :
  id ∈ l.*1 -> events (foldl clean_event acc l).1 !! id = Some e' ->
  status e' = cleaned.
Proof.
  revert acc. induction l as [|row l IH]; intros acc Hid Hl; simpl in *.
  - by apply elem_of_nil in Hid.
  - destruct (decide (id ∈ l.*1)) as [Hin|Hnin].
    + by apply (IH (clean_event acc row)).
    + rewrite elem_of_cons in Hid.
      destruct Hid as [->|Hin]; [|contradiction].
      destruct (clean_fold_frame l (clean_event acc row) row.1 Hnin) as (H1 & _).
      rewrite H1 in Hl. destruct acc as [st s]. simpl in Hl.
      rewrite lookup_alter_eq in Hl.
      destruct (events st !! row.1); [|discriminate].
      injection Hl as <-. reflexivity.
Qed.

Lemma clean_fold_logs l acc :
  cleanup_logs (foldl clean_event acc l).1 = cleanup_logs acc.1.
Proof.
  revert acc. induction l as [|row l IH]; intros acc; simpl; [reflexivity|].
  rewrite IH. by destruct acc.
Qed.

(** After a run nothing is due any more. *)
Lemma nothing_due_after now st :
  select_expired now (events (auto_cleanup now st).2) = [].
Proof.
  unfold auto_cleanup.
  destruct (foldl clean_event (st, no_work) (select_expired now (events st)))
    as [st' s] eqn:Hfold.
  simpl. unfold select_expired at 1.
  destruct (filter _ (map_to_list (events st'))) as [|[k r] rest] eqn:Hf;
    [reflexivity|exfalso].
  assert (Hin : (k, r) ∈ select_expired now (events st'))
    by (unfold select_expired; rewrite Hf; left).
  apply select_expired_elem in Hin. destruct Hin as [Hl Hdue].
  replace st' with (foldl clean_event (st, no_work)
                      (select_expired now (events st))).1 in Hl
    by (by rewrite Hfold).
  destruct (decide (k ∈ (select_expired now (events st)).*1)) as [Hk|Hk].
  - pose proof (clean_fold_cleaned _ _ _ _ Hk Hl) as Hc.
    apply is_due_spec in Hdue. destruct Hdue as [Hst _]. congruence.
  - destruct (clean_fold_frame _ (st, no_work) k Hk) as (H1 & _).
    rewrite H1 in Hl. simpl in Hl. apply Hk.
    apply list_elem_of_fmap. exists (k, r). split; [reflexivity|].
    by apply select_expired_elem.
Qed.

Lemma is_due_cleanup_due now e : is_due now e = true <-> cleanup_due now e.
Proof. apply is_due_spec. Qed.

Lemma shouldCleanGallery_spec (c : Firebase.Clock) e :
  (Firebase.shouldCleanGallery e c).1 = true
  <-> Firebase.status e = expired
      ∧ exists t, Firebase.galleryExpiresAt e = Some t ∧ t < c 0%nat.
Proof.
  unfold Firebase.shouldCleanGallery, Firebase.bind, Firebase.new_Date, Firebase.ret.
  destruct (status_eqb (Firebase.status e) expired) eqn:Hst; simpl.
  - apply status_eqb_true in Hst.
    destruct (Firebase.galleryExpiresAt e) as [t|]; split.
    + intros H. apply Z.ltb_lt in H. eauto.
    + intros (_ & t' & [= <-] & Hlt). by apply Z.ltb_lt.
    + discriminate.
    + intros (_ & t' & [=] & _).
  - apply status_eqb_false in Hst. split; [discriminate|]. intros [H _]. contradiction.
Qed.

(** C7. The cleanup service selects the events whose status is expired and
    whose gallery expiry is strictly before now, and what belongs to any
    other event (its row, its photos, its archive, its capture rows) is the
    same after the run as before: an event whose gallery expiry lies ahead,
    or whose status is already cleaned, is not touched.  A second run at the
    same instant finds nothing to do: its five counters are zero and the
    tables and buckets are as the first run left them.  The Firebase job
    decides per event with [shouldCleanGallery], which holds of the same
    events. *)
Theorem cleanup_only_due_events :
  (forall now e, is_due now e = true <-> cleanup_due now e)
  ∧ (forall now st id,
       (forall e, events st !! id = Some e -> ~ cleanup_due now e) ->
       same_for id st (auto_cleanup now st).2)
  ∧ (forall now st,
       let first := auto_cleanup now st in
       let second := auto_cleanup now first.2 in
       second.1 = no_work
       ∧ events second.2 = events first.2
       ∧ captures second.2 = captures first.2
       ∧ photos second.2 = photos first.2
       ∧ zips second.2 = zips first.2)
  ∧ (forall (c : Firebase.Clock) e,
       (Firebase.shouldCleanGallery e c).1 = true
       <-> Firebase.status e = expired
           ∧ exists t, Firebase.galleryExpiresAt e = Some t ∧ t < c 0%nat).
Proof.
  split; [exact is_due_cleanup_due|]. split; [|split; [|exact shouldCleanGallery_spec]].
  - intros now st id Hnot.
    assert (Hid : id ∉ (select_expired now (events st)).*1).
    { intros Hin. apply list_elem_of_fmap in Hin. destruct Hin as ([k e] & -> & Hin).
      apply select_expired_elem in Hin. destruct Hin as [Hl Hdue].
      apply (Hnot e Hl). by apply is_due_cleanup_due. }
    pose proof (clean_fold_frame _ (st, no_work) id Hid) as Hframe.
    unfold auto_cleanup.
    destruct (foldl clean_event (st, no_work) (select_expired now (events st)))
      as [st' s]. exact Hframe.
  - intros now st first second. subst second.
    pose proof (nothing_due_after now st) as Hnone. fold first in Hnone.
    unfold auto_cleanup at 1 2 3 4 5. rewrite Hnone. simpl. repeat split.
Qed.

(** In the sample backend the event [fresh], whose gallery expiry lies
    ahead, and the event [gone], already cleaned, are left alone by a run at
    instant 5000. *)
Lemma cleanup_only_due_events_witness :
  same_for "fresh" sample_backend (auto_cleanup 5000 sample_backend).2
  ∧ same_for "gone" sample_backend (auto_cleanup 5000 sample_backend).2
  ∧ status <$> events (auto_cleanup 5000 sample_backend).2 !! "old" = Some cleaned.
Proof.
  destruct cleanup_only_due_events as (_ & Hframe & _).
  split; [|split].
  - apply Hframe. intros e He [_ (t & Ht & Hlt)].
    vm_compute in He. injection He as <-. vm_compute in Ht. injection Ht as <-.
    vm_compute in Hlt. discriminate Hlt.
  - apply Hframe. intros e He [Hst _].
    vm_compute in He. injection He as <-. discriminate Hst.
  - vm_compute. reflexivity.
Defined.

End Cleanup.

(** ** The cached album archive *)

Section CachedArchive.

Lemma supabase_zip_validated now id token st :
  supabase_zip_request_ok now id token st ->
  Supabase.GenerateAlbumZip.generate_album_zip now id token st
  = match Supabase.GenerateAlbumZip.createSignedUrl id 86400 (Supabase.zips st) with
    | Some existingZip =>
      (Supabase.GenerateAlbumZip.mkResponse 200 true (Some existingZip)
         (Some (now + 86400000)) Supabase.GenerateAlbumZip.UsingCachedZip, st)
    | None =>
      let captures :=
        Supabase.GenerateAlbumZip.cloud_captures id (Supabase.captures st) in
      if bool_decide (captures = []) then
        (Supabase.GenerateAlbumZip.failure 404 "No photos found in cloud album", st)
      else
        let added := Supabase.GenerateAlbumZip.add_photos captures (Supabase.photos st) in
        if bool_decide (length added = 0%nat) then
          (Supabase.GenerateAlbumZip.failure 404 "No accessible photos found", st)
        else
          let zips' :=
            <[id := Supabase.mkZip now (Supabase.GenerateAlbumZip.zip_entries added)]>
              (Supabase.zips st) in
          (Supabase.GenerateAlbumZip.mkResponse 200 true
             (Supabase.GenerateAlbumZip.createSignedUrl id 86400 zips')
             (Some (now + 86400000))
             (Supabase.GenerateAlbumZip.ZipCreatedWith (length added)),
           Supabase.mkBackend (Supabase.events st) (Supabase.captures st)
             (Supabase.photos st) zips' (Supabase.cleanup_logs st))
    end.
Proof.
  intros (Hid & Htok & e & He & Ht & Hc & Hs & Hg).
  unfold Supabase.GenerateAlbumZip.generate_album_zip.
  rewrite (is_empty_false _ Hid), (is_empty_false _ Htok), He. simpl.
  rewrite (bool_decide_eq_true_2 _ Ht), Hc. simpl.
  apply status_eqb_false in Hs. rewrite Hs.
  destruct (Supabase.gallery_expires_at e) as [t|]; [|reflexivity].
  specialize (Hg t eq_refl). destruct (Z.ltb_spec t now); [lia|reflexivity].
Qed.

(** The Supabase function answers with the cached archive whenever there is
    one, whatever the archive's age. *)
Lemma supabase_zip_cached_at_any_age now id token st z :
  supabase_zip_request_ok now id token st ->
  Supabase.zips st !! id = Some z ->
  Supabase.GenerateAlbumZip.generate_album_zip now id token st
  = (Supabase.GenerateAlbumZip.mkResponse 200 true
       (Some (Supabase.GenerateAlbumZip.mkSignedUrl id 86400))
       (Some (now + 86400000)) Supabase.GenerateAlbumZip.UsingCachedZip, st).
Proof.
  intros Hok Hz. rewrite (supabase_zip_validated now id token st Hok).
  unfold Supabase.GenerateAlbumZip.createSignedUrl. by rewrite Hz.
Qed.

(** The Supabase function writes an archive only when none is stored. *)
Lemma supabase_zip_rebuild_only_if_absent now id token st n :
  Supabase.GenerateAlbumZip.message
    (Supabase.GenerateAlbumZip.generate_album_zip now id token st).1
  = Supabase.GenerateAlbumZip.ZipCreatedWith n ->
  Supabase.zips st !! id = None.
Proof.
  unfold Supabase.GenerateAlbumZip.generate_album_zip,
    Supabase.GenerateAlbumZip.createSignedUrl.
  repeat (match goal with
          | |- context [if ?b then _ else _] => destruct b
          | |- context [match ?x with Some _ => _ | None => _ end] => destruct x
          end; simpl; try discriminate; try reflexivity).
Qed.

Lemma supabase_zip_store_changes_only_on_rebuild now id token st :
  let out := Supabase.GenerateAlbumZip.generate_album_zip now id token st in
  out.2 = st
  ∨ exists n, Supabase.GenerateAlbumZip.message out.1
              = Supabase.GenerateAlbumZip.ZipCreatedWith n.
Proof.
  intros out. subst out.
  unfold Supabase.GenerateAlbumZip.generate_album_zip,
    Supabase.GenerateAlbumZip.createSignedUrl.
  repeat (match goal with
          | |- context [if ?b then _ else _] => destruct b
          | |- context [match ?x with Some _ => _ | None => _ end] => destruct x
          end; simpl; try (left; reflexivity)).
  all: right; eexists; reflexivity.
Qed.

Lemma monotone_le (c : Firebase.Clock) n m :
  Firebase.monotone c -> (n <= m)%nat -> c n <= c m.
Proof.
  intros Hm Hle. induction Hle as [|m Hle IH]; [lia|].
  specialize (Hm m). lia.
Qed.

(** What the Firebase function does once the request is validated: the look
    at the stored archive, with the clock the validation has left. *)
Lemma firebase_zip_validated (c : Firebase.Clock) id token st e :
  firebase_zip_request_ok c id token st e ->
  Firebase.GenerateAlbumZip.generateAlbumZip id token st c
  = match Firebase.GenerateAlbumZip.zips st !! id with
    | Some zipFile =>
      Firebase.bind
        (match Firebase.GenerateAlbumZip.timeCreated zipFile with
         | Some t => Firebase.ret t
         | None => Firebase.new_Date
         end)
        (fun createdAt =>
           if Firebase.GenerateAlbumZip.is_recent (c 0%nat) createdAt then
             Firebase.bind
               (Firebase.GenerateAlbumZip.signed_response id
                  Firebase.GenerateAlbumZip.UsingCachedZip)
               (fun r => Firebase.ret (Firebase.Returns r, st))
           else Firebase.GenerateAlbumZip.build_zip id st)
        (clock_after_validation c e)
    | None => Firebase.GenerateAlbumZip.build_zip id st (clock_after_validation c e)
    end.
Proof.
  intros (Hid & Htok & He & Ht & Hc & Hs & Hg).
  unfold Firebase.GenerateAlbumZip.generateAlbumZip, clock_after_validation.
  rewrite (is_empty_false _ Hid), (is_empty_false _ Htok), He. simpl.
  rewrite (bool_decide_eq_true_2 _ Ht), Hc. simpl.
  apply status_eqb_false in Hs. rewrite Hs.
  unfold Firebase.bind at 1. unfold Firebase.new_Date at 1.
  destruct (Firebase.galleryExpiresAt e) as [t|].
  - unfold Firebase.bind at 1. unfold Firebase.ret at 1.
    destruct (Z.ltb_spec t (c 0%nat)); [lia|].
    destruct (Firebase.GenerateAlbumZip.zips st !! id); reflexivity.
  - unfold Firebase.bind at 1. unfold Firebase.new_Date at 1.
    destruct (Z.ltb_spec (c 1%nat) (c 0%nat)); [lia|].
    destruct (Firebase.GenerateAlbumZip.zips st !! id); reflexivity.
Qed.

Lemma firebase_build_zip_message (c : Firebase.Clock) id st r :
  ((Firebase.GenerateAlbumZip.build_zip id st c).1).1 = Firebase.Returns r ->
  exists n, Firebase.GenerateAlbumZip.message r
            = Firebase.GenerateAlbumZip.ZipCreatedWith n.
Proof.
  unfold Firebase.GenerateAlbumZip.build_zip, Firebase.GenerateAlbumZip.signed_response,
    Firebase.bind, Firebase.new_Date, Firebase.ret.
  destruct (bool_decide _); [discriminate|].
  destruct (bool_decide _); [discriminate|].
  simpl. intros [= <-]. eexists. reflexivity.
Qed.

Lemma firebase_zip_rebuild_only_if_absent_or_old (c : Firebase.Clock) id token st r n :
  Firebase.monotone c ->
  ((Firebase.GenerateAlbumZip.generateAlbumZip id token st c).1).1
  = Firebase.Returns r ->
  Firebase.GenerateAlbumZip.message r = Firebase.GenerateAlbumZip.ZipCreatedWith n ->
  Firebase.GenerateAlbumZip.zips st !! id = None
  ∨ exists z created,
      Firebase.GenerateAlbumZip.zips st !! id = Some z
      ∧ Firebase.GenerateAlbumZip.timeCreated z = Some created
      ∧ 24 * ms_per_hour <= c 0%nat - created.
Proof.
  intros Hmono Hret Hmsg.
  assert (Hcached : forall c2 : Firebase.Clock,
             ((Firebase.bind
                 (Firebase.GenerateAlbumZip.signed_response id
                    Firebase.GenerateAlbumZip.UsingCachedZip)
                 (fun r => Firebase.ret (Firebase.Returns r, st)) c2).1).1
             = Firebase.Returns r -> False).
  { intros c2 H. unfold Firebase.GenerateAlbumZip.signed_response, Firebase.bind,
      Firebase.new_Date, Firebase.ret in H. simpl in H.
    injection H as <-. discriminate Hmsg. }
  unfold Firebase.GenerateAlbumZip.generateAlbumZip in Hret.
  destruct (is_empty id || is_empty token); [discriminate Hret|].
  destruct (Firebase.GenerateAlbumZip.events st !! id) as [e|]; [|discriminate Hret].
  destruct (negb (bool_decide _)); [discriminate Hret|].
  destruct (negb (Firebase.hasCloudAlbum e)); [discriminate Hret|].
  destruct (status_eqb _ _); [discriminate Hret|].
  destruct (Firebase.GenerateAlbumZip.zips st !! id) as [z|] eqn:Hz;
    [|left; reflexivity].
  right. exists z.
  unfold Firebase.bind at 1 in Hret. unfold Firebase.new_Date at 1 in Hret.
  destruct (Firebase.galleryExpiresAt e) as [t|].
  - unfold Firebase.bind at 1 in Hret. unfold Firebase.ret at 1 in Hret.
    destruct (t <? c 0%nat); [discriminate Hret|].
    unfold Firebase.bind at 1 in Hret.
    destruct (Firebase.GenerateAlbumZip.timeCreated z) as [created|].
    + exists created. unfold Firebase.ret at 1 in Hret.
      destruct (Firebase.GenerateAlbumZip.is_recent (c 0%nat) created) eqn:Hrec;
        [destruct (Hcached _ Hret)|].
      unfold Firebase.GenerateAlbumZip.is_recent in Hrec. apply Z.ltb_ge in Hrec.
      repeat split; try reflexivity. exact Hrec.
    + exfalso. unfold Firebase.new_Date at 1 in Hret.
      assert (Hrec : Firebase.GenerateAlbumZip.is_recent (c 0%nat) (c 1%nat) = true).
      { unfold Firebase.GenerateAlbumZip.is_recent, ms_per_hour. apply Z.ltb_lt.
        pose proof (monotone_le c 0 1 Hmono ltac:(lia)). lia. }
      rewrite Hrec in Hret. exact (Hcached _ Hret).
  - unfold Firebase.bind at 1 in Hret. unfold Firebase.new_Date at 1 in Hret.
    destruct (c 1%nat <? c 0%nat); [discriminate Hret|].
    unfold Firebase.bind at 1 in Hret.
    destruct (Firebase.GenerateAlbumZip.timeCreated z) as [created|].
    + exists created. unfold Firebase.ret at 1 in Hret.
      destruct (Firebase.GenerateAlbumZip.is_recent (c 0%nat) created) eqn:Hrec;
        [destruct (Hcached _ Hret)|].
      unfold Firebase.GenerateAlbumZip.is_recent in Hrec. apply Z.ltb_ge in Hrec.
      repeat split; try reflexivity. exact Hrec.
    + exfalso. unfold Firebase.new_Date at 1 in Hret.
      assert (Hrec : Firebase.GenerateAlbumZip.is_recent (c 0%nat) (c 2%nat) = true).
      { unfold Firebase.GenerateAlbumZip.is_recent, ms_per_hour. apply Z.ltb_lt.
        pose proof (monotone_le c 0 2 Hmono ltac:(lia)). lia. }
      rewrite Hrec in Hret. exact (Hcached _ Hret).
Qed.

(** The Firebase function serves a stored archive younger than 24 hours
    with a freshly signed link and stores nothing. *)
Lemma firebase_recent_archive_served (c : Firebase.Clock) id token st e z created :
  firebase_zip_request_ok c id token st e ->
  Firebase.GenerateAlbumZip.zips st !! id = Some z ->
  Firebase.GenerateAlbumZip.timeCreated z = Some created ->
  c 0%nat - created < 24 * ms_per_hour ->
  let c' := clock_after_validation c e in
  (Firebase.GenerateAlbumZip.generateAlbumZip id token st c).1
  = (Firebase.Returns
       (Firebase.GenerateAlbumZip.mkResponse true
          (Some (Firebase.GenerateAlbumZip.mkSignedUrl id
                   (c' 0%nat + 24 * ms_per_hour)))
          (Some (c' 1%nat + 24 * ms_per_hour))
          Firebase.GenerateAlbumZip.UsingCachedZip), st).
Proof.
  intros Hok Hz Ht Hage c'.
  rewrite (firebase_zip_validated c id token st e Hok), Hz, Ht.
  unfold Firebase.bind at 1. unfold Firebase.ret at 1.
  unfold Firebase.GenerateAlbumZip.is_recent.
  destruct (Z.ltb_spec (c 0%nat - created) (24 * ms_per_hour)); [|lia].
  unfold Firebase.GenerateAlbumZip.signed_response, Firebase.bind,
    Firebase.new_Date, Firebase.ret. reflexivity.
Qed.

(** C8.  The Supabase edge function does not look at the age of a stored
    archive: whenever an archive is stored for the event, a valid request is
    answered 'Using cached ZIP' with a link to it, and nothing is rebuilt or
    stored, however old the archive is; a stored archive is never replaced
    by this function.  The Firebase function, for an archive that is 24
    hours old or older, builds the archive anew from the cloud captures,
    stores it in place of the old one and answers with the number of photos
    (when at least one photo can be added).  First conjunct: the Supabase
    function; second: the Firebase function. *)
Theorem stale_archive_served :
  (forall now id token st z,
     supabase_zip_request_ok now id token st ->
     Supabase.zips st !! id = Some z ->
     let out := Supabase.GenerateAlbumZip.generate_album_zip now id token st in
     out.1
     = Supabase.GenerateAlbumZip.mkResponse 200 true
         (Some (Supabase.GenerateAlbumZip.mkSignedUrl id 86400))
         (Some (now + 86400000)) Supabase.GenerateAlbumZip.UsingCachedZip
     ∧ out.2 = st
     ∧ Supabase.zips out.2 !! id = Some z)
  ∧ (forall (c : Firebase.Clock) id token st e z created,
       firebase_zip_request_ok c id token st e ->
       Firebase.GenerateAlbumZip.zips st !! id = Some z ->
       Firebase.GenerateAlbumZip.timeCreated z = Some created ->
       24 * ms_per_hour <= c 0%nat - created ->
       let c' := clock_after_validation c e in
       let added :=
         Firebase.GenerateAlbumZip.add_photos
           (Firebase.GenerateAlbumZip.cloud_captures id
              (Firebase.GenerateAlbumZip.captures st))
           (Firebase.GenerateAlbumZip.files st) in
       added <> [] ->
       (Firebase.GenerateAlbumZip.generateAlbumZip id token st c).1
       = (Firebase.Returns
            (Firebase.GenerateAlbumZip.mkResponse true
               (Some (Firebase.GenerateAlbumZip.mkSignedUrl id
                        (c' 1%nat + 24 * 60 * 60 * 1000)))
               (Some (c' 2%nat + 24 * 60 * 60 * 1000))
               (Firebase.GenerateAlbumZip.ZipCreatedWith (length added))),
          Firebase.GenerateAlbumZip.mkBackend
            (Firebase.GenerateAlbumZip.events st)
            (Firebase.GenerateAlbumZip.captures st)
            (Firebase.GenerateAlbumZip.files st)
            (<[id := Firebase.GenerateAlbumZip.mkZip (Some (c' 0%nat)) added]>
               (Firebase.GenerateAlbumZip.zips st)))).
Proof.
  split.
  - intros now id token st z Hok Hz out. subst out.
    rewrite (supabase_zip_cached_at_any_age now id token st z Hok Hz).
    repeat split. exact Hz.
  - intros c id token st e z created Hok Hz Ht Hage c' added Hadded.
    rewrite (firebase_zip_validated c id token st e Hok), Hz, Ht.
    unfold Firebase.bind at 1. unfold Firebase.ret at 1.
    unfold Firebase.GenerateAlbumZip.is_recent.
    destruct (Z.ltb_spec (c 0%nat - created) (24 * ms_per_hour)); [lia|].
    unfold Firebase.GenerateAlbumZip.build_zip. fold added. fold c'.
    destruct (bool_decide_reflect
                (Firebase.GenerateAlbumZip.cloud_captures id
                   (Firebase.GenerateAlbumZip.captures st) = [])) as [Hnil|Hsome].
    { exfalso. apply Hadded. subst added. rewrite Hnil. reflexivity. }
    destruct (bool_decide_reflect (length added = 0%nat)) as [Hlen|Hlen].
    { exfalso. apply Hadded. by apply length_zero_iff_nil. }
    unfold Firebase.GenerateAlbumZip.signed_response, Firebase.bind,
      Firebase.new_Date, Firebase.ret. reflexivity.
Qed.

(** The archive of the sample event was stored at 1000 with the one photo
    there was; a second photo has been uploaded since.  Asked forty days
    later, the edge function serves the old archive.  The Firebase sample
    archive, stored at 4000 and asked for at 100000000, is rebuilt. *)
Lemma stale_archive_served_witness :
  24 * ms_per_hour <= 3456001000 - 1000
  ∧ Supabase.GenerateAlbumZip.generate_album_zip 3456001000 "ev1" "tok"
      sample_stale_backend
    = (Supabase.GenerateAlbumZip.mkResponse 200 true
         (Some (Supabase.GenerateAlbumZip.mkSignedUrl "ev1" 86400))
         (Some (3456001000 + 86400000)) Supabase.GenerateAlbumZip.UsingCachedZip,
       sample_stale_backend)
  ∧ Supabase.zips
      (Supabase.GenerateAlbumZip.generate_album_zip 3456001000 "ev1" "tok"
         sample_stale_backend).2 !! "ev1"
    = Some (Supabase.mkZip 1000 [1])
  ∧ Supabase.GenerateAlbumZip.add_photos
      (Supabase.GenerateAlbumZip.cloud_captures "ev1"
         (Supabase.captures sample_stale_backend))
      (Supabase.photos sample_stale_backend)
    = [1; 2]
  ∧ Firebase.GenerateAlbumZip.zips
      ((Firebase.GenerateAlbumZip.generateAlbumZip "ev1" "tok" sample_album_backend
          sample_late_clock).1).2 !! "ev1"
    = Some (Firebase.GenerateAlbumZip.mkZip (Some 100000001) [1]).
Proof.
  destruct stale_archive_served as [HS HF].
  assert (Hok : supabase_zip_request_ok 3456001000 "ev1" "tok" sample_stale_backend).
  { split; [discriminate|]. split; [discriminate|].
    eexists. split; [vm_compute; reflexivity|].
    repeat split; try discriminate. }
  assert (Hz : Supabase.zips sample_stale_backend !! "ev1"
               = Some (Supabase.mkZip 1000 [1]))
    by (vm_compute; reflexivity).
  pose proof (HS 3456001000 "ev1" "tok" sample_stale_backend _ Hok Hz) as H.
  cbv zeta in H. destruct H as (Hanswer & Hsame & Hkept).
  split; [vm_compute; congruence|]. split.
  { apply injective_projections; [exact Hanswer|exact Hsame]. }
  split; [exact Hkept|]. split; [vm_compute; reflexivity|].
  assert (Hfok : firebase_zip_request_ok sample_late_clock "ev1" "tok"
                   sample_album_backend sample_album_event).
  { repeat split; try discriminate; vm_compute; try reflexivity; congruence. }
  pose proof (HF sample_late_clock "ev1" "tok" sample_album_backend sample_album_event
                (Firebase.GenerateAlbumZip.mkZip (Some 4000) [1]) 4000 Hfok
                ltac:(vm_compute; reflexivity) eq_refl
                ltac:(vm_compute; congruence)) as H.
  cbv zeta in H. rewrite H by (vm_compute; discriminate).
  vm_compute. reflexivity.
Defined.

End CachedArchive.

(** ** Reservations on the Supabase handler: what a run can change *)

Section SupabaseReservations.
Import Supabase Supabase.ReserveCapture.

(** The whole answer and the whole table of a reservation that passes its
    checks and whose requests are carried out. *)
Lemma reserve_capture_passes now id (db : gmap string Event) e :
  id <> EmptyString -> db !! id = Some e -> supabase_passes now e ->
  exists e',
    reserve_capture reliable now id db
    = (mkResponse 200
         (mkBody true (Some (capture_count e + 1)) None (Some (info_of e'))),
       <[id := e']> db)
    ∧ same_settings e e'
    ∧ capture_count e' = capture_count e + 1
    ∧ status e'
      = (if photo_limit e <=? capture_count e + 1 then expired else active)
    ∧ gallery_expires_at e'
      = (if photo_limit e <=? capture_count e + 1
         then Some (now + fifteen_days) else gallery_expires_at e)
    ∧ analytics e'
      = Some (mkAnalytics (default 0 (totalCaptures <$> analytics e) + 1)
                (Some (getHours now)) (Some now)).
Proof.
  intros Hid Hdb Hp. unfold reserve_capture.
  rewrite (check_phase_proceed reliable now id db e Hid eq_refl Hdb Hp).
  destruct Hp as (Hst & _).
  unfold write_phase, update_eq_id_capture_count. simpl.
  assert (Halter : forall u,
             alter (fun r => if capture_count r =? capture_count e
                             then apply_update u r else r) id db
             = <[id := apply_update u e]> db).
  { intros u. apply map_eq. intros k. rewrite lookup_alter.
    destruct (decide (id = k)) as [<-|Hne].
    - rewrite Hdb, lookup_insert_eq. simpl. by rewrite Z.eqb_refl.
    - by rewrite lookup_insert_ne. }
  rewrite Halter.
  destruct (photo_limit e <=? capture_count e + 1) eqn:Hlim;
    eexists; (split; [apply pair_equal_spec; split; [|reflexivity];
                      unfold info_of; simpl; rewrite ?Hst; reflexivity|]);
    unfold same_settings; simpl;
    rewrite ?Hst; destruct (analytics e); repeat split; reflexivity.
Qed.

(** X1. A run of the reservation handler, whatever the instant, the event id
    asked for and the fate of its requests, creates and removes no row, leaves
    every row but the one asked for as it was, and in any row changes neither
    name, limit, dates, album flag, gallery token nor reserved count; the
    capture count stays or grows by one, and the status stays or goes from
    active to expired, in which case the gallery expiry is now + 15 days. *)
Theorem supabase_reservation_moves_forward net now id (db : gmap string Event) k e :
  db !! k = Some e ->
  let out := reserve_capture net now id db in
  (forall k', db !! k' = None -> out.2 !! k' = None)
  ∧ exists e',
      out.2 !! k = Some e'
      ∧ (k <> id -> e' = e)
      ∧ same_settings e e'
      ∧ capture_count e <= capture_count e' <= capture_count e + 1
      ∧ ((status e' = status e ∧ gallery_expires_at e' = gallery_expires_at e)
         ∨ (status e = active ∧ status e' = expired
            ∧ gallery_expires_at e' = Some (now + fifteen_days))).
Proof.
  intros Hk out. subst out.
  assert (Hsame : forall db', db' = db ->
             (forall k', db !! k' = None -> db' !! k' = None)
             ∧ exists e',
                 db' !! k = Some e' ∧ (k <> id -> e' = e) ∧ same_settings e e'
                 ∧ capture_count e <= capture_count e' <= capture_count e + 1
                 ∧ ((status e' = status e
                     ∧ gallery_expires_at e' = gallery_expires_at e)
                    ∨ (status e = active ∧ status e' = expired
                       ∧ gallery_expires_at e' = Some (now + fifteen_days)))).
  { intros db' ->. split; [auto|]. exists e. unfold same_settings.
    repeat split; auto; lia. }
  assert (Halter : forall f ev,
             db !! id = Some ev ->
             same_settings ev (f ev) ->
             capture_count ev <= capture_count (f ev) <= capture_count ev + 1 ->
             ((status (f ev) = status ev
               ∧ gallery_expires_at (f ev) = gallery_expires_at ev)
              ∨ (status ev = active ∧ status (f ev) = expired
                 ∧ gallery_expires_at (f ev) = Some (now + fifteen_days))) ->
             (forall k', db !! k' = None -> alter f id db !! k' = None)
             ∧ exists e',
                 alter f id db !! k = Some e' ∧ (k <> id -> e' = e)
                 ∧ same_settings e e'
                 ∧ capture_count e <= capture_count e' <= capture_count e + 1
                 ∧ ((status e' = status e
                     ∧ gallery_expires_at e' = gallery_expires_at e)
                    ∨ (status e = active ∧ status e' = expired
                       ∧ gallery_expires_at e' = Some (now + fifteen_days)))).
  { intros f ev Hev Hs Hc Hst. split.
    - intros k' Hnone. by apply lookup_alter_None.
    - destruct (decide (k = id)) as [->|Hne].
      + assert (ev = e) as -> by congruence.
        exists (f e). rewrite lookup_alter_eq, Hk. simpl. tauto.
      + exists e. rewrite lookup_alter_ne by congruence.
        unfold same_settings. repeat split; auto; lia. }
  unfold reserve_capture, check_phase, select_single.
  destruct (is_empty id); [by apply Hsame|].
  destruct (fetch_ok net); [|by apply Hsame].
  destruct (db !! id) as [ev|] eqn:Hid; [|by apply Hsame].
  cbv beta iota zeta.
  destruct (status_eqb (status ev) active) eqn:Hst; simpl; [|by apply Hsame].
  apply status_eqb_true in Hst.
  destruct (now <? _); [by apply Hsame|].
  destruct (_ <? now).
  { unfold update_eq_id. destruct (expire_ok net); [|by apply Hsame]. simpl.
    apply (Halter _ ev eq_refl); unfold same_settings; simpl.
    - repeat split; reflexivity.
    - lia.
    - right. repeat split; auto. }
  destruct (photo_limit ev <=? capture_count ev) eqn:Hfull; [by apply Hsame|].
  unfold write_phase, update_eq_id_capture_count.
  destruct (update_ok net); [|by apply Hsame].
  simpl. apply (Halter _ ev eq_refl); rewrite Z.eqb_refl; unfold same_settings.
  - destruct (photo_limit ev <=? capture_count ev + 1); simpl;
      repeat split; reflexivity.
  - destruct (photo_limit ev <=? capture_count ev + 1); simpl; lia.
  - destruct (photo_limit ev <=? capture_count ev + 1); simpl; [right|left];
      repeat split; auto.
Qed.

Lemma supabase_reservation_moves_forward_example :
  let out := reserve_capture reliable 5000 "ev1" sample_table in
  (forall k', sample_table !! k' = None -> out.2 !! k' = None)
  ∧ exists e',
      out.2 !! "ev1" = Some e'
      ∧ ("ev1" <> "ev1" -> e' = sample_row)
      ∧ same_settings sample_row e'
      ∧ capture_count sample_row <= capture_count e' <= capture_count sample_row + 1
      ∧ ((status e' = status sample_row
          ∧ gallery_expires_at e' = gallery_expires_at sample_row)
         ∨ (status sample_row = active ∧ status e' = expired
            ∧ gallery_expires_at e' = Some (5000 + fifteen_days))).
Proof.
  apply (supabase_reservation_moves_forward reliable 5000 "ev1" sample_table "ev1"
           sample_row).
  vm_compute. reflexivity.
Defined.

(** X2. Invocations that follow one another for the same active event, each
    within its window and with its requests carried out, are all answered
    with a success as long as the limit allows, and are given the capture
    numbers N+1, N+2, ... in order, no number twice; the counter ends at N
    plus their number, and the event is expired exactly when that reaches
    the limit. *)
Theorem serial_reservations_consecutive nows id (db : gmap string Event) e :
  id <> EmptyString -> db !! id = Some e -> status e = active ->
  Forall (fun t => start_date e <= t <= end_date e) nows ->
  capture_count e + Z.of_nat (length nows) <= photo_limit e ->
  let out := reserve_each nows id db in
  issued <$> out.1
  = (fun i : nat => Some (capture_count e + 1 + Z.of_nat i)) <$> seq 0 (length nows)
  ∧ capture_count <$> out.2 !! id = Some (capture_count e + Z.of_nat (length nows))
  ∧ status <$> out.2 !! id
    = Some (if bool_decide (nows <> [])
               && (photo_limit e =? capture_count e + Z.of_nat (length nows))
            then expired else active).
Proof.
  revert db e. induction nows as [|now rest IH]; intros db e Hid Hdb Hst Hin Hroom out;
    subst out.
  - simpl. rewrite Hdb. simpl. rewrite Z.add_0_r, Hst. repeat split; reflexivity.
  - apply Forall_cons in Hin. destruct Hin as [Hnow Hrest].
    cbn [length] in Hroom. rewrite Nat2Z.inj_succ in Hroom.
    assert (Hp : supabase_passes now e) by (unfold supabase_passes; repeat split; [exact Hst|lia..]).
    destruct (reserve_capture_passes now id db e Hid Hdb Hp)
      as (e' & Hrun & Hset & Hc' & Hst' & _).
    cbn [reserve_each]. rewrite Hrun.
    destruct Hset as (_ & Hl & _ & Hs & He & _).
    destruct rest as [|now2 rest'].
    + cbn [reserve_each fst snd length fmap list_fmap seq].
      rewrite lookup_insert_eq. simpl. rewrite Hc', Hst'.
      unfold issued. simpl. rewrite Z.add_0_r.
      repeat split; try reflexivity.
      change (Z.of_nat 1) with 1.
      destruct (Z.leb_spec (photo_limit e) (capture_count e + 1));
        destruct (Z.eqb_spec (photo_limit e) (capture_count e + 1));
        try reflexivity; simpl in *; lia.
    + remember (now2 :: rest') as l eqn:Heql.
      assert (Hne : l <> []) by (subst l; discriminate).
      assert (Hlen : (0 < length l)%nat) by (subst l; simpl; lia).
      clear Heql.
      assert (Hact : status e' = active).
      { rewrite Hst'. cbn [length] in Hroom.
        destruct (Z.leb_spec (photo_limit e) (capture_count e + 1)); [lia|reflexivity]. }
      specialize (IH (<[id := e']> db) e' Hid (lookup_insert_eq _ _ _) Hact).
      rewrite Hs, He, Hl, Hc' in IH.
      specialize (IH Hrest ltac:(lia)).
      destruct (reserve_each l id (<[id := e']> db)) as [rs db''].
      cbn [fst snd] in *. destruct IH as (IH1 & IH2 & IH3).
      split; [|split].
      * rewrite fmap_cons. cbn [length seq]. rewrite fmap_cons. f_equal.
        -- unfold issued. simpl. f_equal. lia.
        -- rewrite IH1. rewrite <- fmap_S_seq, <- list_fmap_compose.
           apply list_fmap_ext. intros i x _. simpl. f_equal. lia.
      * rewrite IH2. f_equal. cbn [length]. lia.
      * rewrite IH3. f_equal.
        rewrite !bool_decide_eq_true_2 by (try discriminate; exact Hne). simpl.
        replace (capture_count e + 1 + Z.of_nat (length l))
          with (capture_count e + Z.of_nat (length (now :: l)))
          by (cbn [length]; lia).
        reflexivity.
Qed.

Lemma serial_reservations_consecutive_example :
  let out := reserve_each [5000; 5001; 5002] "ev1" sample_open_table in
  issued <$> out.1
  = (fun i : nat => Some (capture_count sample_open_row + 1 + Z.of_nat i))
      <$> seq 0 (length [5000; 5001; 5002])
  ∧ capture_count <$> out.2 !! "ev1"
    = Some (capture_count sample_open_row + Z.of_nat (length [5000; 5001; 5002]))
  ∧ status <$> out.2 !! "ev1"
    = Some (if bool_decide ([5000; 5001; 5002] <> [])
               && (photo_limit sample_open_row
                   =? capture_count sample_open_row
                      + Z.of_nat (length [5000; 5001; 5002]))
            then expired else active).
Proof.
  apply (serial_reservations_consecutive [5000; 5001; 5002] "ev1" sample_open_table
           sample_open_row).
  - discriminate.
  - vm_compute. reflexivity.
  - reflexivity.
  - repeat constructor; vm_compute; congruence.
  - vm_compute. congruence.
Defined.

End SupabaseReservations.

(** ** The Firebase callables: what a call can change *)

Section FirebaseCalls.
Import Firebase.

Lemma getHours_range t : 0 <= getHours t < 24.
Proof. unfold getHours. apply Z.mod_pos_bound. lia. Qed.

(** A validation that allows the capture has found the preconditions to
    hold at its one reading of the clock. *)
Lemma validateCapture_can_passes (c : Clock) e :
  canCapture (validateCapture (Some e) c).1 = true -> firebase_passes (c 0%nat) e.
Proof.
  unfold validateCapture, isEventActive, bind, new_Date, ret.
  destruct (status_eqb (status e) cleaned); [discriminate|].
  destruct (status_eqb (status e) expired); [discriminate|].
  destruct (status_eqb (status e) active) eqn:Hst; simpl.
  2: { destruct (_ <? _); discriminate. }
  apply status_eqb_true in Hst.
  destruct (Z.leb_spec (startDate e) (c 0%nat)); simpl;
    [|destruct (_ <? _); discriminate].
  destruct (Z.leb_spec (c 0%nat) (endDate e)); simpl;
    [|destruct (_ <? _); discriminate].
  unfold hasReachedLimit, hasAvailableSlots.
  destruct (Z.leb_spec (photoLimit e) (captureCount e)); [discriminate|].
  destruct (Z.ltb_spec (captureCount e + num_or (reservedCount e) 0) (photoLimit e));
    [|discriminate].
  intros _. unfold firebase_passes. repeat split; assumption.
Qed.

(** The two ways the auto-expire step can leave an update that sets neither
    status nor gallery expiry. *)
Lemma expire_if_due_cases (c : Clock) e u :
  set_status u = None -> set_galleryExpiresAt u = None ->
  let u' := (expire_if_due e u c).1 in
  set_captureCount u' = set_captureCount u
  ∧ set_reservedCount u' = set_reservedCount u
  ∧ set_analytics u' = set_analytics u
  ∧ set_updatedAt u' = set_updatedAt u
  ∧ ((set_status u' = None ∧ set_galleryExpiresAt u' = None)
     ∨ (status e = active ∧ set_status u' = Some expired
        ∧ set_galleryExpiresAt u' = Some (c 1%nat + fifteen_days))).
Proof.
  intros Hs Hg u'. subst u'.
  unfold expire_if_due, shouldExpireEvent, bind, new_Date, ret. simpl. rewrite Hs. simpl.
  destruct (status_eqb (status e) active) eqn:Hst; simpl.
  - apply status_eqb_true in Hst.
    destruct (_ || _); simpl; rewrite ?addDays_15; repeat split; auto.
  - repeat split; auto.
Qed.

(** What a call leaves of the store, for each of the three callables. *)
Lemma firebase_call_effect f db_ok id (db : gmap string Event) (c : Clock) e :
  db !! id = Some e ->
  let out := (call f db_ok id db c).1 in
  out.2 = db
  ∨ exists e',
      out.2 = <[id := e']> db
      ∧ firebase_same_settings e e'
      ∧ captureCount e <= captureCount e' <= captureCount e + 1
      ∧ ((status e' = status e ∧ galleryExpiresAt e' = galleryExpiresAt e)
         ∨ (status e = active ∧ status e' = expired
            ∧ exists n, galleryExpiresAt e' = Some (c n + fifteen_days)))
      ∧ (analytics_in_step (captureCount e) (analytics e) ->
         analytics_in_step (captureCount e') (analytics e')).
Proof.
  intros Hdb out. subst out.
  assert (Hbump : forall h now,
             0 <= h < 24 ->
             analytics_in_step (captureCount e) (analytics e) ->
             analytics_in_step (captureCount e + 1)
               (Some (bump_analytics (analytics e) h now))).
  { intros h now Hh (x & Hx & Htot & _). eexists. split; [reflexivity|].
    unfold bump_analytics. rewrite Hx. simpl. split; [lia|].
    intros h' [= <-]. exact Hh. }
  destruct f; unfold call, reserveCapture, reserveCaptureWithBuffer, confirmCapture,
    callable.
  - destruct (is_empty id); [by left|]. destruct db_ok; [|by left].
    unfold reserveCapture_tx. rewrite Hdb. cbv beta iota.
    unfold bind, new_Date, ret, getHourFromTimestamp.
    pose proof (validateCapture_can_passes c e) as Hpass.
    destruct (validateCapture (Some e) c) as [v c1] eqn:Hv. simpl in Hpass.
    destruct (canCapture v) eqn:Hcan; simpl; [|by left].
    specialize (Hpass eq_refl).
    rewrite (validateCapture_passes c e Hpass) in Hv. injection Hv as <- <-.
    match goal with
    | |- context [expire_if_due e ?u ?c2] =>
      pose proof (expire_if_due_cases c2 e u eq_refl eq_refl)
        as (H1 & H2 & H3 & H4 & Hexp);
      destruct (expire_if_due e u c2) as [u' c3]
    end.
    cbn [fst snd] in *. right. eexists. split; [reflexivity|].
    unfold firebase_same_settings. simpl. rewrite H1, H3. simpl.
    repeat split; try reflexivity; try lia.
    + destruct Hexp as [[-> ->]|(Hst & -> & ->)]; [left|right]; simpl;
        repeat split; auto. by exists 4%nat.
    + apply Hbump. apply getHours_range.
  - destruct (is_empty id); [by left|]. destruct db_ok; [|by left].
    unfold reserveCaptureWithBuffer_tx. rewrite Hdb. cbv beta iota.
    unfold bind, new_Date, ret.
    destruct (validateCapture (Some e) c) as [v c1].
    destruct (canCapture v); simpl; [|by left].
    right. eexists. split; [reflexivity|]. unfold firebase_same_settings. simpl.
    repeat split; try reflexivity; try lia; [by left|auto].
  - destruct (is_empty id); [by left|]. destruct db_ok; [|by left].
    unfold confirmCapture_tx. rewrite Hdb.
    unfold bind, new_Date, ret, getHourFromTimestamp. simpl.
    match goal with
    | |- context [expire_if_due e ?u ?c2] =>
      pose proof (expire_if_due_cases c2 e u eq_refl eq_refl)
        as (H1 & H2 & H3 & H4 & Hexp);
      destruct (expire_if_due e u c2) as [u' c3]
    end.
    cbn [fst snd] in *. right. eexists. split; [reflexivity|].
    unfold firebase_same_settings. simpl. rewrite H1, H3. simpl.
    repeat split; try reflexivity; try lia.
    + destruct Hexp as [[-> ->]|(Hst & -> & ->)]; [left|right]; simpl;
        repeat split; auto. by exists 3%nat.
    + apply Hbump. apply getHours_range.
Qed.

Lemma firebase_call_missing f db_ok id (db : gmap string Event) (c : Clock) :
  db !! id = None -> ((call f db_ok id db c).1).2 = db.
Proof.
  intros Hdb.
  destruct f; unfold call, reserveCapture, reserveCaptureWithBuffer, confirmCapture,
    callable; destruct (is_empty id); try reflexivity;
    destruct db_ok; try reflexivity;
    unfold reserveCapture_tx, reserveCaptureWithBuffer_tx, confirmCapture_tx;
    rewrite Hdb; reflexivity.
Qed.

(** X3. A call of [reserveCapture], [reserveCaptureWithBuffer] or
    [confirmCapture], whatever its argument, the clock and the fate of its
    transaction, creates and removes no document, leaves every document but
    the one asked for as it was, and in any document changes neither name,
    limit, dates, album flag nor gallery token; the capture count stays or
    grows by one, and the status stays or goes from active to expired, in
    which case the gallery expiry is a reading of the clock plus 15 days. *)
Theorem firebase_calls_move_forward f db_ok id (db : gmap string Event) (c : Clock)
    k e :
  db !! k = Some e ->
  let out := (call f db_ok id db c).1 in
  (forall k', db !! k' = None -> out.2 !! k' = None)
  ∧ exists e',
      out.2 !! k = Some e'
      ∧ (k <> id -> e' = e)
      ∧ firebase_same_settings e e'
      ∧ captureCount e <= captureCount e' <= captureCount e + 1
      ∧ ((status e' = status e ∧ galleryExpiresAt e' = galleryExpiresAt e)
         ∨ (status e = active ∧ status e' = expired
            ∧ exists n, galleryExpiresAt e' = Some (c n + fifteen_days))).
Proof.
  intros Hk out. subst out.
  assert (Hsame : forall db', db' = db ->
             (forall k', db !! k' = None -> db' !! k' = None)
             ∧ exists e',
                 db' !! k = Some e' ∧ (k <> id -> e' = e)
                 ∧ firebase_same_settings e e'
                 ∧ captureCount e <= captureCount e' <= captureCount e + 1
                 ∧ ((status e' = status e
                     ∧ galleryExpiresAt e' = galleryExpiresAt e)
                    ∨ (status e = active ∧ status e' = expired
                       ∧ exists n, galleryExpiresAt e' = Some (c n + fifteen_days)))).
  { intros db' ->. split; [auto|]. exists e. unfold firebase_same_settings.
    repeat split; auto; lia. }
  destruct (db !! id) as [ev|] eqn:Hid.
  - destruct (firebase_call_effect f db_ok id db c ev Hid)
      as [Hout|(e' & Hout & Hset & Hc & Hst & _)]; [by apply Hsame|].
    rewrite Hout. split.
    + intros k' Hnone. rewrite lookup_insert_ne; [exact Hnone|congruence].
    + destruct (decide (k = id)) as [->|Hne].
      * assert (ev = e) as -> by congruence.
        exists e'. rewrite lookup_insert_eq. tauto.
      * exists e. rewrite lookup_insert_ne by congruence.
        unfold firebase_same_settings. repeat split; auto; lia.
  - apply Hsame. by apply firebase_call_missing.
Qed.

Lemma firebase_calls_move_forward_example :
  let out := (call ConfirmCapture true "ev1" sample_collection sample_clock).1 in
  (forall k', sample_collection !! k' = None -> out.2 !! k' = None)
  ∧ exists e',
      out.2 !! "ev1" = Some e'
      ∧ ("ev1" <> "ev1" -> e' = sample_doc)
      ∧ firebase_same_settings sample_doc e'
      ∧ captureCount sample_doc <= captureCount e' <= captureCount sample_doc + 1
      ∧ ((status e' = status sample_doc
          ∧ galleryExpiresAt e' = galleryExpiresAt sample_doc)
         ∨ (status sample_doc = active ∧ status e' = expired
            ∧ exists n, galleryExpiresAt e' = Some (sample_clock n + fifteen_days))).
Proof.
  apply (firebase_calls_move_forward ConfirmCapture true "ev1" sample_collection
           sample_clock "ev1" sample_doc).
  vm_compute. reflexivity.
Defined.

(** X4. The analytics stay in step with the counter on both backends: when
    the total of an event's analytics is its capture count and the hour they
    hold is an hour of the day (0 to 23), the same holds after a run of the
    Supabase reservation handler and after a call of any of the three
    Firebase callables, whatever the outcome. *)
Theorem analytics_stay_in_step :
  (forall net now id (db : gmap string Supabase.Event) e,
     db !! id = Some e ->
     analytics_in_step (Supabase.capture_count e) (Supabase.analytics e) ->
     exists e',
       (Supabase.ReserveCapture.reserve_capture net now id db).2 !! id = Some e'
       ∧ analytics_in_step (Supabase.capture_count e') (Supabase.analytics e'))
  ∧ (forall f db_ok id (db : gmap string Event) (c : Clock) e,
       db !! id = Some e ->
       analytics_in_step (captureCount e) (analytics e) ->
       exists e',
         ((call f db_ok id db c).1).2 !! id = Some e'
         ∧ analytics_in_step (captureCount e') (analytics e')).
Proof.
  split.
  - intros net now id db e Hdb Hin.
    unfold Supabase.ReserveCapture.reserve_capture, Supabase.ReserveCapture.check_phase,
      Supabase.ReserveCapture.select_single.
    destruct (is_empty id); [by exists e|].
    destruct (Supabase.ReserveCapture.fetch_ok net); [|by exists e].
    rewrite Hdb. cbv beta iota zeta.
    destruct (negb _); [by exists e|].
    destruct (now <? _); [by exists e|].
    destruct (_ <? now).
    { unfold Supabase.ReserveCapture.update_eq_id.
      destruct (Supabase.ReserveCapture.expire_ok net); [|by exists e].
      eexists. simpl. rewrite lookup_alter_eq, Hdb. simpl.
      split; [reflexivity|]. exact Hin. }
    destruct (Supabase.photo_limit e <=? Supabase.capture_count e); [by exists e|].
    unfold Supabase.ReserveCapture.write_phase,
      Supabase.ReserveCapture.update_eq_id_capture_count.
    destruct (Supabase.ReserveCapture.update_ok net); [|by exists e].
    eexists. simpl. rewrite lookup_alter_eq, Hdb. simpl. rewrite Z.eqb_refl.
    split; [reflexivity|].
    destruct Hin as (x & Hx & Htot & _). rewrite Hx.
    destruct (Supabase.photo_limit e <=? Supabase.capture_count e + 1); simpl;
      (eexists; split; [reflexivity|]; simpl; split; [lia|];
       intros h [= <-]; apply getHours_range).
  - intros f db_ok id db c e Hdb Hin.
    destruct (firebase_call_effect f db_ok id db c e Hdb)
      as [Hout|(e' & Hout & _ & _ & _ & Hstep)]; rewrite Hout.
    + by exists e.
    + exists e'. rewrite lookup_insert_eq. split; [reflexivity|]. by apply Hstep.
Qed.

Lemma analytics_stay_in_step_example :
  (exists e',
     (Supabase.ReserveCapture.reserve_capture Supabase.ReserveCapture.reliable 5000
        "ev1" {[ "ev1" := sample_new_row ]}).2 !! "ev1" = Some e'
     ∧ analytics_in_step (Supabase.capture_count e') (Supabase.analytics e'))
  ∧ (exists e',
       ((call ReserveCapture true "ev1" {[ "ev1" := sample_new_doc ]}
           sample_clock).1).2 !! "ev1" = Some e'
       ∧ analytics_in_step (captureCount e') (analytics e')).
Proof.
  split.
  - apply (proj1 analytics_stay_in_step Supabase.ReserveCapture.reliable 5000 "ev1"
             {[ "ev1" := sample_new_row ]} sample_new_row).
    + vm_compute. reflexivity.
    + eexists. split; [reflexivity|]. split; [reflexivity|]. discriminate.
  - apply (proj2 analytics_stay_in_step ReserveCapture true "ev1"
             {[ "ev1" := sample_new_doc ]} sample_clock sample_new_doc).
    + vm_compute. reflexivity.
    + eexists. split; [reflexivity|]. split; [reflexivity|]. discriminate.
Defined.

End FirebaseCalls.

(** ** The validation of the Firebase callables *)

Section FirebaseValidation.
Import Firebase.

(** X5. [validateCapture] allows a capture exactly when, at its first
    reading of the clock, the event is active, inside its window, below its
    limit, and has a slot left once the reserved ones are counted; it gives
    a reason exactly when it refuses, and the summary it returns is always
    the one of the document it was given. *)
Theorem validateCapture_allows_iff (c : Clock) e :
  let v := (validateCapture (Some e) c).1 in
  (canCapture v = true <-> firebase_passes (c 0%nat) e)
  ∧ (canCapture v = false <-> is_Some (reason v))
  ∧ v_event v = Some (info_of e).
Proof.
  intros v. subst v. split; [|split].
  - split; [apply validateCapture_can_passes|].
    intros Hp. by rewrite (validateCapture_passes c e Hp).
  - unfold validateCapture, isEventActive, bind, new_Date, ret, refuse.
    repeat (match goal with
            | |- context [if ?b then _ else _] => destruct b
            end; simpl); split; try discriminate; try reflexivity; eauto;
      intros [x [=]].
  - unfold validateCapture, isEventActive, bind, new_Date, ret, refuse.
    repeat (match goal with
            | |- context [if ?b then _ else _] => destruct b
            end; simpl); reflexivity.
Qed.

(** X6. A draft is not told that it is not active: [validateCapture] has no
    case for it, so a reservation for a draft is refused by the dates, with
    'Event has not started yet' before the start date and with 'Event has
    ended' from then on, also inside the window; nothing is written. *)
Theorem firebase_draft_refused_by_dates (c : Clock) id (db : gmap string Event) e :
  id <> EmptyString -> db !! id = Some e -> status e = draft ->
  (reserveCapture true id db c).1
  = (Returns
       (mkResponse false None
          (Some (if c 1%nat <? startDate e
                 then "Event has not started yet" else "Event has ended"))
          (Some (info_of e))),
     db).
Proof.
  intros Hid Hdb Hst. unfold reserveCapture, callable.
  rewrite (is_empty_false _ Hid). unfold reserveCapture_tx. rewrite Hdb.
  unfold validateCapture, isEventActive, bind, new_Date, ret, rejected, refuse.
  rewrite Hst. simpl.
  destruct (c 1%nat <? startDate e); reflexivity.
Qed.

Lemma firebase_draft_refused_by_dates_example :
  (reserveCapture true "ev1" sample_draft_collection sample_clock).1
  = (Returns
       (mkResponse false None
          (Some (if sample_clock 1%nat <? startDate sample_draft
                 then "Event has not started yet" else "Event has ended"))
          (Some (info_of sample_draft))),
     sample_draft_collection).
Proof.
  apply (firebase_draft_refused_by_dates sample_clock "ev1" sample_draft_collection
           sample_draft).
  - discriminate.
  - vm_compute. reflexivity.
  - reflexivity.
Defined.

(** X7. A buffered reservation followed by its confirmation, on an event
    that passes the checks: the reservation answers with the number capture
    count + reserved count + 1, the confirmation with capture count + 1 (the
    two differ as soon as other slots are reserved); afterwards the capture
    count is one higher, the reserved count is what it was, and the two
    together are within the limit. *)
Theorem buffer_then_confirm (c : Clock) id (db : gmap string Event) e :
  id <> EmptyString -> db !! id = Some e -> firebase_passes (c 0%nat) e ->
  0 <= reservedCount e ->
  exists r1 db1 c1 r2 e2 c2,
    reserveCaptureWithBuffer true id db c = (Returns r1, db1, c1)
    ∧ confirmCapture true id db1 c1 = (Returns r2, <[id := e2]> db, c2)
    ∧ success r1 = true ∧ success r2 = true
    ∧ captureNumber r1 = Some (captureCount e + reservedCount e + 1)
    ∧ captureNumber r2 = Some (captureCount e + 1)
    ∧ captureCount e2 = captureCount e + 1
    ∧ reservedCount e2 = reservedCount e
    ∧ firebase_within_limit e2.
Proof.
  intros Hid Hdb Hp Hres.
  assert (Hbuf : exists e1,
             reserveCaptureWithBuffer true id db c
             = (Returns
                  (mkResponse true (Some (captureCount e + reservedCount e + 1)) None
                     (Some (info_of e))),
                <[id := e1]> db, fun n => c (S (S n)))
             ∧ captureCount e1 = captureCount e
             ∧ reservedCount e1 = reservedCount e + 1
             ∧ photoLimit e1 = photoLimit e).
  { unfold reserveCaptureWithBuffer, callable. rewrite (is_empty_false _ Hid).
    unfold reserveCaptureWithBuffer_tx. rewrite Hdb.
    unfold bind at 1. rewrite (validateCapture_passes c e Hp). simpl.
    unfold bind, new_Date, ret. simpl. rewrite num_or_0.
    eexists. split.
    { apply pair_equal_spec; split; [apply pair_equal_spec; split; [|reflexivity]|
                                     reflexivity].
      replace (captureCount e + (reservedCount e + 1))
        with (captureCount e + reservedCount e + 1) by lia.
      reflexivity. }
    simpl. repeat split; reflexivity. }
  destruct Hbuf as (e1 & Hrun1 & Hc1 & Hr1 & Hl1).
  destruct (confirmCapture_effect (fun n => c (S (S n))) id (<[id := e1]> db) e1 Hid
              (lookup_insert_eq _ _ _))
    as (r2 & e2 & c2 & Hrun2 & Hs2 & Hn2 & _ & Hc2 & Hr2 & Hl2 & _).
  rewrite insert_insert_eq in Hrun2.
  eexists _, _, _, r2, e2, c2. split; [exact Hrun1|]. split; [exact Hrun2|].
  destruct Hp as (_ & _ & _ & _ & Hslot). rewrite num_or_0 in Hslot.
  unfold firebase_within_limit. rewrite Hn2, Hc2, Hr2, Hl2, Hc1, Hr1, Hl1.
  repeat split; try reflexivity; try exact Hs2; lia.
Qed.

Lemma buffer_then_confirm_example :
  exists r1 db1 c1 r2 e2 c2,
    reserveCaptureWithBuffer true "ev1" sample_buffered_collection sample_clock
    = (Returns r1, db1, c1)
    ∧ confirmCapture true "ev1" db1 c1
      = (Returns r2, <[ "ev1" := e2 ]> sample_buffered_collection, c2)
    ∧ success r1 = true ∧ success r2 = true
    ∧ captureNumber r1
      = Some (captureCount sample_buffered_doc + reservedCount sample_buffered_doc + 1)
    ∧ captureNumber r2 = Some (captureCount sample_buffered_doc + 1)
    ∧ captureCount e2 = captureCount sample_buffered_doc + 1
    ∧ reservedCount e2 = reservedCount sample_buffered_doc
    ∧ firebase_within_limit e2.
Proof.
  apply (buffer_then_confirm sample_clock "ev1" sample_buffered_collection
           sample_buffered_doc).
  - discriminate.
  - vm_compute. reflexivity.
  - repeat split; vm_compute; congruence.
  - vm_compute. congruence.
Defined.

End FirebaseValidation.

(** ** The album archive: who gets a link, and what an archive holds *)

Section AlbumArchive.

#[local] Instance by_capture_number_trans :
  Transitive Supabase.GenerateAlbumZip.by_capture_number.
Proof. intros a b c. unfold Supabase.GenerateAlbumZip.by_capture_number. lia. Qed.

#[local] Instance by_capture_number_total :
  Total Supabase.GenerateAlbumZip.by_capture_number.
Proof. intros a b. unfold Supabase.GenerateAlbumZip.by_capture_number. lia. Qed.

#[local] Instance by_captureNumber_trans :
  Transitive Firebase.GenerateAlbumZip.by_captureNumber.
Proof. intros a b c. unfold Firebase.GenerateAlbumZip.by_captureNumber. lia. Qed.

#[local] Instance by_captureNumber_total :
  Total Firebase.GenerateAlbumZip.by_captureNumber.
Proof. intros a b. unfold Firebase.GenerateAlbumZip.by_captureNumber. lia. Qed.

(** Picking numbers off a list sorted by them gives a sorted list. *)
Lemma omap_sorted {A} (R : relation A) (f : A -> option Z) (key : A -> Z) l :
  (forall a x, f a = Some x -> x = key a) ->
  (forall a b, R a b -> key a <= key b) ->
  StronglySorted R l -> StronglySorted Z.le (omap f l).
Proof.
  intros Hf HR Hl. induction Hl as [|a l Hl IH Hall]; simpl; [constructor|].
  destruct (f a) as [x|] eqn:Hx; [|exact IH].
  constructor; [exact IH|].
  apply Forall_forall. intros y Hy.
  apply list_elem_of_omap in Hy. destruct Hy as (b & Hb & Hfb).
  rewrite Forall_forall in Hall.
  rewrite (Hf a x Hx), (Hf b y Hfb). apply HR. by apply Hall.
Qed.

(** X8. No archive without the event's gallery token, on either backend: a
    request for an existing event with any other token is answered without a
    link (403 'Invalid gallery token' by the edge function, permission-denied
    by the cloud function, unless an argument is empty and the request is
    refused as invalid before that), and neither builds nor stores
    anything. *)
Theorem archive_needs_gallery_token :
  (forall now id token st e,
     Supabase.events st !! id = Some e -> Supabase.gallery_token e <> token ->
     let out := Supabase.GenerateAlbumZip.generate_album_zip now id token st in
     Supabase.GenerateAlbumZip.success out.1 = false
     ∧ Supabase.GenerateAlbumZip.downloadUrl out.1 = None
     ∧ out.2 = st
     ∧ (id <> EmptyString -> token <> EmptyString ->
        Supabase.GenerateAlbumZip.http_status out.1 = 403))
  ∧ (forall (c : Firebase.Clock) id token st e,
       Firebase.GenerateAlbumZip.events st !! id = Some e ->
       Firebase.galleryToken e <> token ->
       exists code msg,
         (Firebase.GenerateAlbumZip.generateAlbumZip id token st c).1
         = (Firebase.Throws code msg, st)
         ∧ (id <> EmptyString -> token <> EmptyString -> code = "permission-denied")).
Proof.
  split.
  - intros now id token st e He Htok out. subst out.
    unfold Supabase.GenerateAlbumZip.generate_album_zip.
    destruct (is_empty id) eqn:Hi; simpl.
    { repeat split. intros Hid. by rewrite (is_empty_false _ Hid) in Hi. }
    destruct (is_empty token) eqn:Ht; simpl.
    { repeat split. intros _ Hne. by rewrite (is_empty_false _ Hne) in Ht. }
    rewrite He, (bool_decide_eq_false_2 _ Htok). simpl. repeat split.
  - intros c id token st e He Htok.
    unfold Firebase.GenerateAlbumZip.generateAlbumZip.
    destruct (is_empty id) eqn:Hi; simpl.
    { eexists _, _. split; [reflexivity|]. intros Hid.
      by rewrite (is_empty_false _ Hid) in Hi. }
    destruct (is_empty token) eqn:Ht; simpl.
    { eexists _, _. split; [reflexivity|]. intros _ Hne.
      by rewrite (is_empty_false _ Hne) in Ht. }
    rewrite He, (bool_decide_eq_false_2 _ Htok). simpl.
    eexists _, _. split; reflexivity.
Qed.

Lemma archive_needs_gallery_token_example :
  Supabase.GenerateAlbumZip.http_status
    (Supabase.GenerateAlbumZip.generate_album_zip 5000 "fresh" "guess"
       sample_backend).1 = 403
  ∧ (Supabase.GenerateAlbumZip.generate_album_zip 5000 "fresh" "guess"
       sample_backend).2 = sample_backend
  ∧ exists msg,
      (Firebase.GenerateAlbumZip.generateAlbumZip "ev1" "guess" sample_album_backend
         sample_clock).1
      = (Firebase.Throws "permission-denied" msg, sample_album_backend).
Proof.
  destruct archive_needs_gallery_token as [HS HF].
  assert (H1 : Supabase.events sample_backend !! "fresh"
               = Some (Supabase.mkEvent "B" 10 true 10 20 expired 10 0 "tb"
                         (Some 99000) None))
    by (vm_compute; reflexivity).
  assert (H2 : Firebase.GenerateAlbumZip.events sample_album_backend !! "ev1"
               = Some sample_album_event)
    by (vm_compute; reflexivity).
  pose proof (HS 5000 "fresh" "guess" sample_backend _ H1 ltac:(discriminate)) as H.
  cbv zeta in H. destruct H as (_ & _ & Hst & Hcode).
  destruct (HF sample_clock "ev1" "guess" sample_album_backend _ H2
              ltac:(discriminate)) as (code & msg & Hrun & Hcode').
  split; [apply Hcode; discriminate|]. split; [exact Hst|].
  exists msg. rewrite Hrun, Hcode' by discriminate. reflexivity.
Defined.


(** The entries of a JSZip object after a run of [zip.file] calls. *)
Lemma zip_entries_from (zip added : list Z) :
  let zip' := foldl (fun z n => Supabase.GenerateAlbumZip.zip_file n z) zip added in
  (forall k, k ∈ zip' <-> k ∈ zip ∨ k ∈ added)
  ∧ (NoDup zip -> NoDup zip')
  ∧ (length zip' <= length zip + length added)%nat
  ∧ (NoDup added -> (forall x, x ∈ added -> x ∉ zip) -> zip' = zip ++ added)
  ∧ (StronglySorted Z.lt zip -> StronglySorted Z.le added ->
     (forall a x, a ∈ zip -> x ∈ added -> a <= x) ->
     StronglySorted Z.lt zip').
Proof.
  revert zip. induction added as [|n added IH]; intros zip; simpl.
  - repeat split; auto.
    + intros [H|H]; [exact H|]. by apply elem_of_nil in H.
    + lia.
    + intros _ _. by rewrite app_nil_r.
  - destruct (IH (Supabase.GenerateAlbumZip.zip_file n zip))
      as (I1 & I2 & I3 & I4 & I5).
    unfold Supabase.GenerateAlbumZip.zip_file in *.
    destruct (bool_decide_reflect (n ∈ zip)) as [Hin|Hnin].
    + split; [|split; [|split; [|split]]].
      * intros k. rewrite I1, elem_of_cons. split; [tauto|].
        intros [H|[->|H]]; tauto.
      * exact I2.
      * lia.
      * intros Hnd Hfresh. exfalso. apply (Hfresh n); [left|exact Hin].
      * intros Hs Hl Hle. apply I5; [exact Hs|by inversion Hl|].
        intros a x Ha Hx. apply Hle; [exact Ha|by right].
    + split; [|split; [|split; [|split]]].
      * intros k. rewrite I1, elem_of_app, list_elem_of_singleton, elem_of_cons. tauto.
      * intros Hnd. apply I2. apply NoDup_app. split; [exact Hnd|]. split.
        -- intros x Hx Hx'. apply list_elem_of_singleton in Hx'. by subst x.
        -- apply NoDup_singleton.
      * rewrite length_app in I3. simpl in I3. lia.
      * intros Hnd Hfresh. apply NoDup_cons in Hnd. destruct Hnd as [Hn Hnd].
        rewrite I4, <- app_assoc; [reflexivity|exact Hnd|].
        intros x Hx Hx'. apply elem_of_app in Hx'. destruct Hx' as [Hx'|Hx'].
        -- apply (Hfresh x); [by right|exact Hx'].
        -- apply list_elem_of_singleton in Hx'. by subst x.
      * intros Hs Hl Hle. inversion Hl as [|? ? Hl' Hall]; subst.
        rewrite Forall_forall in Hall. apply I5; [|exact Hl'|].
        -- apply StronglySorted_app_2.
           ++ intros a x Ha Hx. apply list_elem_of_singleton in Hx. subst x.
              assert (a <= n) by (apply Hle; [exact Ha|left]).
              assert (a <> n) by (intros ->; contradiction). lia.
           ++ exact Hs.
           ++ repeat constructor.
        -- intros a x Ha Hx. apply elem_of_app in Ha. destruct Ha as [Ha|Ha].
           ++ apply Hle; [exact Ha|by right].
           ++ apply list_elem_of_singleton in Ha. subst a. by apply Hall.
Qed.

(** X10. The archive the edge function builds.  The n of 'ZIP created with
    n photos' counts the photos the loop added, at least one.  The archive is
    stored under the event with the instant of the request and holds one
    entry per capture number among them, in ascending order and no number
    twice: at least one entry and at most n, exactly the n added when their
    capture numbers are distinct (two rows with one capture number are
    written under one name, the later replacing the earlier).  Each entry
    comes from a capture row of this event that is marked as uploaded and
    whose object is in the photos bucket. *)
Theorem built_archive_contents now id token st n :
  let out := Supabase.GenerateAlbumZip.generate_album_zip now id token st in
  Supabase.GenerateAlbumZip.message out.1
  = Supabase.GenerateAlbumZip.ZipCreatedWith n ->
  exists added entries,
    added = Supabase.GenerateAlbumZip.add_photos
              (Supabase.GenerateAlbumZip.cloud_captures id (Supabase.captures st))
              (Supabase.photos st)
    ∧ Supabase.zips out.2 !! id = Some (Supabase.mkZip now entries)
    ∧ n = length added ∧ (0 < n)%nat
    ∧ entries <> [] ∧ (length entries <= n)%nat
    ∧ (NoDup added -> entries = added)
    ∧ StronglySorted Z.lt entries
    ∧ forall k, k ∈ entries ->
        exists cap folder file,
          cap ∈ Supabase.captures st
          ∧ Supabase.event_id cap = id
          ∧ Supabase.uploaded_to_cloud cap = true
          ∧ Supabase.capture_number cap = k
          ∧ Supabase.storage_path cap = Some (folder, file)
          ∧ file ∈ default [] (Supabase.photos st !! folder).
Proof.
  intros out. subst out.
  unfold Supabase.GenerateAlbumZip.generate_album_zip,
    Supabase.GenerateAlbumZip.createSignedUrl.
  destruct (is_empty id || is_empty token); [discriminate|].
  destruct (Supabase.events st !! id) as [e|]; [|discriminate].
  destruct (negb (bool_decide _)); [discriminate|].
  destruct (negb (Supabase.has_cloud_album e)); [discriminate|].
  destruct (status_eqb _ _); [discriminate|].
  destruct (match Supabase.gallery_expires_at e with
            | Some t => t <? now
            | None => false
            end); [discriminate|].
  destruct (Supabase.zips st !! id) as [z|]; [discriminate|].
  destruct (bool_decide _); [discriminate|].
  destruct (bool_decide (length _ = 0%nat)) eqn:Hlen; [discriminate|].
  apply bool_decide_eq_false in Hlen.
  simpl. intros [= <-].
  set (added := Supabase.GenerateAlbumZip.add_photos
                  (Supabase.GenerateAlbumZip.cloud_captures id (Supabase.captures st))
                  (Supabase.photos st)) in *.
  assert (Hsorted : StronglySorted Z.le added).
  { apply (omap_sorted Supabase.GenerateAlbumZip.by_capture_number _
             Supabase.capture_number).
    - intros a x Ha. destruct (Supabase.storage_path a) as [p|]; [|discriminate].
      destruct (Supabase.GenerateAlbumZip.downloads p _); congruence.
    - intros a b Hab. exact Hab.
    - apply StronglySorted_merge_sort; apply _. }
  destruct (zip_entries_from [] added) as (Z1 & Z2 & Z3 & Z4 & Z5).
  exists added, (Supabase.GenerateAlbumZip.zip_entries added).
  rewrite lookup_insert_eq. unfold Supabase.GenerateAlbumZip.zip_entries.
  split; [reflexivity|]. split; [reflexivity|]. split; [reflexivity|].
  split; [lia|]. split; [|split; [|split; [|split]]].
  - intros Hnil. destruct added as [|x rest]; [by apply Hlen|].
    assert (Hx : x ∈ foldl (fun z n => Supabase.GenerateAlbumZip.zip_file n z) []
                   (x :: rest)) by (apply Z1; right; left).
    rewrite Hnil in Hx. by apply elem_of_nil in Hx.
  - simpl in Z3. exact Z3.
  - intros Hnd. apply Z4; [exact Hnd|]. intros x _ Hx. by apply elem_of_nil in Hx.
  - apply Z5; [constructor|exact Hsorted|].
    intros a x Ha. by apply elem_of_nil in Ha.
  - intros k Hk. apply Z1 in Hk. destruct Hk as [Hk|Hk]; [by apply elem_of_nil in Hk|].
    unfold added, Supabase.GenerateAlbumZip.add_photos in Hk.
    apply list_elem_of_omap in Hk. destruct Hk as (cap & Hcap & Hf).
    unfold Supabase.GenerateAlbumZip.cloud_captures in Hcap.
    rewrite merge_sort_Permutation in Hcap.
    apply list_elem_of_filter in Hcap. destruct Hcap as [[Hev Hup] Hin].
    destruct (Supabase.storage_path cap) as [[folder file]|] eqn:Hp; [|discriminate].
    destruct (Supabase.GenerateAlbumZip.downloads (folder, file) (Supabase.photos st))
      eqn:Hd; [|discriminate].
    injection Hf as <-.
    exists cap, folder, file. repeat split; auto.
    + by apply Is_true_true.
    + unfold Supabase.GenerateAlbumZip.downloads in Hd.
      by apply bool_decide_eq_true in Hd.
Qed.

(** Two capture rows with the number 4 (as two overlapping reservations
    leave them): the answer counts two photos, the archive holds one. *)
Lemma built_archive_contents_example :
  exists added entries,
    added = [4; 4]
    ∧ Supabase.zips
        (Supabase.GenerateAlbumZip.generate_album_zip 5000 "ev1" "tok"
           sample_twice_backend).2 !! "ev1"
      = Some (Supabase.mkZip 5000 entries)
    ∧ entries = [4]
    ∧ StronglySorted Z.lt entries.
Proof.
  destruct (built_archive_contents 5000 "ev1" "tok" sample_twice_backend 2)
    as (added & entries & Hadded & Hzip & _ & _ & _ & _ & _ & Hsorted & _).
  - vm_compute. reflexivity.
  - exists added, entries. split; [rewrite Hadded; vm_compute; reflexivity|].
    split; [exact Hzip|]. split; [|exact Hsorted].
    assert (Hz : Supabase.zips
                   (Supabase.GenerateAlbumZip.generate_album_zip 5000 "ev1" "tok"
                      sample_twice_backend).2 !! "ev1"
                 = Some (Supabase.mkZip 5000 [4]))
      by (vm_compute; reflexivity).
    rewrite Hz in Hzip. by injection Hzip as <-.
Defined.

(** An answer of the cloud function that says an archive was created comes
    from the part of it that builds one. *)
Lemma firebase_zip_created_is_build (c : Firebase.Clock) id token st r st' n :
  (Firebase.GenerateAlbumZip.generateAlbumZip id token st c).1
  = (Firebase.Returns r, st') ->
  Firebase.GenerateAlbumZip.message r = Firebase.GenerateAlbumZip.ZipCreatedWith n ->
  exists c', (Firebase.GenerateAlbumZip.build_zip id st c').1 = (Firebase.Returns r, st').
Proof.
  intros Hret Hmsg.
  assert (Hcached : forall c2 : Firebase.Clock,
             (Firebase.bind
                (Firebase.GenerateAlbumZip.signed_response id
                   Firebase.GenerateAlbumZip.UsingCachedZip)
                (fun r => Firebase.ret (Firebase.Returns r, st)) c2).1
             = (Firebase.Returns r, st') -> False).
  { intros c2 H. unfold Firebase.GenerateAlbumZip.signed_response, Firebase.bind,
      Firebase.new_Date, Firebase.ret in H. simpl in H.
    injection H as <- _. discriminate Hmsg. }
  unfold Firebase.GenerateAlbumZip.generateAlbumZip in Hret.
  destruct (is_empty id || is_empty token); [discriminate Hret|].
  destruct (Firebase.GenerateAlbumZip.events st !! id) as [e|]; [|discriminate Hret].
  destruct (negb (bool_decide _)); [discriminate Hret|].
  destruct (negb (Firebase.hasCloudAlbum e)); [discriminate Hret|].
  destruct (status_eqb _ _); [discriminate Hret|].
  unfold Firebase.bind at 1 in Hret. unfold Firebase.new_Date at 1 in Hret.
  unfold Firebase.bind at 1 in Hret.
  destruct (Firebase.galleryExpiresAt e) as [t|].
  - unfold Firebase.ret at 1 in Hret.
    destruct (t <? c 0%nat); [discriminate Hret|].
    destruct (Firebase.GenerateAlbumZip.zips st !! id) as [z|]; [|eexists; exact Hret].
    unfold Firebase.bind at 1 in Hret.
    destruct (Firebase.GenerateAlbumZip.timeCreated z) as [created|].
    + unfold Firebase.ret at 1 in Hret.
      destruct (Firebase.GenerateAlbumZip.is_recent _ _);
        [destruct (Hcached _ Hret)|eexists; exact Hret].
    + unfold Firebase.new_Date at 1 in Hret.
      destruct (Firebase.GenerateAlbumZip.is_recent _ _);
        [destruct (Hcached _ Hret)|eexists; exact Hret].
  - unfold Firebase.new_Date at 1 in Hret.
    destruct (c 1%nat <? c 0%nat); [discriminate Hret|].
    destruct (Firebase.GenerateAlbumZip.zips st !! id) as [z|]; [|eexists; exact Hret].
    unfold Firebase.bind at 1 in Hret.
    destruct (Firebase.GenerateAlbumZip.timeCreated z) as [created|].
    + unfold Firebase.ret at 1 in Hret.
      destruct (Firebase.GenerateAlbumZip.is_recent _ _);
        [destruct (Hcached _ Hret)|eexists; exact Hret].
    + unfold Firebase.new_Date at 1 in Hret.
      destruct (Firebase.GenerateAlbumZip.is_recent _ _);
        [destruct (Hcached _ Hret)|eexists; exact Hret].
Qed.

(** X11. The archive the cloud function builds: it is stored under the
    event, it holds at least one photo, as many as the answer says, in
    ascending order of capture number, and each of them is the photo of a
    capture document of this event that is marked as uploaded and whose
    file is in the bucket. *)
Theorem firebase_built_archive_contents (c : Firebase.Clock) id token st r st' n :
  (Firebase.GenerateAlbumZip.generateAlbumZip id token st c).1
  = (Firebase.Returns r, st') ->
  Firebase.GenerateAlbumZip.message r = Firebase.GenerateAlbumZip.ZipCreatedWith n ->
  exists finished added,
    Firebase.GenerateAlbumZip.zips st' !! id
    = Some (Firebase.GenerateAlbumZip.mkZip (Some finished) added)
    ∧ length added = n ∧ (0 < n)%nat
    ∧ StronglySorted Z.le added
    ∧ forall k, k ∈ added ->
        exists cap path,
          cap ∈ default [] (Firebase.GenerateAlbumZip.captures st !! id)
          ∧ Firebase.GenerateAlbumZip.uploadedToCloud cap = true
          ∧ Firebase.GenerateAlbumZip.captureNumber cap = k
          ∧ Firebase.GenerateAlbumZip.storagePath cap = Some path
          ∧ path ∈ Firebase.GenerateAlbumZip.files st.
Proof.
  intros Hret Hmsg.
  destruct (firebase_zip_created_is_build c id token st r st' n Hret Hmsg)
    as (c' & Hbuild).
  clear Hret. unfold Firebase.GenerateAlbumZip.build_zip in Hbuild.
  destruct (bool_decide _); [discriminate Hbuild|].
  destruct (bool_decide (length _ = 0%nat)) eqn:Hlen; [discriminate Hbuild|].
  apply bool_decide_eq_false in Hlen.
  unfold Firebase.GenerateAlbumZip.signed_response, Firebase.bind, Firebase.new_Date,
    Firebase.ret in Hbuild.
  simpl in Hbuild. injection Hbuild as <- <-. simpl in Hmsg. injection Hmsg as <-.
  eexists _, _. simpl. rewrite lookup_insert_eq.
  split; [reflexivity|]. split; [reflexivity|]. split; [lia|]. split.
  - apply (omap_sorted Firebase.GenerateAlbumZip.by_captureNumber _
             Firebase.GenerateAlbumZip.captureNumber).
    + intros a x Ha.
      destruct (Firebase.GenerateAlbumZip.storagePath a) as [p|]; [|discriminate].
      destruct (bool_decide _); congruence.
    + intros a b Hab. exact Hab.
    + apply StronglySorted_merge_sort; apply _.
  - intros k Hk. unfold Firebase.GenerateAlbumZip.add_photos in Hk.
    apply list_elem_of_omap in Hk. destruct Hk as (cap & Hcap & Hf).
    unfold Firebase.GenerateAlbumZip.cloud_captures in Hcap.
    rewrite merge_sort_Permutation in Hcap.
    apply list_elem_of_filter in Hcap. destruct Hcap as [Hup Hin].
    destruct (Firebase.GenerateAlbumZip.storagePath cap) as [path|] eqn:Hp;
      [|discriminate].
    destruct (bool_decide (path ∈ Firebase.GenerateAlbumZip.files st)) eqn:Hd;
      [|discriminate].
    injection Hf as <-.
    exists cap, path. repeat split; auto.
    + by apply Is_true_true.
    + by apply bool_decide_eq_true in Hd.
Qed.

Lemma firebase_built_archive_contents_example :
  exists finished added,
    Firebase.GenerateAlbumZip.zips
      ((Firebase.GenerateAlbumZip.generateAlbumZip "ev1" "tok" sample_album_backend
          sample_late_clock).1).2 !! "ev1"
    = Some (Firebase.GenerateAlbumZip.mkZip (Some finished) added)
    ∧ length added = 1%nat ∧ (0 < 1)%nat
    ∧ StronglySorted Z.le added
    ∧ forall k, k ∈ added ->
        exists cap path,
          cap ∈ default [] (Firebase.GenerateAlbumZip.captures sample_album_backend
                              !! "ev1")
          ∧ Firebase.GenerateAlbumZip.uploadedToCloud cap = true
          ∧ Firebase.GenerateAlbumZip.captureNumber cap = k
          ∧ Firebase.GenerateAlbumZip.storagePath cap = Some path
          ∧ path ∈ Firebase.GenerateAlbumZip.files sample_album_backend.
Proof.
  assert (Hr : exists r,
             ((Firebase.GenerateAlbumZip.generateAlbumZip "ev1" "tok"
                 sample_album_backend sample_late_clock).1).1 = Firebase.Returns r
             ∧ Firebase.GenerateAlbumZip.message r
               = Firebase.GenerateAlbumZip.ZipCreatedWith 1).
  { vm_compute. eexists. split; reflexivity. }
  destruct Hr as (r & Hr & Hmsg).
  apply (firebase_built_archive_contents sample_late_clock "ev1" "tok"
           sample_album_backend r
           ((Firebase.GenerateAlbumZip.generateAlbumZip "ev1" "tok"
               sample_album_backend sample_late_clock).1).2 1); [|exact Hmsg].
  rewrite <- Hr. apply surjective_pairing.
Defined.

End AlbumArchive.

(** ** The Supabase cleanup: what a run reports and what it leaves *)

Section CleanupRun.
Import Supabase Supabase.AutoCleanup.

Lemma select_expired_NoDup now (tbl : gmap string Event) :
  NoDup (select_expired now tbl).*1.
Proof.
  unfold select_expired.
  eapply sublist_NoDup; [apply (NoDup_fst_map_to_list tbl)|].
  apply fmap_sublist, sublist_filter.
Qed.

(** What the body of the loop does to the event it is run for. *)
Lemma clean_event_own acc row :
  events (clean_event acc row).1 !! row.1 = mark_cleaned <$> events acc.1 !! row.1
  ∧ zips (clean_event acc row).1 !! row.1 = None
  ∧ filter (fun c => event_id c = row.1) (captures (clean_event acc row).1) = []
  ∧ photos (clean_event acc row).1 !! row.1
    = left_in_folder <$> photos acc.1 !! row.1.
Proof.
  destruct acc as [st s]. unfold clean_event. simpl. repeat split.
  - by rewrite lookup_alter_eq.
  - by rewrite lookup_delete_eq.
  - apply elem_of_nil_inv. intros c Hc.
    apply list_elem_of_filter in Hc. destruct Hc as [Heq Hc].
    apply list_elem_of_filter in Hc. destruct Hc as [Hne _]. contradiction.
  - unfold list_folder, remove_files, left_in_folder.
    destruct (photos st !! row.1) as [l|] eqn:Hl; simpl.
    + destruct (bool_decide_reflect (take 100 l = [])) as [Hnil|Hnil].
      * rewrite Hl. f_equal. destruct l; [reflexivity|discriminate].
      * rewrite lookup_alter_eq, Hl. reflexivity.
    + exact Hl.
Qed.

Lemma clean_fold_own l acc id :
  NoDup l.*1 -> id ∈ l.*1 ->
  events (foldl clean_event acc l).1 !! id = mark_cleaned <$> events acc.1 !! id
  ∧ zips (foldl clean_event acc l).1 !! id = None
  ∧ filter (fun c => event_id c = id) (captures (foldl clean_event acc l).1) = []
  ∧ photos (foldl clean_event acc l).1 !! id = left_in_folder <$> photos acc.1 !! id.
Proof.
  revert acc. induction l as [|row l IH]; intros acc Hnd Hin.
  - by apply elem_of_nil in Hin.
  - rewrite fmap_cons in Hnd, Hin. apply NoDup_cons in Hnd. destruct Hnd as [Hrow Hnd].
    simpl. destruct (decide (id = row.1)) as [->|Hne].
    + destruct (clean_fold_frame l (clean_event acc row) row.1 Hrow)
        as (F1 & F2 & F3 & F4).
      destruct (clean_event_own acc row) as (O1 & O2 & O3 & O4).
      rewrite F1, F2, F3, F4. repeat split; assumption.
    + apply elem_of_cons in Hin. destruct Hin as [Heq|Hin]; [contradiction|].
      destruct (IH (clean_event acc row) Hnd Hin) as (I1 & I2 & I3 & I4).
      destruct (clean_event_frame acc row id Hne) as (F1 & F2 & F3 & F4).
      rewrite I1, I2, I3, I4, F1, F2. repeat split; reflexivity.
Qed.

(** The counters of the loop after any number of turns. *)
Lemma clean_fold_summary l acc :
  NoDup l.*1 ->
  events_processed (foldl clean_event acc l).2
  = (events_processed acc.2 + length l)%nat
  ∧ events_cleaned_success (foldl clean_event acc l).2
    = (events_cleaned_success acc.2 + length l)%nat
  ∧ events_cleaned_failed (foldl clean_event acc l).2 = events_cleaned_failed acc.2
  ∧ total_zips_deleted (foldl clean_event acc l).2
    = (total_zips_deleted acc.2 + length l)%nat
  ∧ total_photos_deleted (foldl clean_event acc l).2
    = (total_photos_deleted acc.2
       + sum_list ((fun row => length (list_folder row.1 (photos acc.1))) <$> l))%nat.
Proof.
  revert acc. induction l as [|row l IH]; intros acc Hnd.
  - simpl. repeat split; lia.
  - rewrite fmap_cons in Hnd. apply NoDup_cons in Hnd. destruct Hnd as [Hrow Hnd].
    simpl. destruct (IH (clean_event acc row) Hnd) as (I1 & I2 & I3 & I4 & I5).
    rewrite I1, I2, I3, I4, I5.
    assert (Hsame : (fun r : string * Event =>
                       length (list_folder r.1 (photos (clean_event acc row).1))) <$> l
                    = (fun r => length (list_folder r.1 (photos acc.1))) <$> l).
    { apply list_fmap_ext. intros i r Hr.
      assert (Hne : r.1 <> row.1).
      { intros Heq. apply Hrow. rewrite <- Heq.
        apply list_elem_of_fmap. exists r. split; [reflexivity|].
        by eapply list_elem_of_lookup_2. }
      destruct (clean_event_frame acc row r.1 Hne) as (_ & F2 & _).
      unfold list_folder. by rewrite F2. }
    rewrite Hsame. destruct acc as [st s]. unfold clean_event. simpl.
    repeat split; try lia.
    destruct (bool_decide_reflect (list_folder row.1 (photos st) = [])) as [->|_];
      simpl; rewrite ?Nat.add_0_r, <- ?Nat.add_assoc; reflexivity.
Qed.

(** X12. What a run of the edge function reports: every event it selected
    is counted as processed and as cleaned, none as failed; the count of
    deleted archives is the count of events, whether or not an archive was
    there; the count of deleted photos adds up what the listing of each
    event's folder returned, one hundred objects at most per event; and the
    summary is appended, once, to the cleanup log. *)
Theorem cleanup_summary now st :
  let out := auto_cleanup now st in
  let due := select_expired now (events st) in
  events_processed out.1 = length due
  ∧ events_cleaned_success out.1 = length due
  ∧ events_cleaned_failed out.1 = 0%nat
  ∧ total_zips_deleted out.1 = length due
  ∧ total_photos_deleted out.1
    = sum_list ((fun row => length (list_folder row.1 (photos st))) <$> due)
  ∧ (total_photos_deleted out.1 <= length due * 100)%nat
  ∧ cleanup_logs out.2 = cleanup_logs st ++ [out.1].
Proof.
  intros out due. subst out due. unfold auto_cleanup.
  pose proof (clean_fold_summary (select_expired now (events st)) (st, no_work)
                (select_expired_NoDup now (events st))) as (S1 & S2 & S3 & S4 & S5).
  pose proof (clean_fold_logs (select_expired now (events st)) (st, no_work)) as Hlogs.
  destruct (foldl clean_event (st, no_work) (select_expired now (events st)))
    as [st' s]. cbn [fst snd no_work events_processed events_cleaned_success
                       events_cleaned_failed total_zips_deleted total_photos_deleted
                       cleanup_logs] in *.
  rewrite S1, S2, S3, S4, S5, Hlogs. repeat split.
  generalize (select_expired now (events st)). intros l.
  induction l as [|row l IH]; [simpl; lia|].
  rewrite fmap_cons. cbn [sum_list sum_list_with length]. unfold id at 1.
  rewrite Nat.mul_succ_l.
  pose proof (firstn_le_length 100 (default [] (photos st !! row.1))) as Hle.
  unfold list_folder at 1. cbn [Nat.add] in *. lia.
Qed.

(** X13. What a run leaves of an event that was due: its row says cleaned
    and is otherwise as it was, it has no archive and no capture rows, and
    of its folder in the photos bucket only what the listing did not return
    is left, which is nothing when the folder held one hundred objects or
    fewer. *)
Theorem cleanup_completes now st id e :
  events st !! id = Some e -> cleanup_due now e ->
  let out := (auto_cleanup now st).2 in
  events out !! id = Some (apply_update_status cleaned e)
  ∧ zips out !! id = None
  ∧ filter (fun c => event_id c = id) (captures out) = []
  ∧ photos out !! id = left_in_folder <$> photos st !! id
  ∧ (forall l, photos st !! id = Some l -> (length l <= 100)%nat ->
     photos out !! id = Some []).
Proof.
  intros He Hdue out. subst out. unfold auto_cleanup.
  assert (Hin : id ∈ (select_expired now (events st)).*1).
  { apply list_elem_of_fmap. exists (id, e). split; [reflexivity|].
    apply select_expired_elem. split; [exact He|]. by apply is_due_cleanup_due. }
  pose proof (clean_fold_own (select_expired now (events st)) (st, no_work) id
                (select_expired_NoDup now (events st)) Hin) as (O1 & O2 & O3 & O4).
  destruct (foldl clean_event (st, no_work) (select_expired now (events st)))
    as [st' s]. simpl in *.
  rewrite O1, O2, O3, O4, He. repeat split.
  intros l Hl Hlen. rewrite Hl. simpl. f_equal. unfold left_in_folder.
  rewrite take_ge by exact Hlen.
  apply elem_of_nil_inv. intros f Hf.
  apply list_elem_of_filter in Hf. destruct Hf as [Hnot Hf]. contradiction.
Qed.

Lemma cleanup_completes_example :
  let out := (auto_cleanup 5000 sample_backend).2 in
  events out !! "old"
  = Some (apply_update_status cleaned
            (Supabase.mkEvent "A" 10 true 10 20 expired 10 0 "ta" (Some 100) None))
  ∧ zips out !! "old" = None
  ∧ filter (fun c => event_id c = "old") (captures out) = []
  ∧ photos out !! "old" = left_in_folder <$> photos sample_backend !! "old"
  ∧ (forall l, photos sample_backend !! "old" = Some l -> (length l <= 100)%nat ->
     photos out !! "old" = Some []).
Proof.
  apply (cleanup_completes 5000 sample_backend "old"
           (Supabase.mkEvent "A" 10 true 10 20 expired 10 0 "ta" (Some 100) None)).
  - vm_compute. reflexivity.
  - split; [reflexivity|]. exists 100. split; [reflexivity|]. vm_compute. reflexivity.
Defined.

End CleanupRun.

(** ** The web runtime: the lightbox of the gallery *)

Section Lightbox.
Import Web.

Lemma nextImage_in_range n i :
  0 <= i < n -> nextImage n (Some (Idx i)) = Some (Idx ((i + 1) mod n)).
Proof.
  intros Hi. unfold nextImage, js_rem.
  destruct (Z.eqb_spec n 0); [lia|].
  rewrite Z.rem_mod_nonneg by lia. reflexivity.
Qed.

Lemma prevImage_in_range n i :
  0 <= i < n -> prevImage n (Some (Idx i)) = Some (Idx ((i - 1) mod n)).
Proof.
  intros Hi. unfold prevImage. do 2 f_equal.
  destruct (Z.eqb_spec i 0) as [->|Hne].
  - apply (Z.mod_unique_pos _ _ (-1)); lia.
  - symmetry. apply Z.mod_small. lia.
Qed.

Lemma handleKeyDown_ok n key s : lightbox_ok n s -> lightbox_ok n (handleKeyDown n key s).
Proof.
  destruct s as [[i|]|]; [|contradiction|trivial].
  intros Hi. destruct key; cbn [handleKeyDown closeImage].
  - exact I.
  - rewrite (nextImage_in_range n i Hi). simpl. apply Z.mod_pos_bound.
    simpl in Hi. lia.
  - rewrite (prevImage_in_range n i Hi). simpl. apply Z.mod_pos_bound.
    simpl in Hi. lia.
  - exact Hi.
Qed.

(** X14. Whatever keys are pressed, the lightbox of a gallery stays closed
    or on an image of the gallery: from a selection that is an index into
    the captures, every sequence of Escape, ArrowRight, ArrowLeft and other
    keys leaves it closed or on an index for which the page has a capture
    to show; the index is never out of range and never NaN. *)
Theorem lightbox_stays_in_range {A} (captures : list A) keys s :
  lightbox_ok (Z.of_nat (length captures)) s ->
  lightbox_ok (Z.of_nat (length captures))
    (press_all (Z.of_nat (length captures)) keys s)
  ∧ (press_all (Z.of_nat (length captures)) keys s <> None ->
     is_Some (shown captures (press_all (Z.of_nat (length captures)) keys s))).
Proof.
  intros Hs.
  assert (Hok : lightbox_ok (Z.of_nat (length captures))
                  (press_all (Z.of_nat (length captures)) keys s)).
  { revert s Hs. unfold press_all.
    induction keys as [|key keys IH]; intros s Hs; simpl; [exact Hs|].
    apply IH. by apply handleKeyDown_ok. }
  split; [exact Hok|]. intros Hopen.
  destruct (press_all (Z.of_nat (length captures)) keys s) as [[i|]|];
    simpl in *; [|contradiction|congruence].
  destruct (Z.ltb_spec i 0); [lia|].
  apply lookup_lt_is_Some. lia.
Qed.

Lemma lightbox_stays_in_range_example :
  lightbox_ok (Z.of_nat (length [10; 20; 30]))
    (press_all (Z.of_nat (length [10; 20; 30]))
       [ArrowRight; ArrowRight; ArrowLeft; OtherKey] (Some (Idx 2)))
  ∧ (press_all (Z.of_nat (length [10; 20; 30]))
       [ArrowRight; ArrowRight; ArrowLeft; OtherKey] (Some (Idx 2)) <> None ->
     is_Some (shown [10; 20; 30]
                (press_all (Z.of_nat (length [10; 20; 30]))
                   [ArrowRight; ArrowRight; ArrowLeft; OtherKey] (Some (Idx 2))))).
Proof.
  apply (lightbox_stays_in_range [10; 20; 30]
           [ArrowRight; ArrowRight; ArrowLeft; OtherKey] (Some (Idx 2))).
  simpl. lia.
Defined.

Lemma press_right n i k :
  0 <= i < n ->
  press n ArrowRight k (Some (Idx i)) = Some (Idx ((i + Z.of_nat k) mod n)).
Proof.
  intros Hi. unfold press. induction k as [|k IH].
  - simpl. rewrite Z.add_0_r, Z.mod_small by lia. reflexivity.
  - rewrite Nat.iter_succ, IH. cbn [handleKeyDown].
    rewrite nextImage_in_range by (apply Z.mod_pos_bound; lia).
    rewrite Zplus_mod_idemp_l. do 3 f_equal. lia.
Qed.

Lemma press_left n i k :
  0 <= i < n ->
  press n ArrowLeft k (Some (Idx i)) = Some (Idx ((i - Z.of_nat k) mod n)).
Proof.
  intros Hi. unfold press. induction k as [|k IH].
  - simpl. rewrite Z.sub_0_r, Z.mod_small by lia. reflexivity.
  - rewrite Nat.iter_succ, IH. cbn [handleKeyDown].
    rewrite prevImage_in_range by (apply Z.mod_pos_bound; lia).
    rewrite Zminus_mod_idemp_l. do 3 f_equal. lia.
Qed.

(** X15. In a gallery of n images the two arrow keys undo each other, and n
    presses of either one bring the lightbox back to the image it was on:
    next wraps from the last image to the first, previous from the first to
    the last. *)
Theorem lightbox_arrows_cycle n i :
  0 <= i < n ->
  prevImage n (nextImage n (Some (Idx i))) = Some (Idx i)
  ∧ nextImage n (prevImage n (Some (Idx i))) = Some (Idx i)
  ∧ press n ArrowRight (Z.to_nat n) (Some (Idx i)) = Some (Idx i)
  ∧ press n ArrowLeft (Z.to_nat n) (Some (Idx i)) = Some (Idx i)
  ∧ nextImage n (Some (Idx (n - 1))) = Some (Idx 0)
  ∧ prevImage n (Some (Idx 0)) = Some (Idx (n - 1)).
Proof.
  intros Hi. repeat split.
  - rewrite nextImage_in_range, prevImage_in_range
      by (try apply Z.mod_pos_bound; lia).
    rewrite Zminus_mod_idemp_l. replace (i + 1 - 1) with i by lia.
    rewrite Z.mod_small by lia. reflexivity.
  - rewrite prevImage_in_range, nextImage_in_range
      by (try apply Z.mod_pos_bound; lia).
    rewrite Zplus_mod_idemp_l. replace (i - 1 + 1) with i by lia.
    rewrite Z.mod_small by lia. reflexivity.
  - rewrite press_right by exact Hi. rewrite Z2Nat.id by lia.
    replace (i + n) with (i + 1 * n) by lia.
    rewrite Z_mod_plus_full, Z.mod_small by lia. reflexivity.
  - rewrite press_left by exact Hi. rewrite Z2Nat.id by lia.
    replace (i - n) with (i + (-1) * n) by lia.
    rewrite Z_mod_plus_full, Z.mod_small by lia. reflexivity.
  - rewrite nextImage_in_range by lia. replace (n - 1 + 1) with n by lia.
    rewrite Z_mod_same_full. reflexivity.
Qed.

Lemma lightbox_arrows_cycle_example :
  prevImage 5 (nextImage 5 (Some (Idx 4))) = Some (Idx 4)
  ∧ nextImage 5 (prevImage 5 (Some (Idx 4))) = Some (Idx 4)
  ∧ press 5 ArrowRight (Z.to_nat 5) (Some (Idx 4)) = Some (Idx 4)
  ∧ press 5 ArrowLeft (Z.to_nat 5) (Some (Idx 4)) = Some (Idx 4)
  ∧ nextImage 5 (Some (Idx (5 - 1))) = Some (Idx 0)
  ∧ prevImage 5 (Some (Idx 0)) = Some (Idx (5 - 1)).
Proof. apply (lightbox_arrows_cycle 5 4). lia. Defined.

End Lightbox.

(** ** The web runtime against the edge functions *)

Section ClientAndServer.
Import Web.




(** X17. The camera page after the reservation it asks of the Firebase
    callable.  When the callable throws or answers without success, the page
    shows an error, uploads nothing and keeps its event.  When the
    reservation goes through (the document passes, the transaction is
    carried out): if the event has no cloud album, or the upload goes
    through, the page shows no error and its event takes the capture count
    and the status of the document as the reservation left it, so that after
    the last slot the capture button is disabled whatever the clock reads;
    if the event has the cloud album and the upload throws, the page shows
    the error and keeps its event as it was, one capture behind the
    document, and the capture button stays enabled inside the window, also
    when the reservation was the last one and the document is expired. *)
Theorem client_follows_reservation :
  (forall db_ok id (db : gmap string Firebase.Event) (c : Firebase.Clock)
          upload_error event,
     let out := (Firebase.reserveCapture db_ok id db c).1 in
     (forall r, out.1 = Firebase.Returns r -> Firebase.success r = false) ->
     let after := after_reservation out.1 upload_error event in
     is_Some (error_shown after)
     ∧ upload after = NotAttempted
     ∧ event_kept after = event)
  ∧ (forall id (db : gmap string Firebase.Event) (c : Firebase.Clock) doc upload_error,
       id <> EmptyString -> db !! id = Some doc -> firebase_passes (c 0%nat) doc ->
       0 <= Firebase.captureCount doc ->
       let out := (Firebase.reserveCapture true id db c).1 in
       let after := after_reservation out.1 upload_error (eventFromDoc id doc) in
       exists doc',
         out.2 !! id = Some doc'
         ∧ Firebase.captureCount doc' = Firebase.captureCount doc + 1
         ∧ (Firebase.photoLimit doc <= Firebase.captureCount doc + 1 ->
            Firebase.status doc' = expired)
         ∧ (Firebase.hasCloudAlbum doc = false ∨ upload_error = None ->
            error_shown after = None
            ∧ upload after
              = (if Firebase.hasCloudAlbum doc
                 then Uploaded (Firebase.captureCount doc + 1) else NotAttempted)
            ∧ captureCount (event_kept after) = Firebase.captureCount doc'
            ∧ status (event_kept after) = Firebase.status doc'
            ∧ (Firebase.photoLimit doc <= Firebase.captureCount doc + 1 ->
               forall later isStreaming capturing,
                 capture_disabled later (Some (event_kept after)) isStreaming capturing
                 = true))
         ∧ (Firebase.hasCloudAlbum doc = true ->
            forall message, upload_error = Some message ->
              is_Some (error_shown after)
              ∧ upload after = UploadFailed (Firebase.captureCount doc + 1)
              ∧ event_kept after = eventFromDoc id doc
              ∧ captureCount (event_kept after) + 1 = Firebase.captureCount doc'
              ∧ (forall later,
                   Firebase.startDate doc <= later -> later <= Firebase.endDate doc ->
                   capture_disabled later (Some (event_kept after)) true false
                   = false))).
Proof.
  split.
  - intros db_ok id db c upload_error event out Hfail after. subst after.
    unfold after_reservation, reserveCapture.
    destruct out.1 as [r|code message]; simpl.
    + rewrite (Hfail r eq_refl). simpl. repeat split; eauto.
    + repeat split; eauto.
  - intros id db c doc upload_error Hid Hdb Hp Hcount out after. subst after out.
    destruct (reserveCapture_carried_out c id db doc Hid Hdb Hp)
      as (r & doc' & c' & Hrun & Hs & Hn & Hev & Hc' & _ & Hl & Hexp & _).
    rewrite Hrun. cbn [fst snd]. rewrite lookup_insert_eq.
    exists doc'. split; [reflexivity|]. split; [exact Hc'|].
    split; [intros Hlast; exact (proj1 (Hexp Hlast))|].
    unfold after_reservation, reserveCapture. rewrite Hs, Hn, Hev. cbn [negb].
    destruct (Z.eqb_spec (Firebase.captureCount doc + 1) 0); [lia|].
    cbn [negb eventFromDoc hasCloudAlbum]. rewrite andb_true_r.
    split.
    + intros Hup.
      assert (Hkept : forall u,
                 (if Firebase.hasCloudAlbum doc
                  then match upload_error with
                       | Some message =>
                         mkAfterCapture
                           (Some (str_or message "Error al capturar la foto"))
                           (UploadFailed (Firebase.captureCount doc + 1))
                           (eventFromDoc id doc)
                       | None =>
                         mkAfterCapture None (Uploaded (Firebase.captureCount doc + 1)) u
                       end
                  else mkAfterCapture None NotAttempted u)
                 = mkAfterCapture None
                     (if Firebase.hasCloudAlbum doc
                      then Uploaded (Firebase.captureCount doc + 1) else NotAttempted)
                     u).
      { intros u. destruct (Firebase.hasCloudAlbum doc); [|reflexivity].
        destruct Hup as [Hup| ->]; [discriminate|reflexivity]. }
      rewrite Hkept. simpl.
      split; [reflexivity|]. split; [reflexivity|]. split; [reflexivity|].
      split; [reflexivity|].
      intros Hlast later isStreaming capturing.
      unfold capture_disabled, hasReachedLimit. simpl. rewrite Hc'.
      destruct (Z.leb_spec (Firebase.photoLimit doc) (Firebase.captureCount doc + 1));
        [|lia].
      by rewrite !orb_true_r.
    + intros Halbum message ->. rewrite Halbum. simpl.
      split; [eauto|]. split; [reflexivity|]. split; [reflexivity|].
      split; [lia|].
      intros later Hstart Hend.
      destruct Hp as (Hst & _ & _ & Hlim & _).
      unfold isEventActive, hasReachedLimit. simpl. rewrite Hst, status_eqb_refl.
      destruct (Z.leb_spec (Firebase.startDate doc) later); [|lia].
      destruct (Z.leb_spec later (Firebase.endDate doc)); [|lia].
      destruct (Z.leb_spec (Firebase.photoLimit doc) (Firebase.captureCount doc));
        [lia|reflexivity].
Qed.

(** The last slot of the sample event with the cloud album, the upload
    refused: the document is full and expired, the page still counts nine
    and offers the capture. *)
Lemma client_follows_reservation_example :
  Firebase.status
  <$> ((Firebase.reserveCapture true "ev1" {[ "ev1" := sample_album_last_doc ]}
          sample_clock).1).2 !! "ev1"
  = Some expired
  ∧ captureCount
      (event_kept
         (after_reservation
            ((Firebase.reserveCapture true "ev1" {[ "ev1" := sample_album_last_doc ]}
                sample_clock).1).1
            (Some "storage/unauthorized")
            (eventFromDoc "ev1" sample_album_last_doc)))
    = 9
  ∧ capture_disabled 6000
      (Some (event_kept
               (after_reservation
                  ((Firebase.reserveCapture true "ev1"
                      {[ "ev1" := sample_album_last_doc ]} sample_clock).1).1
                  (Some "storage/unauthorized")
                  (eventFromDoc "ev1" sample_album_last_doc))))
      true false
    = false.
Proof.
  assert (Hdb : ({[ "ev1" := sample_album_last_doc ]} : gmap string Firebase.Event)
                !! "ev1" = Some sample_album_last_doc)
    by (vm_compute; reflexivity).
  assert (Hp : firebase_passes (sample_clock 0%nat) sample_album_last_doc)
    by (repeat split; vm_compute; congruence).
  pose proof (proj2 client_follows_reservation "ev1"
                {[ "ev1" := sample_album_last_doc ]} sample_clock
                sample_album_last_doc
                (Some "storage/unauthorized")
                ltac:(discriminate) Hdb Hp ltac:(vm_compute; congruence)) as H.
  cbv zeta in H. destruct H as (doc' & Hdoc' & _ & Hexp & _ & Hfail).
  destruct (Hfail eq_refl _ eq_refl) as (_ & _ & Hkept & _ & Hbutton).
  split; [|split].
  - rewrite Hdoc'. simpl. f_equal. apply Hexp. vm_compute. congruence.
  - rewrite Hkept. reflexivity.
  - apply Hbutton; vm_compute; congruence.
Defined.

(** X18. The gallery page never shows 'Esta galería ha sido archivada': the
    events table is read under the policy that shows active and expired rows
    only, so a cleaned event, like a draft, is answered with 'Galería no
    encontrada', and the check for the cleaned status that follows can never
    hold. *)
Theorem archived_message_unreachable ok now token st :
  loadGallery ok now token st <> GalleryError "Esta galería ha sido archivada"
  ∧ (forall row,
       token <> EmptyString -> Supabase.events st !! token = Some row ->
       Supabase.status row = cleaned ∨ Supabase.status row = draft ->
       loadGallery ok now token st = GalleryError "Galería no encontrada").
Proof.
  unfold loadGallery, getEventById. split.
  - destruct (is_empty token); [discriminate|].
    destruct ok; [|discriminate].
    destruct (Supabase.events st !! token) as [row|]; [|discriminate].
    unfold publicly_readable.
    destruct (Supabase.status row) eqn:Hst; simpl; try discriminate;
      unfold mapEventFromDB; simpl; rewrite Hst; simpl;
      destruct (Supabase.gallery_expires_at row) as [t|]; try discriminate;
      destruct (t <? now); discriminate.
  - intros row Htok Hrow Hst. rewrite (is_empty_false _ Htok).
    destruct ok; [|reflexivity]. rewrite Hrow. unfold publicly_readable.
    destruct Hst as [-> | ->]; reflexivity.
Qed.

Lemma archived_message_unreachable_example :
  loadGallery true 5000 "gone" sample_backend = GalleryError "Galería no encontrada".
Proof.
  apply (proj2 (archived_message_unreachable true 5000 "gone" sample_backend)
           (Supabase.mkEvent "C" 10 true 10 20 cleaned 10 0 "tc" (Some 50) None)).
  - discriminate.
  - vm_compute. reflexivity.
  - left. reflexivity.
Defined.

(** X19. From a gallery the page has loaded, the request for the album is
    a valid one: the page sends the id and the gallery token of the row it
    read, so for an event with the cloud album and a non-empty token the
    request at that instant passes every check of the edge function; the
    page opens a link when an archive is stored or at least one of the
    captures it lists has its photo in the bucket, and shows an error when
    neither is the case. *)
Theorem gallery_download now token st event captures :
  loadGallery true now token st = GalleryLoaded event captures ->
  hasCloudAlbum event = true -> galleryToken event <> EmptyString ->
  supabase_zip_request_ok now (id event) (galleryToken event) st
  ∧ id event = token
  ∧ captures = Supabase.GenerateAlbumZip.cloud_captures token (Supabase.captures st)
  ∧ (is_Some (Supabase.zips st !! token)
     ∨ Supabase.GenerateAlbumZip.add_photos captures (Supabase.photos st) <> [] ->
     (handleDownloadZip now event st).1
     = inr (Supabase.GenerateAlbumZip.mkSignedUrl token 86400))
  ∧ (Supabase.zips st !! token = None ->
     Supabase.GenerateAlbumZip.add_photos captures (Supabase.photos st) = [] ->
     (handleDownloadZip now event st).1
     = inl (Supabase.GenerateAlbumZip.Text
              "Edge Function returned a non-2xx status code")
     ∧ (handleDownloadZip now event st).2 = st).
Proof.
  intros Hload Halbum Htok.
  unfold loadGallery, getEventById in Hload.
  destruct (is_empty token) eqn:Hempty; [discriminate|].
  destruct (Supabase.events st !! token) as [row|] eqn:Hrow; [|discriminate].
  destruct (publicly_readable row) eqn:Hread; [|discriminate].
  destruct (status_eqb (status (mapEventFromDB token row)) cleaned) eqn:Hcl;
    [discriminate|].
  destruct (match galleryExpiresAt (mapEventFromDB token row) with
            | Some t => t <? now
            | None => false
            end) eqn:Hexp; [discriminate|].
  injection Hload as <- <-.
  unfold getEventCaptures. simpl id. rewrite Hrow, Hread.
  assert (Hok : supabase_zip_request_ok now token (Supabase.gallery_token row) st).
  { unfold supabase_zip_request_ok. split.
    - intros ->. discriminate Hempty.
    - split; [exact Htok|]. exists row. repeat split; auto.
      + by apply status_eqb_false in Hcl.
      + intros t Ht. simpl in Hexp. rewrite Ht in Hexp. by apply Z.ltb_ge. }
  split; [exact Hok|]. split; [reflexivity|]. split; [reflexivity|].
  unfold handleDownloadZip. simpl id. simpl galleryToken.
  rewrite (supabase_zip_validated now token (Supabase.gallery_token row) st Hok).
  unfold Supabase.GenerateAlbumZip.createSignedUrl.
  split.
  - intros Hsome.
    destruct (Supabase.zips st !! token) as [z|] eqn:Hz; [reflexivity|].
    destruct Hsome as [[z Hz']|Hadded]; [discriminate|].
    cbv zeta.
    destruct (bool_decide_reflect
                (Supabase.GenerateAlbumZip.cloud_captures token (Supabase.captures st)
                 = [])) as [Hnil|Hnil].
    { rewrite Hnil in Hadded. contradiction. }
    destruct (bool_decide_reflect
                (length (Supabase.GenerateAlbumZip.add_photos
                           (Supabase.GenerateAlbumZip.cloud_captures token
                              (Supabase.captures st)) (Supabase.photos st)) = 0%nat))
      as [Hlen|Hlen].
    { apply length_zero_iff_nil in Hlen. contradiction. }
    simpl. rewrite lookup_insert_eq. reflexivity.
  - intros Hz Hadded. rewrite Hz. cbv zeta. rewrite Hadded.
    destruct (bool_decide _); simpl; split; reflexivity.
Qed.

Lemma gallery_download_example :
  (handleDownloadZip 5000 sample_gallery_event sample_backend_without_zips).1
  = inr (Supabase.GenerateAlbumZip.mkSignedUrl "fresh" 86400).
Proof.
  destruct (gallery_download 5000 "fresh" sample_backend_without_zips
              sample_gallery_event
              [ Supabase.mkCapture "fresh" 1 (Some ("fresh", "1_16.jpg")) true ])
    as (_ & _ & _ & Hlink & _).
  - vm_compute. reflexivity.
  - reflexivity.
  - discriminate.
  - apply Hlink. right. vm_compute. discriminate.
Defined.

End ClientAndServer.

(** ** The Firebase cleanup job *)

Section FirebaseCleanupJob.
Import Firebase FirebaseCleanup.

Lemma later_refl c : later c c.
Proof. exists 0%nat. intros n. by rewrite Nat.add_0_r. Qed.

Lemma later_tail c c' : later c c' -> later c (fun n => c' (S n)).
Proof.
  intros [k Hk]. exists (S k). intros n. rewrite Hk. f_equal. lia.
Qed.

Lemma later_trans c c' c'' : later c c' -> later c' c'' -> later c c''.
Proof.
  intros [k Hk] [j Hj]. exists (j + k)%nat. intros n. rewrite Hj, Hk. f_equal. lia.
Qed.

(** The batch loop of the job on a subcollection. *)
Lemma queue_deletes_spec docs b d :
  (b < 500)%nat ->
  queue_deletes docs b false d
  = if decide (b + length docs < 500)%nat then (false, (b + length docs)%nat, d)
    else if decide (b + length docs = 500)%nat then (false, 0%nat, (d + 500)%nat)
    else (true, 0%nat, (d + 500)%nat).
Proof.
  revert b. induction docs as [|x rest IH]; intros b Hb.
  - cbn [queue_deletes length]. rewrite Nat.add_0_r.
    destruct (decide (b < 500)%nat); [reflexivity|lia].
  - cbn [queue_deletes length].
    destruct (Nat.leb_spec 500 (S b)) as [Hfull|Hroom].
    + assert (S b = 500)%nat as -> by lia.
      destruct (decide (b + S (length rest) < 500)%nat); [lia|].
      destruct rest as [|y rest'].
      * cbn [queue_deletes length].
        destruct (decide (b + 1 = 500)%nat); [reflexivity|lia].
      * cbn [queue_deletes length].
        destruct (decide (b + S (S (length rest')) = 500)%nat); [lia|reflexivity].
    + rewrite (IH (S b)) by lia.
      replace (S b + length rest)%nat with (b + S (length rest))%nat by lia.
      reflexivity.
Qed.

Lemma delete_captures_spec docs :
  delete_captures docs = (drop 500 docs, bool_decide (500 < length docs)%nat).
Proof.
  unfold delete_captures. rewrite queue_deletes_spec by lia.
  change (0 + length docs)%nat with (length docs).
  destruct (decide (length docs < 500)%nat) as [Hlt|Hge].
  - rewrite bool_decide_eq_false_2 by lia.
    destruct (Nat.ltb_spec 0 (length docs)).
    + rewrite !drop_ge by lia. reflexivity.
    + rewrite !drop_ge by lia. reflexivity.
  - destruct (decide (length docs = 500)%nat) as [Heq|Hne].
    + rewrite bool_decide_eq_false_2 by lia. reflexivity.
    + rewrite bool_decide_eq_true_2 by lia. reflexivity.
Qed.

(** The clock a turn of the loop leaves. *)
Lemma clean_event_later now acc doc (c : Clock) :
  later c (clean_event now acc doc c).2.
Proof.
  destruct acc as [st s], doc as [eventId event].
  unfold clean_event, shouldCleanGallery, bind, new_Date, ret.
  destruct (negb (status_eqb (status event) expired)); simpl.
  - apply later_refl.
  - destruct (match galleryExpiresAt event with
              | Some t => t <? c 0%nat
              | None => false
              end); simpl.
    + destruct (delete_captures _); apply later_tail, later_refl.
    + apply later_tail, later_refl.
Qed.

(** A turn of the loop for one event leaves the documents, the capture
    documents and the archive of every other event as they were. *)
Lemma firebase_clean_event_frame now acc doc (c : Clock) k :
  k <> doc.1 ->
  let st' := (clean_event now acc doc c).1.1 in
  GenerateAlbumZip.events (store st') !! k = GenerateAlbumZip.events (store acc.1) !! k
  ∧ GenerateAlbumZip.captures (store st') !! k
    = GenerateAlbumZip.captures (store acc.1) !! k
  ∧ GenerateAlbumZip.zips (store st') !! k = GenerateAlbumZip.zips (store acc.1) !! k.
Proof.
  intros Hne. destruct acc as [st s], doc as [eventId event]. simpl in Hne.
  unfold clean_event, bind, ret.
  destruct (shouldCleanGallery event c) as [[|] c1]; simpl; [|repeat split].
  destruct (delete_captures _) as [left threw]. simpl.
  rewrite !lookup_alter_ne, lookup_delete_ne by congruence. repeat split.
Qed.

(** A turn of the loop for an event that is not due changes nothing. *)
Lemma firebase_clean_event_not_due now acc id e (c : Clock) :
  (shouldCleanGallery e c).1 = false ->
  (clean_event now acc (id, e) c).1.1 = acc.1.
Proof.
  intros Hdue. destruct acc as [st s]. unfold clean_event, bind, ret.
  destruct (shouldCleanGallery e c) as [due c1]. simpl in Hdue. subst due.
  reflexivity.
Qed.

(** What never comes back: files, and the records of errors. *)
Lemma firebase_clean_event_mono now acc doc (c : Clock) :
  let r := (clean_event now acc doc c).1 in
  GenerateAlbumZip.files (store r.1) ⊆ GenerateAlbumZip.files (store acc.1)
  ∧ (forall x, x ∈ cleanup_errors acc.1 -> x ∈ cleanup_errors r.1)
  ∧ (eventsCleanedFailed acc.2 <= eventsCleanedFailed r.2)%nat
  ∧ eventsProcessed r.2 = S (eventsProcessed acc.2)
  ∧ timestamp r.2 = timestamp acc.2
  ∧ cleanup_logs r.1 = cleanup_logs acc.1.
Proof.
  destruct acc as [st s], doc as [eventId event].
  unfold clean_event, bind, ret.
  destruct (shouldCleanGallery event c) as [[|] c1]; simpl.
  - assert (Hfiles : forall X Y : gset string, X ∖ Y ⊆ X).
    { intros X Y x Hx. apply elem_of_difference in Hx. tauto. }
    destruct (delete_captures _) as [left [|]]; simpl;
      repeat split; auto; try lia.
    intros x Hx. apply elem_of_app. by left.
  - repeat split; auto.
Qed.

Lemma for_each_mono now docs acc (c : Clock) :
  let r := (for_each now docs acc c).1 in
  GenerateAlbumZip.files (store r.1) ⊆ GenerateAlbumZip.files (store acc.1)
  ∧ (forall x, x ∈ cleanup_errors acc.1 -> x ∈ cleanup_errors r.1)
  ∧ (eventsCleanedFailed acc.2 <= eventsCleanedFailed r.2)%nat
  ∧ eventsProcessed r.2 = (eventsProcessed acc.2 + length docs)%nat
  ∧ timestamp r.2 = timestamp acc.2
  ∧ cleanup_logs r.1 = cleanup_logs acc.1.
Proof.
  revert acc c. induction docs as [|doc rest IH]; intros acc c; cbn [for_each].
  - unfold ret. simpl. repeat split; auto; lia.
  - unfold bind.
    pose proof (firebase_clean_event_mono now acc doc c)
      as (M1 & M2 & M3 & M4 & M5 & M6).
    destruct (clean_event now acc doc c) as [acc' c'].
    destruct (IH acc' c') as (I1 & I2 & I3 & I4 & I5 & I6).
    cbn [fst snd length] in *. repeat split.
    + etrans; eassumption.
    + auto.
    + lia.
    + lia.
    + congruence.
    + congruence.
Qed.

Lemma for_each_frame now docs acc (c : Clock) k :
  k ∉ docs.*1 ->
  let st' := (for_each now docs acc c).1.1 in
  GenerateAlbumZip.events (store st') !! k = GenerateAlbumZip.events (store acc.1) !! k
  ∧ GenerateAlbumZip.captures (store st') !! k
    = GenerateAlbumZip.captures (store acc.1) !! k
  ∧ GenerateAlbumZip.zips (store st') !! k = GenerateAlbumZip.zips (store acc.1) !! k.
Proof.
  revert acc c. induction docs as [|doc rest IH]; intros acc c Hk; cbn [for_each].
  - repeat split.
  - rewrite fmap_cons, not_elem_of_cons in Hk. destruct Hk as [Hne Hk].
    unfold bind.
    pose proof (firebase_clean_event_frame now acc doc c k Hne) as (F1 & F2 & F3).
    destruct (clean_event now acc doc c) as [acc' c'].
    destruct (IH acc' c' Hk) as (I1 & I2 & I3).
    cbn [fst snd] in *. repeat split; congruence.
Qed.

(** A turn of the loop for an event that is due. *)
Lemma firebase_clean_event_due now acc id e (c : Clock) t :
  status e = expired -> galleryExpiresAt e = Some t -> t < c 0%nat ->
  let r := (clean_event now acc (id, e) c).1 in
  GenerateAlbumZip.events (store r.1) !! id
  = mark_cleaned now <$> GenerateAlbumZip.events (store acc.1) !! id
  ∧ GenerateAlbumZip.zips (store r.1) !! id = None
  ∧ GenerateAlbumZip.captures (store r.1) !! id
    = drop 500 <$> GenerateAlbumZip.captures (store acc.1) !! id
  ∧ (forall f, String.prefix (photosPath id) f = true ->
     f ∉ GenerateAlbumZip.files (store r.1))
  ∧ (forall docs,
       GenerateAlbumZip.captures (store acc.1) !! id = Some docs ->
       (500 < length docs)%nat ->
       mkCleanupError id (name e) now ∈ cleanup_errors r.1
       ∧ (0 < eventsCleanedFailed r.2)%nat).
Proof.
  intros Hst Hg Ht. destruct acc as [st s].
  unfold clean_event, shouldCleanGallery, bind, new_Date, ret.
  rewrite Hst, Hg. simpl.
  destruct (Z.ltb_spec t (c 0%nat)); [|lia]. simpl.
  rewrite delete_captures_spec. simpl.
  rewrite !lookup_alter_eq, lookup_delete_eq.
  split; [reflexivity|]. split; [reflexivity|]. split; [|split].
  - destruct (GenerateAlbumZip.captures (store st) !! id); reflexivity.
  - intros f Hpre Hf. apply elem_of_difference in Hf. destruct Hf as [Hf Hnot].
    apply Hnot. unfold getFiles. apply elem_of_filter. split; [|exact Hf].
    by apply Is_true_true.
  - intros docs Hdocs Hlen. rewrite Hdocs. simpl.
    rewrite bool_decide_eq_true_2 by exact Hlen. split; [|lia].
    apply elem_of_app. right. by apply list_elem_of_singleton.
Qed.

Lemma for_each_due now docs acc (c : Clock) id e t :
  NoDup docs.*1 -> (id, e) ∈ docs ->
  status e = expired -> galleryExpiresAt e = Some t -> (forall n, t < c n) ->
  let r := (for_each now docs acc c).1 in
  GenerateAlbumZip.events (store r.1) !! id
  = mark_cleaned now <$> GenerateAlbumZip.events (store acc.1) !! id
  ∧ GenerateAlbumZip.zips (store r.1) !! id = None
  ∧ GenerateAlbumZip.captures (store r.1) !! id
    = drop 500 <$> GenerateAlbumZip.captures (store acc.1) !! id
  ∧ (forall f, String.prefix (photosPath id) f = true ->
     f ∉ GenerateAlbumZip.files (store r.1))
  ∧ (forall docs0,
       GenerateAlbumZip.captures (store acc.1) !! id = Some docs0 ->
       (500 < length docs0)%nat ->
       mkCleanupError id (name e) now ∈ cleanup_errors r.1
       ∧ (0 < eventsCleanedFailed r.2)%nat).
Proof.
  revert acc c. induction docs as [|doc rest IH]; intros acc c Hnd Hin Hst Hg Hlate.
  - by apply elem_of_nil in Hin.
  - rewrite fmap_cons in Hnd. apply NoDup_cons in Hnd. destruct Hnd as [Hdoc Hnd].
    cbn [for_each]. unfold bind.
    pose proof (clean_event_later now acc doc c) as [j Hj].
    apply elem_of_cons in Hin. destruct Hin as [<-|Hin].
    + pose proof (firebase_clean_event_due now acc id e c t Hst Hg (Hlate 0%nat))
        as (O1 & O2 & O3 & O4 & O5).
      destruct (clean_event now acc (id, e) c) as [acc' c'].
      pose proof (for_each_frame now rest acc' c' id Hdoc) as (F1 & F2 & F3).
      pose proof (for_each_mono now rest acc' c') as (M1 & M2 & M3 & _).
      cbn [fst snd] in *. rewrite F1, F2, F3.
      split; [exact O1|]. split; [exact O2|]. split; [exact O3|]. split.
      * intros f Hpre Hf. apply (O4 f Hpre). by apply M1.
      * intros docs0 Hdocs Hlen. destruct (O5 docs0 Hdocs Hlen) as [E1 E2].
        split; [by apply M2|lia].
    + assert (Hne : id <> doc.1).
      { intros ->. apply Hdoc. apply list_elem_of_fmap. by exists (doc.1, e). }
      pose proof (firebase_clean_event_frame now acc doc c id Hne) as (F1 & F2 & F3).
      destruct (clean_event now acc doc c) as [acc' c'].
      cbn [fst snd] in *.
      assert (Hlate' : forall n, t < c' n) by (intros n; rewrite Hj; apply Hlate).
      destruct (IH acc' c' Hnd Hin Hst Hg Hlate') as (I1 & I2 & I3 & I4 & I5).
      rewrite I1, I2, I3, F1, F2.
      split; [reflexivity|]. split; [reflexivity|]. split; [reflexivity|].
      split; [exact I4|].
      intros docs0 Hdocs Hlen. apply (I5 docs0); [by rewrite F2|exact Hlen].
Qed.

Lemma expired_events_elem (tbl : gmap string Event) id e :
  (id, e) ∈ expired_events tbl <-> tbl !! id = Some e ∧ status e = expired.
Proof.
  unfold expired_events. rewrite list_elem_of_filter, elem_of_map_to_list. simpl.
  tauto.
Qed.

Lemma expired_events_NoDup (tbl : gmap string Event) : NoDup (expired_events tbl).*1.
Proof.
  unfold expired_events.
  eapply sublist_NoDup; [apply (NoDup_fst_map_to_list tbl)|].
  apply fmap_sublist, sublist_filter.
Qed.

(** X20. The scheduled job on an expired event whose gallery expiry lies
    before every reading of its clock: the document is marked cleaned with
    the instant of the run, the archive and every file under the event's
    folder are gone, and the capture documents are deleted, the first 500 of
    them.  The batch is committed at 500 and used again for the 501st, which
    a committed batch refuses: an event with more than 500 capture documents
    keeps the rest, is counted as failed and gets a record in the errors
    collection, although its status already says cleaned, so that no later
    run selects it again. *)
Theorem firebase_cleanup_of_due_event st (c : Clock) id e t :
  GenerateAlbumZip.events (store st) !! id = Some e ->
  status e = expired -> galleryExpiresAt e = Some t -> (forall n, t < c n) ->
  let out := (autoCleanup st c).1 in
  GenerateAlbumZip.events (store out.2) !! id = Some (mark_cleaned (c 0%nat) e)
  ∧ status (mark_cleaned (c 0%nat) e) = cleaned
  ∧ GenerateAlbumZip.zips (store out.2) !! id = None
  ∧ (forall f, String.prefix (photosPath id) f = true ->
     f ∉ GenerateAlbumZip.files (store out.2))
  ∧ GenerateAlbumZip.captures (store out.2) !! id
    = drop 500 <$> GenerateAlbumZip.captures (store st) !! id
  ∧ (forall docs,
       GenerateAlbumZip.captures (store st) !! id = Some docs ->
       ((length docs <= 500)%nat ->
        GenerateAlbumZip.captures (store out.2) !! id = Some [])
       ∧ ((500 < length docs)%nat ->
          GenerateAlbumZip.captures (store out.2) !! id = Some (drop 500 docs)
          ∧ drop 500 docs <> []
          ∧ mkCleanupError id (name e) (c 0%nat) ∈ cleanup_errors out.2
          ∧ (0 < eventsCleanedFailed out.1)%nat)).
Proof.
  intros He Hst Hg Hlate out. subst out.
  unfold autoCleanup, bind, new_Date, ret.
  assert (Hin : (id, e) ∈ expired_events (GenerateAlbumZip.events (store st)))
    by (by apply expired_events_elem).
  pose proof (for_each_due (c 0%nat)
                (expired_events (GenerateAlbumZip.events (store st)))
                (st, mkSummary (c 0%nat) 0 0 0 0 0) (fun n => c (S n)) id e t
                (expired_events_NoDup _) Hin Hst Hg (fun n => Hlate (S n)))
    as (O1 & O2 & O3 & O4 & O5).
  destruct (for_each (c 0%nat) (expired_events (GenerateAlbumZip.events (store st)))
              (st, mkSummary (c 0%nat) 0 0 0 0 0) (fun n => c (S n)))
    as [[st' s] c'].
  cbn [fst snd store cleanup_errors] in *.
  rewrite O1, O2, O3, He.
  split; [reflexivity|]. split; [reflexivity|]. split; [reflexivity|].
  split; [exact O4|]. split; [reflexivity|].
  intros docs Hdocs. rewrite Hdocs. split.
  - intros Hlen. simpl. f_equal. apply drop_ge. exact Hlen.
  - intros Hlen. split; [reflexivity|]. split.
    + intros Hnil. apply (f_equal length) in Hnil. rewrite length_drop in Hnil.
      simpl in Hnil. lia.
    + by apply (O5 docs).
Qed.

Lemma firebase_cleanup_of_due_event_example :
  GenerateAlbumZip.events (store (autoCleanup sample_cleanup_backend sample_clock).1.2)
    !! "ev1"
  = Some (mark_cleaned (sample_clock 0%nat) sample_due_event)
  ∧ GenerateAlbumZip.captures
      (store (autoCleanup sample_cleanup_backend sample_clock).1.2) !! "ev1"
    = Some [].
Proof.
  assert (Hlate : forall n, 100 < sample_clock n)
    by (intros n; unfold sample_clock; lia).
  assert (He : GenerateAlbumZip.events (store sample_cleanup_backend) !! "ev1"
               = Some sample_due_event)
    by (vm_compute; reflexivity).
  pose proof (firebase_cleanup_of_due_event sample_cleanup_backend sample_clock "ev1"
                sample_due_event 100 He eq_refl eq_refl Hlate) as H.
  cbv zeta in H. destruct H as (Hdoc & _ & _ & _ & _ & Hdocs).
  split; [exact Hdoc|].
  destruct (Hdocs [ GenerateAlbumZip.mkCapture 1 (Some "events/ev1/1.jpg") true ])
    as [Hsmall _].
  - vm_compute. reflexivity.
  - apply Hsmall. apply Nat.leb_le. vm_compute. reflexivity.
Defined.

Lemma shouldCleanGallery_not_yet e (c : Clock) :
  (galleryExpiresAt e = None
   ∨ exists t, galleryExpiresAt e = Some t ∧ forall n, c n <= t) ->
  (shouldCleanGallery e c).1 = false.
Proof.
  intros Hg. unfold shouldCleanGallery, bind, new_Date, ret.
  destruct (negb (status_eqb (status e) expired)); [reflexivity|]. simpl.
  destruct Hg as [-> | (t & -> & Ht)]; [reflexivity|].
  apply Z.ltb_ge. apply Ht.
Qed.

Lemma for_each_spares now docs acc (c : Clock) k :
  (forall e, (k, e) ∈ docs ->
     galleryExpiresAt e = None
     ∨ exists t, galleryExpiresAt e = Some t ∧ forall n, c n <= t) ->
  let st' := (for_each now docs acc c).1.1 in
  GenerateAlbumZip.events (store st') !! k = GenerateAlbumZip.events (store acc.1) !! k
  ∧ GenerateAlbumZip.captures (store st') !! k
    = GenerateAlbumZip.captures (store acc.1) !! k
  ∧ GenerateAlbumZip.zips (store st') !! k = GenerateAlbumZip.zips (store acc.1) !! k.
Proof.
  revert acc c. induction docs as [|doc rest IH]; intros acc c Hk; cbn [for_each].
  - repeat split.
  - unfold bind.
    pose proof (clean_event_later now acc doc c) as [j Hj].
    assert (Hstep : GenerateAlbumZip.events (store (clean_event now acc doc c).1.1) !! k
                    = GenerateAlbumZip.events (store acc.1) !! k
                    ∧ GenerateAlbumZip.captures (store (clean_event now acc doc c).1.1) !! k
                      = GenerateAlbumZip.captures (store acc.1) !! k
                    ∧ GenerateAlbumZip.zips (store (clean_event now acc doc c).1.1) !! k
                      = GenerateAlbumZip.zips (store acc.1) !! k).
    { destruct (decide (k = doc.1)) as [->|Hne].
      - destruct doc as [id e]. simpl.
        rewrite (firebase_clean_event_not_due now acc id e c); [repeat split|].
        apply shouldCleanGallery_not_yet. apply Hk. left.
      - by apply firebase_clean_event_frame. }
    destruct (clean_event now acc doc c) as [acc' c'].
    cbn [fst snd] in *. destruct Hstep as (F1 & F2 & F3).
    assert (Hk' : forall e, (k, e) ∈ rest ->
                    galleryExpiresAt e = None
                    ∨ exists t, galleryExpiresAt e = Some t ∧ forall n, c' n <= t).
    { intros e He. destruct (Hk e) as [Hnone|(t & Ht & Hle)]; [by right|by left|].
      right. exists t. split; [exact Ht|]. intros n. rewrite Hj. apply Hle. }
    destruct (IH acc' c' Hk') as (I1 & I2 & I3).
    repeat split; congruence.
Qed.

(** X21. The scheduled job leaves alone what is not due: the document, the
    capture documents and the archive of an event that is not expired, or
    whose gallery expiry is not set or not before any reading of the clock,
    are after the run what they were before.  In its summary the job counts
    as processed every expired event, due or not; the summary carries the
    instant of the run and is appended, once, to the log. *)
Theorem firebase_cleanup_spares st (c : Clock) k :
  (forall e, GenerateAlbumZip.events (store st) !! k = Some e -> status e = expired ->
     galleryExpiresAt e = None
     ∨ exists t, galleryExpiresAt e = Some t ∧ forall n, c n <= t) ->
  let out := (autoCleanup st c).1 in
  GenerateAlbumZip.events (store out.2) !! k = GenerateAlbumZip.events (store st) !! k
  ∧ GenerateAlbumZip.captures (store out.2) !! k
    = GenerateAlbumZip.captures (store st) !! k
  ∧ GenerateAlbumZip.zips (store out.2) !! k = GenerateAlbumZip.zips (store st) !! k
  ∧ eventsProcessed out.1
    = length (expired_events (GenerateAlbumZip.events (store st)))
  ∧ timestamp out.1 = c 0%nat
  ∧ cleanup_logs out.2 = cleanup_logs st ++ [out.1].
Proof.
  intros Hk out. subst out. unfold autoCleanup, bind, new_Date, ret.
  assert (Hk' : forall e,
             (k, e) ∈ expired_events (GenerateAlbumZip.events (store st)) ->
             galleryExpiresAt e = None
             ∨ exists t, galleryExpiresAt e = Some t ∧ forall n, c (S n) <= t).
  { intros e He. apply expired_events_elem in He. destruct He as [He Hst].
    destruct (Hk e He Hst) as [Hnone|(t & Ht & Hle)]; [by left|].
    right. exists t. split; [exact Ht|]. intros n. apply Hle. }
  pose proof (for_each_spares (c 0%nat)
                (expired_events (GenerateAlbumZip.events (store st)))
                (st, mkSummary (c 0%nat) 0 0 0 0 0) (fun n => c (S n)) k Hk')
    as (F1 & F2 & F3).
  pose proof (for_each_mono (c 0%nat)
                (expired_events (GenerateAlbumZip.events (store st)))
                (st, mkSummary (c 0%nat) 0 0 0 0 0) (fun n => c (S n)))
    as (_ & _ & _ & M4 & M5 & M6).
  destruct (for_each (c 0%nat) (expired_events (GenerateAlbumZip.events (store st)))
              (st, mkSummary (c 0%nat) 0 0 0 0 0) (fun n => c (S n)))
    as [[st' s] c'].
  cbn [fst snd store cleanup_logs eventsProcessed timestamp] in *.
  rewrite F1, F2, F3, M4, M5, M6. repeat split.
Qed.

Lemma firebase_cleanup_spares_example :
  let out := (autoCleanup sample_cleanup_backend sample_clock).1 in
  GenerateAlbumZip.events (store out.2) !! "ev2"
  = GenerateAlbumZip.events (store sample_cleanup_backend) !! "ev2"
  ∧ GenerateAlbumZip.captures (store out.2) !! "ev2"
    = GenerateAlbumZip.captures (store sample_cleanup_backend) !! "ev2"
  ∧ GenerateAlbumZip.zips (store out.2) !! "ev2"
    = GenerateAlbumZip.zips (store sample_cleanup_backend) !! "ev2"
  ∧ eventsProcessed out.1
    = length (expired_events (GenerateAlbumZip.events (store sample_cleanup_backend)))
  ∧ timestamp out.1 = sample_clock 0%nat
  ∧ cleanup_logs out.2 = cleanup_logs sample_cleanup_backend ++ [out.1].
Proof.
  apply (firebase_cleanup_spares sample_cleanup_backend sample_clock "ev2").
  intros e He Hst. left.
  vm_compute in He. injection He as <-. reflexivity.
Defined.

(** X22. The manual cleanup asks who calls and nothing about the event: a
    caller without the admin claim is refused with permission-denied and
    nothing changes; for an admin the event is cleaned whatever its status
    and its dates (an active event in the middle of its window too): the
    document is marked cleaned, the files under its folder, its archive and
    its capture documents are deleted, the answer counts the files, and the
    documents, capture documents and archives of other events stay. *)
Theorem manual_cleanup_any_status commit_ok id st (c : Clock) e :
  id <> EmptyString -> GenerateAlbumZip.events (store st) !! id = Some e ->
  (manualCleanup false commit_ok id st c).1
  = (Throws "permission-denied" "Only admins can manually trigger cleanup", st)
  ∧ let out := (manualCleanup true true id st c).1 in
    out.1
    = Returns (mkCleaned id
                 (size (getFiles (photosPath id) (GenerateAlbumZip.files (store st)))))
    ∧ GenerateAlbumZip.events (store out.2) !! id = Some (mark_cleaned (c 0%nat) e)
    ∧ status (mark_cleaned (c 0%nat) e) = cleaned
    ∧ GenerateAlbumZip.zips (store out.2) !! id = None
    ∧ GenerateAlbumZip.captures (store out.2) !! id
      = (fun _ => []) <$> GenerateAlbumZip.captures (store st) !! id
    ∧ (forall f, String.prefix (photosPath id) f = true ->
       f ∉ GenerateAlbumZip.files (store out.2))
    ∧ (forall k, k <> id ->
       GenerateAlbumZip.events (store out.2) !! k
       = GenerateAlbumZip.events (store st) !! k
       ∧ GenerateAlbumZip.captures (store out.2) !! k
         = GenerateAlbumZip.captures (store st) !! k
       ∧ GenerateAlbumZip.zips (store out.2) !! k
         = GenerateAlbumZip.zips (store st) !! k).
Proof.
  intros Hid He. split; [reflexivity|].
  unfold manualCleanup, bind, new_Date, ret. simpl.
  rewrite (is_empty_false _ Hid), He. simpl.
  rewrite !lookup_alter_eq, lookup_delete_eq, He.
  split; [reflexivity|]. split; [reflexivity|]. split; [reflexivity|].
  split; [reflexivity|]. split; [reflexivity|]. split.
  - intros f Hpre Hf. apply elem_of_difference in Hf. destruct Hf as [Hf Hnot].
    apply Hnot. unfold getFiles. apply elem_of_filter. split; [|exact Hf].
    by apply Is_true_true.
  - intros k Hne.
    rewrite !lookup_alter_ne, lookup_delete_ne by congruence. repeat split.
Qed.

Lemma manual_cleanup_any_status_example :
  (manualCleanup false true "ev2" sample_cleanup_backend sample_clock).1
  = (Throws "permission-denied" "Only admins can manually trigger cleanup",
     sample_cleanup_backend)
  ∧ let out := (manualCleanup true true "ev2" sample_cleanup_backend sample_clock).1 in
    out.1
    = Returns (mkCleaned "ev2"
                 (size (getFiles (photosPath "ev2")
                          (GenerateAlbumZip.files (store sample_cleanup_backend)))))
    ∧ GenerateAlbumZip.events (store out.2) !! "ev2"
      = Some (mark_cleaned (sample_clock 0%nat) sample_doc)
    ∧ status (mark_cleaned (sample_clock 0%nat) sample_doc) = cleaned
    ∧ GenerateAlbumZip.zips (store out.2) !! "ev2" = None
    ∧ GenerateAlbumZip.captures (store out.2) !! "ev2"
      = (fun _ => []) <$> GenerateAlbumZip.captures (store sample_cleanup_backend)
                            !! "ev2"
    ∧ (forall f, String.prefix (photosPath "ev2") f = true ->
       f ∉ GenerateAlbumZip.files (store out.2))
    ∧ (forall k, k <> "ev2" ->
       GenerateAlbumZip.events (store out.2) !! k
       = GenerateAlbumZip.events (store sample_cleanup_backend) !! k
       ∧ GenerateAlbumZip.captures (store out.2) !! k
         = GenerateAlbumZip.captures (store sample_cleanup_backend) !! k
       ∧ GenerateAlbumZip.zips (store out.2) !! k
         = GenerateAlbumZip.zips (store sample_cleanup_backend) !! k).
Proof.
  apply (manual_cleanup_any_status true "ev2" sample_cleanup_backend sample_clock
           sample_doc).
  - discriminate.
  - vm_compute. reflexivity.
Defined.

End FirebaseCleanupJob.
